(** * Muqaddas Network: the donate page, the auth provider and the mind-game
    request of the clients, and the wallet backend as the spec describes it

  The web client is [frontend/src/App.js] (React), the mobile education
  screen is [frontend/app/(tabs)/education.tsx] (React Native).  JavaScript
  numbers are IEEE 754 binary64 values; they are modelled with the
  specification floats of the core library ([spec_float], the executable
  definitions the primitive floats are specified against), so products are
  rounded to nearest-even exactly as the engine rounds them.

  Part I holds the definitions, Part II the lemmas and theorems. *)

From stdpp Require Import gmap strings list.
From Stdlib Require Import ZArith Lia String Ascii List Bool.
From Stdlib Require Import Floats.SpecFloat.
From Stdlib Require Import DecimalString DecimalN DecimalPos QArith Lqa.
Import ListNotations.

Set Warnings "-register-all".

(* ===================================================================== *)
(** * Part I: definitions                                                 *)
(* ===================================================================== *)

(** ** JavaScript numbers *)

Module JsNumber.
Local Open Scope Z_scope.

(** A JS [number]: a binary64 float, 53 bits of precision, exponents below
    1024. *)
Definition number : Type := spec_float.
Definition prec : Z := 53.
Definition emax : Z := 1024.

Definition NaN : number := S754_nan.

(** The well-formed numbers: the mantissa and exponent of a finite value
    are the canonical ones of binary64. *)
Definition wf (x : number) : bool := valid_binary prec emax x.

(** The operator [*]. *)
Definition mul (x y : number) : number := SFmul prec emax x y.

(** The operators [<], [<=], [>=] and [===] on numbers. *)
Definition lt (x y : number) : bool := SFltb x y.
Definition le (x y : number) : bool := SFleb x y.
Definition ge (x y : number) : bool := SFleb y x.
Definition eqb (x y : number) : bool := SFeqb x y.

(** The operator [-]. *)
Definition sub (x y : number) : number := SFsub prec emax x y.

(** The number an integer denotes (rounded when it has more than 53
    significant bits). *)
Definition of_Z (z : Z) : number := binary_normalize prec emax z 0 false.

(** The number nearest to the decimal [m * 10^e10], sign apart ([m >= 0]):
    what the engine makes of a decimal literal or of a parsed decimal
    string.  A negative [e10] divides [m] by a power of ten and rounds the
    quotient once. *)
Definition of_decimal (neg : bool) (m : Z) (e10 : Z) : number :=
  match m with
  | Z0 => S754_zero neg
  | Zneg _ => S754_nan
  | Zpos _ =>
      if 0 <=? e10
      then binary_normalize prec emax
             (if neg then - (m * 10 ^ e10) else m * 10 ^ e10) 0 false
      else let '(q, e, l) := SFdiv_core_binary prec emax m 0 (10 ^ (- e10)) 0 in
           binary_round_aux prec emax neg q e l
  end.

Definition zero : number := S754_zero false.
Definition one : number := of_decimal false 1 0.

(** What [Math.random()] may return: a number [r] with [0 <= r] and
    [r < 1]. *)
Definition unit_interval (r : number) : bool :=
  wf r && ge r zero && lt r one.

(** The exact value of a finite number is [mant * 2^expo]. *)
Definition mant (x : number) : Z :=
  match x with
  | S754_finite s m _ => if s then Zneg m else Zpos m
  | _ => 0
  end.

Definition expo (x : number) : Z :=
  match x with
  | S754_finite _ _ e => e
  | _ => 0
  end.

Definition is_finite (x : number) : bool :=
  match x with
  | S754_zero _ | S754_finite _ _ _ => true
  | _ => false
  end.

(** [Math.floor]: the largest integer not above [x]; zeros, infinities and
    NaN are returned as they are, and a positive number below one gives
    [+0]. *)
Definition floor (x : number) : number :=
  match x with
  | S754_finite s m e =>
      if 0 <=? e then x
      else
        let q := Zpos m / 2 ^ (- e) in
        let r := Zpos m mod 2 ^ (- e) in
        if s then binary_normalize prec emax (- (if r =? 0 then q else q + 1)) 0 true
        else binary_normalize prec emax q 0 false
  | _ => x
  end.

(** The integer a number denotes, when it is finite and integral. *)
Definition to_Z (x : number) : option Z :=
  match x with
  | S754_zero _ => Some 0
  | S754_finite s m e =>
      if 0 <=? e then Some (mant x * 2 ^ e)
      else if Zpos m mod 2 ^ (- e) =? 0
           then Some (mant x / 2 ^ (- e))
           else None
  | _ => None
  end.

(** The integer [n] is below the exact value of the finite number [x]. *)
Definition below (n : Z) (x : number) : Prop :=
  n * 2 ^ Z.max 0 (- expo x) < mant x * 2 ^ Z.max 0 (expo x).

(** *** Decimal strings *)

Definition is_digit (c : ascii) : bool :=
  let n := Z.of_nat (nat_of_ascii c) in (48 <=? n) && (n <=? 57).

Definition digit_value (c : ascii) : Z := Z.of_nat (nat_of_ascii c) - 48.

(** StrWhiteSpaceChar, for the code points below 128: tab, line feed,
    vertical tab, form feed, carriage return and space. *)
Definition is_white (c : ascii) : bool :=
  let n := Z.of_nat (nat_of_ascii c) in
  ((9 <=? n) && (n <=? 13)) || (n =? 32).

Fixpoint trim_start (s : string) : string :=
  match s with
  | String c r => if is_white c then trim_start r else s
  | EmptyString => s
  end.

(** Reads the digits at the head of [s] on top of the value [acc]: the
    value, the number of digits read and the rest of the string. *)
Fixpoint take_digits (s : string) (acc : Z) (cnt : Z) : Z * Z * string :=
  match s with
  | String c r =>
      if is_digit c then take_digits r (10 * acc + digit_value c) (cnt + 1)
      else (acc, cnt, s)
  | EmptyString => (acc, cnt, s)
  end.

(** ExponentPart: [e] or [E], an optional sign and at least one digit;
    anything else is no exponent and is left unread. *)
Definition exponent_part (s : string) : Z :=
  match s with
  | String c r =>
      if (Ascii.eqb c "e" || Ascii.eqb c "E")%bool then
        let '(neg, r') :=
          match r with
          | String "-" r' => (true, r')
          | String "+" r' => (false, r')
          | _ => (false, r)
          end in
        let '(v, cnt, _) := take_digits r' 0 0 in
        if cnt =? 0 then 0 else if neg then - v else v
      else 0
  | EmptyString => 0
  end.

(** The global [parseFloat] on a string: leading white space is skipped,
    the longest prefix that is a StrDecimalLiteral is read and the rest is
    ignored; no such prefix gives NaN. *)
Definition parseFloat (input : string) : number :=
  let s := trim_start input in
  let '(neg, s1) :=
    match s with
    | String "-" r => (true, r)
    | String "+" r => (false, r)
    | _ => (false, s)
    end in
  if String.prefix "Infinity" s1 then S754_infinity neg
  else
    let '(ip, ni, s2) := take_digits s1 0 0 in
    let '(m, nf, s3) :=
      match s2 with
      | String "." r => take_digits r ip 0
      | _ => (ip, 0, s2)
      end in
    if ni + nf =? 0 then NaN
    else of_decimal neg m (exponent_part s3 - nf).

(** The value of a decimal number read after the value [acc]. *)
Fixpoint uint_value (d : Decimal.uint) (acc : Z) : Z :=
  match d with
  | Decimal.Nil => acc
  | Decimal.D0 l => uint_value l (10 * acc + 0)
  | Decimal.D1 l => uint_value l (10 * acc + 1)
  | Decimal.D2 l => uint_value l (10 * acc + 2)
  | Decimal.D3 l => uint_value l (10 * acc + 3)
  | Decimal.D4 l => uint_value l (10 * acc + 4)
  | Decimal.D5 l => uint_value l (10 * acc + 5)
  | Decimal.D6 l => uint_value l (10 * acc + 6)
  | Decimal.D7 l => uint_value l (10 * acc + 7)
  | Decimal.D8 l => uint_value l (10 * acc + 8)
  | Decimal.D9 l => uint_value l (10 * acc + 9)
  end.

(** The decimal digits of a natural number. *)
Definition digits_of (n : Z) : string :=
  NilZero.string_of_uint (N.to_uint (Z.to_N n)).

Fixpoint zeros (k : nat) : string :=
  match k with
  | O => EmptyString
  | S k' => String "0" (zeros k')
  end.

(** The decimal [s * 10^e10] reads back as the finite number [x]. *)
Definition reads_back (x : number) (s : Z) (e10 : Z) : bool :=
  match x, of_decimal false s e10 with
  | S754_finite _ m e, S754_finite _ m' e' => (Zpos m =? Zpos m') && (e =? e')
  | _, _ => false
  end.

(** The shortest decimal that reads back as [x], an integer [X] of [nd]
    decimal digits: the pair [(s, n)] stands for [s * 10^(n-k)] with [s] of
    [k] digits, [k] as small as possible from the given [k] on, and of the
    two candidates with [k] digits the nearer to [X], the even one when
    they are equally near.  Seventeen digits always suffice. *)
Fixpoint shortest_digits (fuel : nat) (x : number) (X nd k : Z) : Z * Z :=
  let lo := X / 10 ^ (nd - k) in
  let hi := lo + 1 in
  let ok_lo := reads_back x lo (nd - k) in
  let ok_hi := reads_back x hi (nd - k) in
  let d_lo := X - lo * 10 ^ (nd - k) in
  let d_hi := hi * 10 ^ (nd - k) - X in
  let up := if hi =? 10 ^ k then (10 ^ (k - 1), nd + 1) else (hi, nd) in
  let pick_lo :=
    ok_lo && (negb ok_hi || (d_lo <? d_hi) || ((d_lo =? d_hi) && Z.even lo)) in
  if pick_lo then (lo, nd)
  else if ok_hi then up
  else match fuel with
       | O => (lo, nd)
       | S fuel' => shortest_digits fuel' x X nd (k + 1)
       end.

(** Number::toString for a positive number of at least [10^21]: the
    shortest digits, in exponential notation. *)
Definition toString_large (x : number) : string :=
  let X := Z.abs (mant x) * 2 ^ expo x in
  let nd := Z.of_nat (String.length (NilZero.string_of_uint (N.to_uint (Z.to_N X)))) in
  let '(s, n) := shortest_digits 17 x X nd 1 in
  let ds := NilZero.string_of_uint (N.to_uint (Z.to_N s)) in
  let k := String.length ds in
  let e := NilZero.string_of_uint (N.to_uint (Z.to_N (n - 1))) in
  match k with
  | 1%nat => ds +:+ "e+" +:+ e
  | _ => String.substring 0 1 ds +:+ "." +:+ String.substring 1 (k - 1) ds +:+ "e+" +:+ e
  end.

(** The integer nearest to [|x| * 10^f], the larger one when two are
    equally near (step 10.a of Number.prototype.toFixed). *)
Definition nearest_scaled (x : number) (f : Z) : Z :=
  match x with
  | S754_finite _ m e =>
      let N := Zpos m * 10 ^ f in
      if 0 <=? e then N * 2 ^ e else (2 * N + 2 ^ (- e)) / 2 ^ (1 - e)
  | _ => 0
  end.

Definition is_negative (x : number) : bool :=
  match x with
  | S754_finite true _ _ | S754_infinity true => true
  | _ => false
  end.

(** The digits of the natural number [n] with a point before the last [f]
    of them; zeros are put in front until a digit stands before the point
    (steps 10.b and 10.c of Number.prototype.toFixed). *)
Definition point_before_last (f : nat) (n : Z) : string :=
  let m := digits_of n in
  match f with
  | O => m
  | _ =>
      let k := String.length m in
      let m' := if (k <=? f)%nat then zeros (f + 1 - k) +:+ m else m in
      let k' := String.length m' in
      String.substring 0 (k' - f) m' +:+ "." +:+ String.substring (k' - f) f m'
  end.

(** The literal [1e21], from which on [toFixed] answers as [toString]. *)
Definition ten_to_21 : number := of_decimal false 1 21.

(** [x.toFixed(f)], for [0 <= f <= 100]. *)
Definition toFixed (x : number) (f : nat) : string :=
  match x with
  | S754_nan => "NaN"
  | S754_infinity s => if s then "-Infinity" else "Infinity"
  | _ =>
      let sign := if is_negative x then "-" else "" in
      if ge (SFabs x) ten_to_21 then sign +:+ toString_large (SFabs x)
      else sign +:+ point_before_last f (nearest_scaled x (Z.of_nat f))
  end.
End JsNumber.

(** ** Rounding to nearest-even, in integers

    The definitions the facts about products are stated with: what
    [binary_round_aux] computes from an exact natural number, written with
    integer division. *)

Module Rounding.
Import JsNumber.
Local Open Scope Z_scope.

(** The number of binary digits of a mantissa. *)
Definition digits (p : positive) : Z := Zpos (digits2_pos p).

(** The mantissa [m] and the exponent [e] are the ones binary64 gives the
    value [m * 2^e]. *)
Definition canonical (m : positive) (e : Z) : Prop :=
  fexp prec emax (digits m + e) = e /\ e <= emax - prec.

(** The record after [k] shifts of a natural number [m]: the quotient, the
    last bit shifted out and whether a lower bit was set. *)
Definition shifted (m : Z) (k : Z) : shr_record :=
  {| shr_m := m / 2 ^ k;
     shr_r := Z.odd (m / 2 ^ (k - 1));
     shr_s := negb (m mod 2 ^ (k - 1) =? 0) |}.

(** [m / 2^k] rounded to the nearest integer, ties to even. *)
Definition rne (m k : Z) : Z :=
  let q := m / 2 ^ k in
  let r := m mod 2 ^ k in
  let h := 2 ^ (k - 1) in
  if r <? h then q
  else if r =? h then (if Z.even q then q else q + 1)
  else q + 1.

(** A mantissa that is too long for its exponent is shifted down to the
    exponent binary64 gives it (the last step of [binary_round_aux], which
    drops the bits shifted out). *)
Definition renorm (m e : Z) : Z * Z :=
  let k := fexp prec emax (Zdigits2 m + e) - e in
  if 0 <? k then (m / 2 ^ k, e + k) else (m, e).

(** The mantissa and exponent [binary_round_aux] arrives at from the exact
    natural number [p * 2^e], before the zero and overflow tests. *)
Definition round_exact (p : positive) (e : Z) : Z * Z :=
  let k := fexp prec emax (digits p + e) - e in
  if 0 <? k then renorm (rne (Zpos p) k) (e + k) else (Zpos p, e).

(** The number of sign [s] with that mantissa and exponent. *)
Definition build (s : bool) (me : Z * Z) : number :=
  match fst me with
  | Z0 => S754_zero s
  | Zpos m => if snd me <=? emax - prec then S754_finite s m (snd me) else S754_infinity s
  | Zneg _ => S754_nan
  end.
End Rounding.

(** ** JavaScript values *)

Module Js.
Import JsNumber.

(** The values that travel between the clients and the backend (parsed
    JSON, request bodies) and that the components keep in their state. *)
Inductive JsValue : Type :=
| JsUndefined
| JsNull
| JsBool (b : bool)
| JsNum (n : number)
| JsStr (s : string)
| JsArr (items : list JsValue)
| JsObj (fields : list (string * JsValue)).

(** ToBoolean: [undefined], [null], [false], zeros, NaN and the empty
    string are falsy; every object is truthy. *)
Definition truthy (v : JsValue) : bool :=
  match v with
  | JsUndefined | JsNull => false
  | JsBool b => b
  | JsNum (S754_zero _) | JsNum S754_nan => false
  | JsNum _ => true
  | JsStr s => negb (String.eqb s "")
  | JsArr _ | JsObj _ => true
  end.

Fixpoint lookup_field (k : string) (fields : list (string * JsValue)) : JsValue :=
  match fields with
  | [] => JsUndefined
  | (k', v) :: rest => if String.eqb k k' then v else lookup_field k rest
  end.

(** [v?.k] for a data property name [k]: [undefined] on [null] and
    [undefined], the field of an object, and [undefined] on the other
    values, which have no own property of the names used here. *)
Definition opt_get (k : string) (v : JsValue) : JsValue :=
  match v with
  | JsObj fields => lookup_field k fields
  | _ => JsUndefined
  end.

(** [a || b]. *)
Definition or_else (a b : JsValue) : JsValue := if truthy a then a else b.

(** The names of the fields of an object literal, in order. *)
Definition field_names (v : JsValue) : list string :=
  match v with
  | JsObj fields => map fst fields
  | _ => []
  end.
End Js.

(** ** The web client: [frontend/src/App.js] *)

Module WebApp.
Import JsNumber Js.

(** *** What the handlers do to the outside *)

Inductive Method := GET | POST.

Record Request := {
  req_method : Method;
  req_url : string;
  req_authorization : option string;
  req_body : JsValue
}.

Inductive Effect :=
| PreventDefault
| NavigateTo (path : string)
| Http (r : Request)
| ConsoleError (label : string) (error : JsValue).

(** A settled promise of [api.post]. *)
Inductive Reply :=
| Resolved (response : JsValue)
| Rejected (error : JsValue).

(** *** State *)

(** The [useState] cells of [AuthProvider]. *)
Record AuthState := {
  user : JsValue;
  loading : bool
}.

(** The [useState] cells of [DonatePage]; its [loading] cell is
    [submitting] here, [AuthProvider] has a cell of the same name. *)
Record DonateState := {
  amount : string;
  donorName : JsValue;
  donorPhone : JsValue;
  message : string;
  submitted : bool;
  submitting : bool
}.

(** The browser tab: [localStorage], the state of the components and the
    effects performed so far, oldest first. *)
Record World := {
  localStorage : gmap string string;
  auth : AuthState;
  donate : DonateState;
  trace : list Effect
}.

Definition with_storage (f : gmap string string -> gmap string string) (w : World) : World :=
  {| localStorage := f (localStorage w); auth := auth w; donate := donate w; trace := trace w |}.

Definition with_auth (f : AuthState -> AuthState) (w : World) : World :=
  {| localStorage := localStorage w; auth := f (auth w); donate := donate w; trace := trace w |}.

Definition with_donate (f : DonateState -> DonateState) (w : World) : World :=
  {| localStorage := localStorage w; auth := auth w; donate := f (donate w); trace := trace w |}.

Definition perform (e : Effect) (w : World) : World :=
  {| localStorage := localStorage w; auth := auth w; donate := donate w; trace := trace w ++ [e] |}.

(** *** A state monad for the handlers *)

Definition M (A : Type) : Type := World -> A * World.

Definition ret {A} (a : A) : M A := fun w => (a, w).

Definition bind {A B} (c : M A) (k : A -> M B) : M B :=
  fun w => let '(a, w') := c w in k a w'.

Declare Scope handler_scope.
Delimit Scope handler_scope with handler.
Notation "x <- c ;; k" := (bind c (fun x => k))
  (at level 100, c at next level, right associativity) : handler_scope.
Notation "c ;;; k" := (bind c (fun _ => k))
  (at level 100, right associativity) : handler_scope.
Local Open Scope handler_scope.

Definition get : M World := fun w => (w, w).
Definition modify (f : World -> World) : M unit := fun w => (tt, f w).
Definition run {A} (c : M A) (w : World) : World := snd (c w).

(** *** The API helper *)

(** The request interceptor: a truthy [localStorage.getItem("token")]
    becomes the [Authorization] header. *)
Definition authorization (storage : gmap string string) : option string :=
  match storage !! "token" with
  | Some token => if String.eqb token "" then None else Some ("Bearer " +:+ token)
  | None => None
  end.

(** What a visitor types into the form of [DonatePage]. *)
Inductive Edit :=
| TypeAmount (v : string)
| TypeDonorName (v : string)
| TypeDonorPhone (v : string)
| TypeMessage (v : string).

Section Handlers.
(** The backend as the client sees it: how the promise of a request
    settles. *)
Variable server : Request -> Reply.

(** What [localStorage.setItem] stores for a value (ToString), and the
    builtins [JSON.stringify] and [JSON.parse] ([None]: a SyntaxError). *)
Variable ToString : JsValue -> string.
Variable JSON_stringify : JsValue -> JsValue.
Variable JSON_parse : string -> option JsValue.

(** [await api.post(url, body)]: the request leaves with the header of
    the interceptor and the handler resumes with the reply. *)
Definition api_post (url : string) (body : JsValue) : M Reply :=
  w <- get ;;
  let r := {| req_method := POST; req_url := url;
              req_authorization := authorization (localStorage w);
              req_body := body |} in
  modify (perform (Http r)) ;;;
  ret (server r).

(** *** AuthProvider *)

Definition setUser (u : JsValue) : M unit :=
  modify (with_auth (fun a => {| user := u; loading := loading a |})).

Definition setLoading (b : bool) : M unit :=
  modify (with_auth (fun a => {| user := user a; loading := b |})).

Definition setItem (k : string) (v : JsValue) : M unit :=
  modify (with_storage (fun m => <[k := ToString v]> m)).

Definition removeItem (k : string) : M unit :=
  modify (with_storage (fun m => delete k m)).

Definition login (token userData : JsValue) : M unit :=
  setItem "token" token ;;;
  setItem "user" (JSON_stringify userData) ;;;
  setUser userData.

Definition logout : M unit :=
  removeItem "token" ;;;
  removeItem "user" ;;;
  setUser JsNull.

(** The mount effect: a saved session is restored when both entries are
    truthy strings; a saved user that does not parse throws before
    [setLoading(false)] is reached. *)
Definition restore_session : M unit :=
  w <- get ;;
  let token := localStorage w !! "token" in
  let savedUser := localStorage w !! "user" in
  match token, savedUser with
  | Some t, Some s =>
      if negb (String.eqb t "") && negb (String.eqb s "") then
        match JSON_parse s with
        | Some u => setUser u ;;; setLoading false
        | None => ret tt
        end
      else setLoading false
  | _, _ => setLoading false
  end.

(** *** DonatePage *)

Definition setSubmitted (b : bool) : M unit :=
  modify (with_donate (fun d =>
    {| amount := amount d; donorName := donorName d; donorPhone := donorPhone d;
       message := message d; submitted := b; submitting := submitting d |})).

Definition setSubmitting (b : bool) : M unit :=
  modify (with_donate (fun d =>
    {| amount := amount d; donorName := donorName d; donorPhone := donorPhone d;
       message := message d; submitted := submitted d; submitting := b |})).

Definition setAmount (v : string) : M unit :=
  modify (with_donate (fun d =>
    {| amount := v; donorName := donorName d; donorPhone := donorPhone d;
       message := message d; submitted := submitted d; submitting := submitting d |})).

(** The body of the POST of [handleSubmit]. *)
Definition donation_payload (d : DonateState) : JsValue :=
  JsObj [ ("amount", JsNum (parseFloat (amount d)));
          ("donor_name", donorName d);
          ("donor_phone", donorPhone d);
          ("message", JsStr (message d)) ].

(** [handleSubmit], run to its end: the reply to the request is the
    server's, and no other event is handled while the request is in
    flight. *)
Definition handleSubmit : M unit :=
  modify (perform PreventDefault) ;;;
  w <- get ;;
  if negb (truthy (user (auth w))) then
    modify (perform (NavigateTo "/login"))
  else
    setSubmitting true ;;;
    reply <- api_post "/donations" (donation_payload (donate w)) ;;
    match reply with
    | Resolved _ => setSubmitted true
    | Rejected error =>
        modify (perform (ConsoleError "Error submitting donation:" error))
    end ;;;
    setSubmitting false.

(** *** handleSubmit around its await *)

(** While the request is pending only the button is disabled: the four
    inputs of the form stay enabled, and their [onChange] handlers run. *)
Definition setDonorName (v : JsValue) : M unit :=
  modify (with_donate (fun d =>
    {| amount := amount d; donorName := v; donorPhone := donorPhone d;
       message := message d; submitted := submitted d; submitting := submitting d |})).

Definition setDonorPhone (v : JsValue) : M unit :=
  modify (with_donate (fun d =>
    {| amount := amount d; donorName := donorName d; donorPhone := v;
       message := message d; submitted := submitted d; submitting := submitting d |})).

Definition setMessage (v : string) : M unit :=
  modify (with_donate (fun d =>
    {| amount := amount d; donorName := donorName d; donorPhone := donorPhone d;
       message := v; submitted := submitted d; submitting := submitting d |})).

Definition onChange (e : Edit) : M unit :=
  match e with
  | TypeAmount v => setAmount v
  | TypeDonorName v => setDonorName (JsStr v)
  | TypeDonorPhone v => setDonorPhone (JsStr v)
  | TypeMessage v => setMessage v
  end.

Fixpoint edits (es : list Edit) : M unit :=
  match es with
  | [] => ret tt
  | e :: rest => onChange e ;;; edits rest
  end.

(** [handleSubmit] up to its [await]: the request that is pending, when
    one has left. *)
Definition submit_begin : M (option Request) :=
  modify (perform PreventDefault) ;;;
  w <- get ;;
  if negb (truthy (user (auth w))) then
    modify (perform (NavigateTo "/login")) ;;;
    ret None
  else
    setSubmitting true ;;;
    let r := {| req_method := POST; req_url := "/donations";
                req_authorization := authorization (localStorage w);
                req_body := donation_payload (donate w) |} in
    modify (perform (Http r)) ;;;
    ret (Some r).

(** [handleSubmit] from its [await] on, given how the promise settled. *)
Definition submit_resume (reply : Reply) : M unit :=
  match reply with
  | Resolved _ => setSubmitted true
  | Rejected error =>
      modify (perform (ConsoleError "Error submitting donation:" error))
  end ;;;
  setSubmitting false.

(** [handleSubmit] with the edits the visitor makes while the request is
    pending; without edits it is [handleSubmit] run to its end. *)
Definition handleSubmit_pending (pending : list Edit) : M unit :=
  p <- submit_begin ;;
  match p with
  | None => ret tt
  | Some r => edits pending ;;; submit_resume (server r)
  end.
End Handlers.

(** The cells of the form after a list of edits. *)
Definition typed (e : Edit) (d : DonateState) : DonateState :=
  match e with
  | TypeAmount v =>
      {| amount := v; donorName := donorName d; donorPhone := donorPhone d;
         message := message d; submitted := submitted d; submitting := submitting d |}
  | TypeDonorName v =>
      {| amount := amount d; donorName := JsStr v; donorPhone := donorPhone d;
         message := message d; submitted := submitted d; submitting := submitting d |}
  | TypeDonorPhone v =>
      {| amount := amount d; donorName := donorName d; donorPhone := JsStr v;
         message := message d; submitted := submitted d; submitting := submitting d |}
  | TypeMessage v =>
      {| amount := amount d; donorName := donorName d; donorPhone := donorPhone d;
         message := v; submitted := submitted d; submitting := submitting d |}
  end.

(** The amount field after a list of edits of a form that held [a]. *)
Fixpoint amount_after (es : list Edit) (a : string) : string :=
  match es with
  | [] => a
  | TypeAmount v :: rest => amount_after rest v
  | _ :: rest => amount_after rest a
  end.

(** *** What DonatePage renders *)

Definition rupee : string := "₹".

(** The literals [0.02] and [0.60]. *)
Definition vip_rate : number := of_decimal false 2 (-2).
Definition equity_rate : number := of_decimal false 60 (-2).

(** [parseFloat(amount || 0)]: the empty string is falsy, and [0] reads
    back as zero. *)
Definition amount_or_zero (amount : string) : number :=
  if String.eqb amount "" then parseFloat "0" else parseFloat amount.

(** The "Your Impact" box: the three amounts shown. *)
Record Breakdown := {
  charity : string;
  vip_income : string;
  family_equity : string
}.

Definition donation_breakdown (amount : string) : Breakdown :=
  {| charity := rupee +:+ "5";
     vip_income := rupee +:+ toFixed (mul (amount_or_zero amount) vip_rate) 2;
     family_equity := rupee +:+ toFixed (mul (amount_or_zero amount) equity_rate) 2 |}.

Record Form := {
  amount_input : string;
  donor_name_input : JsValue;
  donor_phone_input : JsValue;
  message_input : string;
  breakdown : Breakdown;
  submit_disabled : bool;
  submit_label : string
}.

Inductive View :=
| SuccessCard (thanks : string) (impact : list string)
| DonateScreen (login_prompt : bool) (form : option Form).

Definition DonatePage (w : World) : View :=
  let d := donate w in
  if submitted d then
    SuccessCard
      ("Thank you for your generous donation of " +:+ rupee +:+ amount d)
      [ "💚 " +:+ rupee +:+ "5 will go directly to charity fund";
        "🎁 2% VIP gift income activated";
        "🔒 60% secured in family equity" ]
  else
    DonateScreen
      (negb (truthy (user (auth w))))
      (if truthy (user (auth w)) then
         Some {| amount_input := amount d;
                 donor_name_input := donorName d;
                 donor_phone_input := donorPhone d;
                 message_input := message d;
                 breakdown := donation_breakdown (amount d);
                 submit_disabled := submitting d;
                 submit_label := if submitting d then "Recording..." else "Record Donation" |}
       else None).

(** The state [DonatePage] mounts with. *)
Definition donate_initial (u : JsValue) : DonateState :=
  {| amount := "";
     donorName := or_else (opt_get "name" u) (JsStr "");
     donorPhone := or_else (opt_get "phone" u) (JsStr "");
     message := "";
     submitted := false;
     submitting := false |}.

(** *** Routing *)

Inductive Page := LandingPage | LoginPage | RegisterPage | DonatePageRoute | DashboardPage.

Inductive Element :=
| LoadingDiv
| Navigate (to : string)
| Show (p : Page).

Definition ProtectedRoute (a : AuthState) (children : Element) : Element :=
  if loading a then LoadingDiv
  else if negb (truthy (user a)) then Navigate "/login"
  else children.

(** The [Routes] table of [App], for a path spelled as in the table: the
    router also accepts the same paths in other letter case and with a
    slash at the end, which are not paths of this table. *)
Definition route (a : AuthState) (path : string) : option Element :=
  if String.eqb path "/" then Some (Show LandingPage)
  else if String.eqb path "/login" then Some (Show LoginPage)
  else if String.eqb path "/register" then Some (Show RegisterPage)
  else if String.eqb path "/donate" then Some (Show DonatePageRoute)
  else if String.eqb path "/dashboard" then Some (ProtectedRoute a (Show DashboardPage))
  else None.

(** *** Observations *)

(** The requests in a trace, oldest first. *)
Definition requests (t : list Effect) : list Request :=
  flat_map (fun e => match e with Http r => [r] | _ => [] end) t.

(** The "Your Impact" box of a view, when the view has the form. *)
Definition shown_breakdown (v : View) : option Breakdown :=
  match v with
  | DonateScreen _ (Some f) => Some (breakdown f)
  | _ => None
  end.

(** The number a text of the box shows: what follows the rupee sign. *)
Definition shown_number (text : string) : number :=
  parseFloat (String.substring (String.length rupee)
                               (String.length text - String.length rupee) text).

(** No session: no user in the provider and no entry in the storage. *)
Definition signed_out (w : World) : Prop :=
  user (auth w) = JsNull /\
  localStorage w !! "token" = None /\
  localStorage w !! "user" = None.

(** *** Sample states *)

Definition sample_user : JsValue :=
  JsObj [ ("id", JsStr "u1"); ("name", JsStr "Aliza"); ("phone", JsStr "+91 7000000000") ].

Definition fresh_tab : World :=
  {| localStorage := ∅;
     auth := {| user := JsNull; loading := false |};
     donate := donate_initial JsNull;
     trace := [] |}.

Definition donor_tab (entered : string) : World :=
  {| localStorage := {[ "token" := "abc"; "user" := "{}" ]};
     auth := {| user := sample_user; loading := false |};
     donate := {| amount := entered;
                  donorName := JsStr "Aliza";
                  donorPhone := JsStr "+91 7000000000";
                  message := "";
                  submitted := false;
                  submitting := false |};
     trace := [] |}.

Definition accepting_server (r : Request) : Reply := Resolved (JsObj []).
Definition failing_server (r : Request) : Reply := Rejected JsUndefined.
End WebApp.

(** ** The education screen: [frontend/app/(tabs)/education.tsx] *)

Module Education.
Import JsNumber Js.

(** [interface MindGame]. *)
Record MindGame := {
  game_id : string;
  name : string;
  description : string;
  category : string;
  difficulty : string;
  coins_reward : number;
  time_limit_seconds : number
}.

Inductive Effect :=
| Post (url : string) (body : JsValue)
| Alert (text : JsValue).

Inductive Reply :=
| Resolved (data : JsValue)
| Rejected (error : JsValue).

Record GameResult := { won : JsValue; coins : JsValue }.

(** The cells of [EducationScreen] that [handlePlayGame] writes, the
    number of calls of [Math.random] so far and the effects performed,
    oldest first. *)
Record Screen := {
  playing : bool;
  gameResult : option GameResult;
  drawn : nat;
  trace : list Effect
}.

Definition M (A : Type) : Type := Screen -> A * Screen.
Definition ret {A} (a : A) : M A := fun s => (a, s).
Definition bind {A B} (c : M A) (k : A -> M B) : M B :=
  fun s => let '(a, s') := c s in k a s'.

Declare Scope screen_scope.
Delimit Scope screen_scope with screen.
Notation "x <- c ;; k" := (bind c (fun x => k))
  (at level 100, c at next level, right associativity) : screen_scope.
Notation "c ;;; k" := (bind c (fun _ => k))
  (at level 100, right associativity) : screen_scope.
Local Open Scope screen_scope.

Definition run {A} (c : M A) (s : Screen) : Screen := snd (c s).

Definition setPlaying (b : bool) : M unit := fun s =>
  (tt, {| playing := b; gameResult := gameResult s; drawn := drawn s; trace := trace s |}).

Definition setGameResult (r : option GameResult) : M unit := fun s =>
  (tt, {| playing := playing s; gameResult := r; drawn := drawn s; trace := trace s |}).

Definition perform (e : Effect) : M unit := fun s =>
  (tt, {| playing := playing s; gameResult := gameResult s; drawn := drawn s;
          trace := trace s ++ [e] |}).

(** The literal [100]. *)
Definition hundred : number := of_decimal false 100 0.

Section Handlers.
(** The values [Math.random()] returns, call after call, and how the
    promise of a request settles. *)
Variable random : nat -> number.
Variable server : string -> JsValue -> Reply.

Definition Math_random : M number := fun s =>
  (random (drawn s),
   {| playing := playing s; gameResult := gameResult s; drawn := S (drawn s);
      trace := trace s |}).

Definition api_post (url : string) (body : JsValue) : M Reply :=
  perform (Post url body) ;;; ret (server url body).

(** The body of the request of [handlePlayGame], from the two draws. *)
Definition play_payload (game : MindGame) (r1 r2 : number) : JsValue :=
  JsObj [ ("game_id", JsStr (game_id game));
          ("score", JsNum (floor (mul r1 hundred)));
          ("time_taken", JsNum (floor (mul r2 (time_limit_seconds game)))) ].

(** [handlePlayGame], run to its end.  Reading [response.data.won] of a
    body that is [null] or [undefined] throws inside the [try], and the
    [catch] then finds no [response] on the error.  When the request is
    rejected with [null] or [undefined], the [catch] itself throws on
    [error.response]: no alert is shown, the [finally] still runs, and the
    promise of the handler rejects, which the cells do not record. *)
Definition handlePlayGame (game : MindGame) : M unit :=
  setPlaying true ;;;
  r1 <- Math_random ;;
  r2 <- Math_random ;;
  reply <- api_post "/education/play-mind-game" (play_payload game r1 r2) ;;
  match reply with
  | Resolved JsUndefined | Resolved JsNull =>
      perform (Alert (JsStr "Failed to play game"))
  | Resolved data =>
      setGameResult (Some {| won := opt_get "won" data;
                             coins := opt_get "coins_earned" data |})
  | Rejected JsUndefined | Rejected JsNull => ret tt
  | Rejected error =>
      perform (Alert (or_else
        (opt_get "detail" (opt_get "data" (opt_get "response" error)))
        (JsStr "Failed to play game")))
  end ;;;
  setPlaying false.
End Handlers.

(** The bodies of the requests in a trace. *)
Definition posted (t : list Effect) : list JsValue :=
  flat_map (fun e => match e with Post _ body => [body] | Alert _ => [] end) t.

(** *** Sample states *)

Definition sample_game (limit : number) : MindGame :=
  {| game_id := "memory-1"; name := "Memory"; description := ""; category := "Mind Games";
     difficulty := "easy"; coins_reward := of_decimal false 10 0;
     time_limit_seconds := limit |}.

Definition idle_screen : Screen :=
  {| playing := false; gameResult := None; drawn := 0; trace := [] |}.

(** Every draw is 0.75. *)
Definition steady_random (i : nat) : number := of_decimal false 75 (-2).

Definition silent_server (url : string) (body : JsValue) : Reply := Rejected JsUndefined.
End Education.

(** ** The wallet backend

  [backend/server.py] is not part of the sources at hand: only the test
  log [test_result.md] and the spec describe it. *)

Module Backend.
Local Open Scope Z_scope.

Record Wallet := {
  coins_balance : Z;
  bonus_balance : Z;
  stars_balance : Z
}.

Inductive TxType := TxDeposit | TxWithdrawal | TxSubscription.

Record Transaction := {
  tx_type : TxType;
  tx_amount : Z
}.

Record VipStatus := {
  vip_level : nat;
  is_active : bool;
  total_recharged : Z
}.

Inductive Notification := DepositReceived (amount : Z).

Record Account := {
  wallet : Wallet;
  transactions : list Transaction;
  vip : VipStatus;
  notifications : list Notification
}.

(** Modelled from the spec: the handler of [POST /api/wallet/deposit] in
    [backend/server.py] is missing.  The wallet is "a per-user record of
    virtual currency balances (coins, bonus, stars) ... mutated by
    deposit/withdrawal/subscription endpoints"; the test log has a deposit
    of 500 that "updates wallet balance from 1500 to 2000, creates
    transaction record, updates VIP recharge total, and sends
    notification". *)
Definition deposit (d : Z) (a : Account) : Account :=
  {| wallet := {| coins_balance := coins_balance (wallet a) + d;
                  bonus_balance := bonus_balance (wallet a);
                  stars_balance := stars_balance (wallet a) |};
     transactions := transactions a ++ [ {| tx_type := TxDeposit; tx_amount := d |} ];
     vip := {| vip_level := vip_level (vip a);
               is_active := is_active (vip a);
               total_recharged := total_recharged (vip a) + d |};
     notifications := notifications a ++ [ DepositReceived d ] |}.

(** A VIP level as configured: its name and the recharge total it asks
    for.  The levels are numbered from 0 in the order of the table (Basic,
    Bronze, Silver, Gold, Platinum, Diamond in the test log). *)
Record VipLevel := {
  level_name : string;
  recharge_requirement : Z
}.

(** Modelled from the spec: the eligibility calculation of
    [GET /api/vip/status] in [backend/server.py] is missing.  A tier is
    "unlocked once a user's cumulative recharge total crosses a configured
    threshold"; the calculation is to "map a recharge total to a discrete
    tier via threshold comparison". *)
Definition unlocked (total : Z) (l : VipLevel) : bool :=
  recharge_requirement l <=? total.

(** Modelled from the spec: the eligible level is the highest level of the
    table that is unlocked, level 0 when none is; [i] is the number of the
    head of [levels]. *)
Fixpoint eligible_from (levels : list VipLevel) (i : nat) (total : Z) (best : nat) : nat :=
  match levels with
  | [] => best
  | l :: rest =>
      eligible_from rest (S i) total (if unlocked total l then i else best)
  end.

Definition eligible_level (levels : list VipLevel) (total : Z) : nat :=
  eligible_from levels 0 total 0.
End Backend.

(* --------------------------------------------------------------------- *)
(** ** Handlers with [try], [catch] and [finally]                         *)
(* --------------------------------------------------------------------- *)

(** The other handlers of the three clients read fields of a reply, which
    throws on [null] and [undefined], and catch what is thrown.  Their
    monad threads a state and an outcome. *)
Module Flow.
Import Js.

(** What a [catch] receives: the reason of a rejected promise, or the
    TypeError of a property read on [null] or [undefined]. *)
Inductive Thrown :=
| Reason (v : JsValue)
| TypeError.

Inductive Outcome (A : Type) : Type :=
| Done (a : A)
| Threw (e : Thrown).
Arguments Done {A} a.
Arguments Threw {A} e.

Definition F (S A : Type) : Type := S -> Outcome A * S.

Definition ret {S A} (a : A) : F S A := fun s => (Done a, s).

Definition throw {S A} (e : Thrown) : F S A := fun s => (Threw e, s).

Definition bind {S A B} (c : F S A) (k : A -> F S B) : F S B :=
  fun s => match c s with
           | (Done a, s') => k a s'
           | (Threw e, s') => (Threw e, s')
           end.

Declare Scope flow_scope.
Delimit Scope flow_scope with flow.
Notation "x <- c ;; k" := (bind c (fun x => k))
  (at level 100, c at next level, right associativity) : flow_scope.
Notation "c ;;; k" := (bind c (fun _ => k))
  (at level 100, right associativity) : flow_scope.
Local Open Scope flow_scope.

(** [try { body } catch (e) { handler e }]. *)
Definition try_catch {S A} (body : F S A) (handler : Thrown -> F S A) : F S A :=
  fun s => match body s with
           | (Done a, s') => (Done a, s')
           | (Threw e, s') => handler e s'
           end.

(** [try { body } finally { cleanup }], where [body] may itself be a
    [try] with its [catch]: the cleanup runs in every case, and what it
    throws replaces the outcome of the body. *)
Definition finally {S A} (body : F S A) (cleanup : F S unit) : F S A :=
  fun s => let '(o, s') := body s in
           match cleanup s' with
           | (Done _, s'') => (o, s'')
           | (Threw e, s'') => (Threw e, s'')
           end.

Definition get {S} : F S S := fun s => (Done s, s).
Definition modify {S} (f : S -> S) : F S unit := fun s => (Done tt, f s).

Definition run {S A} (c : F S A) (s : S) : S := snd (c s).
Definition outcome {S A} (c : F S A) (s : S) : Outcome A := fst (c s).

Definition nullish (v : JsValue) : bool :=
  match v with
  | JsUndefined | JsNull => true
  | _ => false
  end.

(** [v.k]: a TypeError on [null] and [undefined]. *)
Definition read {S} (k : string) (v : JsValue) : F S JsValue :=
  if nullish v then throw TypeError else ret (opt_get k v).

(** [err.response?.data?.detail || fallback] in a [catch]: the first read
    is a plain one, the TypeError of the engine has no [response]. *)
Definition detail_or {S} (fallback : string) (err : Thrown) : F S JsValue :=
  match err with
  | TypeError => ret (JsStr fallback)
  | Reason v =>
      response <- read "response" v ;;
      ret (or_else (opt_get "detail" (opt_get "data" response)) (JsStr fallback))
  end.

(** The outcome of [Promise.all]: the values when every promise is
    fulfilled. *)
Fixpoint rejections (A : Type) (settled : list (A + JsValue)) : list JsValue :=
  match settled with
  | [] => []
  | inl _ :: rest => rejections A rest
  | inr e :: rest => e :: rejections A rest
  end.
Arguments rejections {A} settled.
End Flow.

(* --------------------------------------------------------------------- *)
(** ** The web client: the pages around DonatePage                        *)
(* --------------------------------------------------------------------- *)

Module Site.
Import JsNumber Js WebApp Flow.
Local Open Scope flow_scope.

(** The [useState] cells of [LoginPage] and [RegisterPage]. *)
Record LoginForm := {
  login_email : string;
  login_password : string;
  login_error : JsValue;
  login_loading : bool
}.

Record RegisterForm := {
  register_name : string;
  register_email : string;
  register_phone : string;
  register_password : string;
  register_error : JsValue;
  register_loading : bool
}.

(** The cells of [LandingPage] and of [DashboardPage]. *)
Record Landing := {
  stats : JsValue;
  platformFees : JsValue
}.

Record Dashboard := {
  dashboard_stats : JsValue;
  donations : JsValue;
  familyEquity : JsValue
}.

(** The tab of [WebApp] with the cells of the other pages and what
    [console.error] was given in a [catch], oldest first. *)
Record Browser := {
  tab : World;
  login_form : LoginForm;
  register_form : RegisterForm;
  landing : Landing;
  dashboard : Dashboard;
  console : list (string * Thrown)
}.

Definition with_tab (f : World -> World) (b : Browser) : Browser :=
  {| tab := f (tab b); login_form := login_form b; register_form := register_form b;
     landing := landing b; dashboard := dashboard b; console := console b |}.

Definition with_login_form (f : LoginForm -> LoginForm) (b : Browser) : Browser :=
  {| tab := tab b; login_form := f (login_form b); register_form := register_form b;
     landing := landing b; dashboard := dashboard b; console := console b |}.

Definition with_register_form (f : RegisterForm -> RegisterForm) (b : Browser) : Browser :=
  {| tab := tab b; login_form := login_form b; register_form := f (register_form b);
     landing := landing b; dashboard := dashboard b; console := console b |}.

Definition with_landing (f : Landing -> Landing) (b : Browser) : Browser :=
  {| tab := tab b; login_form := login_form b; register_form := register_form b;
     landing := f (landing b); dashboard := dashboard b; console := console b |}.

Definition with_dashboard (f : Dashboard -> Dashboard) (b : Browser) : Browser :=
  {| tab := tab b; login_form := login_form b; register_form := register_form b;
     landing := landing b; dashboard := f (dashboard b); console := console b |}.

Definition console_error (label : string) (e : Thrown) : F Browser unit :=
  modify (fun b =>
    {| tab := tab b; login_form := login_form b; register_form := register_form b;
       landing := landing b; dashboard := dashboard b;
       console := console b ++ [(label, e)] |}).

(** A handler of [WebApp] run inside a handler of this module. *)
Definition lift {A} (c : M A) : F Browser A :=
  fun b => let '(a, w) := c (tab b) in (Done a, with_tab (fun _ => w) b).

Definition navigate (path : string) : F Browser unit :=
  lift (WebApp.modify (perform (NavigateTo path))).

Section Handlers.
(** How the promise of a request settles: the reply may depend on when the
    request is made, the number of effects of the tab so far.  A fulfilled
    promise carries the response object of axios, whose body is its field
    [data]; a read of [data] on that object does not throw. *)
Variable server : nat -> Request -> Reply.
Variable ToString : JsValue -> string.
Variable JSON_stringify : JsValue -> JsValue.
(** Of the requests of one [Promise.all] that fail, the reason of the one
    that fails first. *)
Variable earliest : list JsValue -> JsValue.

(** [api.get(url)] and [api.post(url, body)] up to the promise: the
    request leaves with the header of the interceptor. *)
Definition send (m : Method) (url : string) (body : JsValue) : F Browser Reply :=
  b <- get ;;
  let r := {| req_method := m; req_url := url;
              req_authorization := authorization (localStorage (tab b));
              req_body := body |} in
  lift (WebApp.modify (perform (Http r))) ;;;
  ret (server (length (trace (tab b))) r).

Definition await (p : Reply) : F Browser JsValue :=
  match p with
  | Resolved response => ret response
  | Rejected error => throw (Reason error)
  end.

Definition settled (p : Reply) : JsValue + JsValue :=
  match p with
  | Resolved response => inl response
  | Rejected error => inr error
  end.

(** [await Promise.all([p1, p2])] and [await Promise.all([p1, p2, p3])]. *)
Definition await_all2 (p1 p2 : Reply) : F Browser (JsValue * JsValue) :=
  match p1, p2 with
  | Resolved r1, Resolved r2 => ret (r1, r2)
  | _, _ => throw (Reason (earliest (rejections [settled p1; settled p2])))
  end.

Definition await_all3 (p1 p2 p3 : Reply) : F Browser (JsValue * JsValue * JsValue) :=
  match p1, p2, p3 with
  | Resolved r1, Resolved r2, Resolved r3 => ret (r1, r2, r3)
  | _, _, _ => throw (Reason (earliest (rejections [settled p1; settled p2; settled p3])))
  end.

(** *** LoginPage *)

Definition setLoginError (v : JsValue) : F Browser unit :=
  modify (with_login_form (fun f =>
    {| login_email := login_email f; login_password := login_password f;
       login_error := v; login_loading := login_loading f |})).

Definition setLoginLoading (v : bool) : F Browser unit :=
  modify (with_login_form (fun f =>
    {| login_email := login_email f; login_password := login_password f;
       login_error := login_error f; login_loading := v |})).

Definition login_payload (f : LoginForm) : JsValue :=
  JsObj [ ("email", JsStr (login_email f)); ("password", JsStr (login_password f)) ].

(** [handleSubmit] of [LoginPage], run to its end. *)
Definition login_handleSubmit : F Browser unit :=
  lift (WebApp.modify (perform PreventDefault)) ;;;
  b <- get ;;
  setLoginError (JsStr "") ;;;
  setLoginLoading true ;;;
  finally
    (try_catch
       (p <- send POST "/auth/login" (login_payload (login_form b)) ;;
        response <- await p ;;
        let data := opt_get "data" response in
        access_token <- read "access_token" data ;;
        user_data <- read "user" data ;;
        lift (login ToString JSON_stringify access_token user_data) ;;;
        navigate "/dashboard")
       (fun err =>
          detail <- detail_or "Login failed" err ;;
          setLoginError detail))
    (setLoginLoading false).

(** *** RegisterPage *)

Definition setRegisterError (v : JsValue) : F Browser unit :=
  modify (with_register_form (fun f =>
    {| register_name := register_name f; register_email := register_email f;
       register_phone := register_phone f; register_password := register_password f;
       register_error := v; register_loading := register_loading f |})).

Definition setRegisterLoading (v : bool) : F Browser unit :=
  modify (with_register_form (fun f =>
    {| register_name := register_name f; register_email := register_email f;
       register_phone := register_phone f; register_password := register_password f;
       register_error := register_error f; register_loading := v |})).

Definition register_payload (f : RegisterForm) : JsValue :=
  JsObj [ ("name", JsStr (register_name f)); ("email", JsStr (register_email f));
          ("phone", JsStr (register_phone f)); ("password", JsStr (register_password f)) ].

(** [handleSubmit] of [RegisterPage], run to its end. *)
Definition register_handleSubmit : F Browser unit :=
  lift (WebApp.modify (perform PreventDefault)) ;;;
  b <- get ;;
  setRegisterError (JsStr "") ;;;
  setRegisterLoading true ;;;
  finally
    (try_catch
       (p <- send POST "/auth/register" (register_payload (register_form b)) ;;
        response <- await p ;;
        let data := opt_get "data" response in
        access_token <- read "access_token" data ;;
        user_data <- read "user" data ;;
        lift (login ToString JSON_stringify access_token user_data) ;;;
        navigate "/dashboard")
       (fun err =>
          detail <- detail_or "Registration failed" err ;;
          setRegisterError detail))
    (setRegisterLoading false).

(** *** LandingPage *)

Definition setStats (v : JsValue) : F Browser unit :=
  modify (with_landing (fun l => {| stats := v; platformFees := platformFees l |})).

Definition setPlatformFees (v : JsValue) : F Browser unit :=
  modify (with_landing (fun l => {| stats := stats l; platformFees := v |})).

(** [fetchStats] of the mount effect: the two requests leave before the
    first reply is looked at. *)
Definition fetchStats : F Browser unit :=
  try_catch
    (p1 <- send GET "/stats/public" JsUndefined ;;
     p2 <- send GET "/platform-fees" JsUndefined ;;
     both <- await_all2 p1 p2 ;;
     let '(statsRes, feesRes) := both in
     setStats (opt_get "data" statsRes) ;;;
     setPlatformFees (opt_get "data" feesRes))
    (fun error => console_error "Error fetching stats:" error).

(** *** DashboardPage *)

Definition setDashboardStats (v : JsValue) : F Browser unit :=
  modify (with_dashboard (fun d =>
    {| dashboard_stats := v; donations := donations d; familyEquity := familyEquity d |})).

Definition setDonations (v : JsValue) : F Browser unit :=
  modify (with_dashboard (fun d =>
    {| dashboard_stats := dashboard_stats d; donations := v; familyEquity := familyEquity d |})).

Definition setFamilyEquity (v : JsValue) : F Browser unit :=
  modify (with_dashboard (fun d =>
    {| dashboard_stats := dashboard_stats d; donations := donations d; familyEquity := v |})).

(** [fetchData] of the mount effect. *)
Definition dashboard_fetchData : F Browser unit :=
  try_catch
    (p1 <- send GET "/stats" JsUndefined ;;
     p2 <- send GET "/donations" JsUndefined ;;
     p3 <- send GET "/family-equity" JsUndefined ;;
     all <- await_all3 p1 p2 p3 ;;
     let '(statsRes, donationsRes, equityRes) := all in
     setDashboardStats (opt_get "data" statsRes) ;;;
     setDonations (opt_get "data" donationsRes) ;;;
     setFamilyEquity (opt_get "data" equityRes))
    (fun error => console_error "Error fetching data:" error).
End Handlers.

(** *** Observations *)

(** The requests of the two forms, as they leave a browser. *)
Definition login_request (b : Browser) : Request :=
  {| req_method := POST; req_url := "/auth/login";
     req_authorization := authorization (localStorage (tab b));
     req_body := login_payload (login_form b) |}.

Definition register_request (b : Browser) : Request :=
  {| req_method := POST; req_url := "/auth/register";
     req_authorization := authorization (localStorage (tab b));
     req_body := register_payload (register_form b) |}.

Definition get_request (b : Browser) (url : string) : Request :=
  {| req_method := GET; req_url := url;
     req_authorization := authorization (localStorage (tab b));
     req_body := JsUndefined |}.

(** A reply that is fulfilled and has a body. *)
Definition has_body (p : Reply) : bool :=
  match p with
  | Resolved response => negb (nullish (opt_get "data" response))
  | Rejected _ => false
  end.

(** The body of a reply. *)
Definition body_of (p : Reply) : JsValue :=
  match p with
  | Resolved response => opt_get "data" response
  | Rejected _ => JsUndefined
  end.

(** The navigations in a trace, oldest first. *)
Definition navigations (t : list Effect) : list string :=
  flat_map (fun e => match e with NavigateTo path => [path] | _ => [] end) t.

(** A tab as a reload finds it: the storage stays, the provider starts
    over. *)
Definition reload (w : World) : World :=
  {| localStorage := localStorage w;
     auth := {| user := JsNull; loading := true |};
     donate := donate_initial JsNull;
     trace := [] |}.

(** *** Navbar *)

Inductive NavItem :=
| Brand
| DashboardButton
| DonateButton
| UserName (name : JsValue)
| LogoutButton
| LoginButton
| RegisterButton.

(** The items of the bar, left to right. *)
Definition Navbar (a : AuthState) : list NavItem :=
  if truthy (user a) then
    [Brand; DashboardButton; DonateButton; UserName (opt_get "name" (user a)); LogoutButton]
  else
    [Brand; LoginButton; RegisterButton].

(** What [onClick] of an item does; the name is no button. *)
Definition click (i : NavItem) : M unit :=
  match i with
  | Brand => WebApp.modify (perform (NavigateTo "/"))
  | DashboardButton => WebApp.modify (perform (NavigateTo "/dashboard"))
  | DonateButton => WebApp.modify (perform (NavigateTo "/donate"))
  | UserName _ => WebApp.ret tt
  | LogoutButton => logout
  | LoginButton => WebApp.modify (perform (NavigateTo "/login"))
  | RegisterButton => WebApp.modify (perform (NavigateTo "/register"))
  end.

(** *** The client as a whole *)

(** What the visitor and the router can make the client do: a page
    mounts, with its cells at their first values and its effect run; a
    field is typed into; a form is submitted, the donation form with the
    edits made while its request is pending; an item of the bar or a
    button that navigates is clicked. *)
Inductive Action :=
| MountProvider
| MountLanding
| MountLogin
| MountRegister
| MountDashboard
| MountDonate
| Click (i : NavItem)
| Go (path : string)
| TypeLoginEmail (v : string)
| TypeLoginPassword (v : string)
| TypeRegisterName (v : string)
| TypeRegisterEmail (v : string)
| TypeRegisterPhone (v : string)
| TypeRegisterPassword (v : string)
| TypeDonation (e : Edit)
| SubmitLogin
| SubmitRegister
| SubmitDonation (pending : list Edit).



Section Client.
Variable server : nat -> Request -> Reply.
Variable ToString : JsValue -> string.
Variable JSON_stringify : JsValue -> JsValue.
Variable JSON_parse : string -> option JsValue.
Variable earliest : list JsValue -> JsValue.


End Client.



(** *** Sample states *)

Definition fresh_browser : Browser :=
  {| tab := fresh_tab;
     login_form := {| login_email := "aliza@example.org"; login_password := "secret";
                      login_error := JsStr ""; login_loading := false |};
     register_form := {| register_name := "Aliza"; register_email := "aliza@example.org";
                         register_phone := "+91 7000000000"; register_password := "secret";
                         register_error := JsStr ""; register_loading := false |};
     landing := {| stats := JsNull; platformFees := JsNull |};
     dashboard := {| dashboard_stats := JsNull; donations := JsArr []; familyEquity := JsNull |};
     console := [] |}.

(** A backend that signs every visitor in as the sample user. *)
Definition welcoming_server (n : nat) (r : Request) : Reply :=
  Resolved (JsObj [ ("data", JsObj [ ("access_token", JsStr "abc"); ("user", sample_user) ]) ]).

(** A backend that refuses every request with a reason. *)
Definition refusing_server (n : nat) (r : Request) : Reply :=
  Rejected (JsObj [ ("response", JsObj [ ("data", JsObj [ ("detail", JsStr "Invalid credentials") ]) ]) ]).



Definition text_of (v : JsValue) : string :=
  match v with
  | JsStr s => s
  | _ => "[object]"
  end.
End Site.

(* --------------------------------------------------------------------- *)
(** ** The education screen: data, enrollment, game modal                 *)
(* --------------------------------------------------------------------- *)

Module Learning.
Import JsNumber Js Flow.
Local Open Scope flow_scope.

(** [interface Course]. *)
Record Rewards := {
  completion_coins : number;
  per_lesson_coins : number
}.

Record Course := {
  course_id : string;
  title : string;
  description : string;
  category : string;
  difficulty : string;
  duration_hours : number;
  lessons_count : number;
  price : number;
  rating : number;
  enrollments : number;
  instructor : string;
  rewards : Rewards
}.

Inductive Event :=
| Get (url : string)
| Post (url : string) (body : JsValue)
| Alert (text : JsValue)
| ConsoleError (label : string) (error : Thrown).

(** A settled promise of [api.get] or [api.post]; a fulfilled one carries
    [response.data]. *)
Inductive Reply :=
| Resolved (data : JsValue)
| Rejected (error : JsValue).

(** The cells of [EducationScreen] that [fetchData], [onRefresh] and
    [handleEnroll] write, and the effects performed, oldest first. *)
Record Screen := {
  courses : JsValue;
  mindGames : JsValue;
  profile : JsValue;
  learningLevels : JsValue;
  loading : bool;
  refreshing : bool;
  selectedCourse : option Course;
  enrolling : bool;
  events : list Event
}.

Definition perform (e : Event) : F Screen unit := modify (fun s =>
  {| courses := courses s; mindGames := mindGames s; profile := profile s;
     learningLevels := learningLevels s; loading := loading s; refreshing := refreshing s;
     selectedCourse := selectedCourse s; enrolling := enrolling s;
     events := events s ++ [e] |}).

Definition setCourses (v : JsValue) : F Screen unit := modify (fun s =>
  {| courses := v; mindGames := mindGames s; profile := profile s;
     learningLevels := learningLevels s; loading := loading s; refreshing := refreshing s;
     selectedCourse := selectedCourse s; enrolling := enrolling s; events := events s |}).

Definition setMindGames (v : JsValue) : F Screen unit := modify (fun s =>
  {| courses := courses s; mindGames := v; profile := profile s;
     learningLevels := learningLevels s; loading := loading s; refreshing := refreshing s;
     selectedCourse := selectedCourse s; enrolling := enrolling s; events := events s |}).

Definition setProfile (v : JsValue) : F Screen unit := modify (fun s =>
  {| courses := courses s; mindGames := mindGames s; profile := v;
     learningLevels := learningLevels s; loading := loading s; refreshing := refreshing s;
     selectedCourse := selectedCourse s; enrolling := enrolling s; events := events s |}).

Definition setLearningLevels (v : JsValue) : F Screen unit := modify (fun s =>
  {| courses := courses s; mindGames := mindGames s; profile := profile s;
     learningLevels := v; loading := loading s; refreshing := refreshing s;
     selectedCourse := selectedCourse s; enrolling := enrolling s; events := events s |}).

Definition setLoading (v : bool) : F Screen unit := modify (fun s =>
  {| courses := courses s; mindGames := mindGames s; profile := profile s;
     learningLevels := learningLevels s; loading := v; refreshing := refreshing s;
     selectedCourse := selectedCourse s; enrolling := enrolling s; events := events s |}).

Definition setRefreshing (v : bool) : F Screen unit := modify (fun s =>
  {| courses := courses s; mindGames := mindGames s; profile := profile s;
     learningLevels := learningLevels s; loading := loading s; refreshing := v;
     selectedCourse := selectedCourse s; enrolling := enrolling s; events := events s |}).

Definition setSelectedCourse (v : option Course) : F Screen unit := modify (fun s =>
  {| courses := courses s; mindGames := mindGames s; profile := profile s;
     learningLevels := learningLevels s; loading := loading s; refreshing := refreshing s;
     selectedCourse := v; enrolling := enrolling s; events := events s |}).

Definition setEnrolling (v : bool) : F Screen unit := modify (fun s =>
  {| courses := courses s; mindGames := mindGames s; profile := profile s;
     learningLevels := learningLevels s; loading := loading s; refreshing := refreshing s;
     selectedCourse := selectedCourse s; enrolling := v; events := events s |}).

Section Handlers.
(** How the promise of a request settles; the reply may depend on when the
    request is made, the number of effects so far. *)
Variable get_reply : nat -> string -> Reply.
Variable post_reply : nat -> string -> JsValue -> Reply.
(** Of the requests of one [Promise.all] that fail, the reason of the one
    that fails first. *)
Variable earliest : list JsValue -> JsValue.

(** [api.get(url)] and [api.post(url, body)] up to the promise. *)
Definition api_get (url : string) : F Screen Reply :=
  s <- get ;;
  perform (Get url) ;;;
  ret (get_reply (length (events s)) url).

Definition api_post (url : string) (body : JsValue) : F Screen Reply :=
  s <- get ;;
  perform (Post url body) ;;;
  ret (post_reply (length (events s)) url body).

Definition await (p : Reply) : F Screen JsValue :=
  match p with
  | Resolved data => ret data
  | Rejected error => throw (Reason error)
  end.

Definition settled (p : Reply) : JsValue + JsValue :=
  match p with
  | Resolved data => inl data
  | Rejected error => inr error
  end.

(** [p.catch(() => ({ data: null }))]. *)
Definition or_null (p : Reply) : Reply :=
  match p with
  | Resolved data => Resolved data
  | Rejected _ => Resolved JsNull
  end.

(** [await Promise.all([p1, p2, p3, p4])]. *)
Definition await_all4 (p1 p2 p3 p4 : Reply) : F Screen (JsValue * JsValue * JsValue * JsValue) :=
  match p1, p2, p3, p4 with
  | Resolved d1, Resolved d2, Resolved d3, Resolved d4 => ret (d1, d2, d3, d4)
  | _, _, _, _ =>
      throw (Reason (earliest (rejections [settled p1; settled p2; settled p3; settled p4])))
  end.

(** [fetchData], run to its end: the four requests leave before the first
    reply is looked at. *)
Definition fetchData : F Screen unit :=
  finally
    (try_catch
       (p1 <- api_get "/education/config" ;;
        p2 <- api_get "/education/courses" ;;
        p3 <- api_get "/education/mind-games" ;;
        p4 <- api_get "/education/profile" ;;
        all <- await_all4 p1 p2 p3 (or_null p4) ;;
        let '(configData, coursesData, gamesData, profileData) := all in
        learning_levels <- read "learning_levels" configData ;;
        setLearningLevels learning_levels ;;;
        course_list <- read "courses" coursesData ;;
        setCourses course_list ;;;
        games <- read "games" gamesData ;;
        setMindGames games ;;;
        if truthy profileData then setProfile profileData else ret tt)
       (fun error => perform (ConsoleError "Error fetching education data:" error)))
    (setLoading false).

Definition onRefresh : F Screen unit :=
  setRefreshing true ;;;
  fetchData ;;;
  setRefreshing false.

Definition enroll_payload (course : Course) : JsValue :=
  JsObj [ ("course_id", JsStr (course_id course)) ].

(** [handleEnroll], run to its end. *)
Definition handleEnroll (course : Course) : F Screen unit :=
  setEnrolling true ;;;
  finally
    (try_catch
       (p <- api_post "/education/enroll" (enroll_payload course) ;;
        _ <- await p ;;
        fetchData ;;;
        setSelectedCourse None ;;;
        perform (Alert (JsStr ("🎉 Successfully enrolled in " +:+ title course +:+ "!"))))
       (fun error =>
          detail <- detail_or "Failed to enroll" error ;;
          perform (Alert detail)))
    (setEnrolling false).
End Handlers.

(** [array[k]] for a string key: the element at the index that [k]
    writes in decimal. *)
Fixpoint element_at (i : nat) (k : string) (items : list JsValue) : JsValue :=
  match items with
  | [] => JsUndefined
  | x :: rest =>
      if String.eqb k (digits_of (Z.of_nat i)) then x else element_at (S i) k rest
  end.

(** [getLevelBadge]: [learningLevels[level]?.badge_color || '#4CAF50'].
    What the key finds on a string, a number or a boolean, and what it
    finds on a prototype, has no [badge_color]. *)
Definition getLevelBadge (learningLevels : JsValue) (level : string) : Outcome JsValue :=
  match learningLevels with
  | JsUndefined | JsNull => Threw TypeError
  | JsObj fields =>
      Done (or_else (opt_get "badge_color" (lookup_field level fields)) (JsStr "#4CAF50"))
  | JsArr items =>
      Done (or_else (opt_get "badge_color" (element_at 0 level items)) (JsStr "#4CAF50"))
  | _ => Done (JsStr "#4CAF50")
  end.

(** The five stars of a course card: [star <= Math.floor(course.rating)]
    for the stars 1 to 5. *)
Definition star_icon (rating : number) (star : Z) : string :=
  if le (of_Z star) (floor rating) then "star" else "star-outline".

Definition stars (rating : number) : list string :=
  map (star_icon rating) [1; 2; 3; 4; 5]%Z.

(** *** Observations *)

Definition gets (t : list Event) : list string :=
  flat_map (fun e => match e with Get url => [url] | _ => [] end) t.

Definition posts (t : list Event) : list (string * JsValue) :=
  flat_map (fun e => match e with Post url body => [(url, body)] | _ => [] end) t.

Definition alerts (t : list Event) : list JsValue :=
  flat_map (fun e => match e with Alert text => [text] | _ => [] end) t.

Definition fetch_urls : list string :=
  [ "/education/config"; "/education/courses"; "/education/mind-games"; "/education/profile" ].

Definition rejected (p : Reply) : bool :=
  match p with
  | Resolved _ => false
  | Rejected _ => true
  end.

(** *** Sample states *)

Definition sample_course : Course :=
  {| course_id := "c1"; title := "Algebra"; description := ""; category := "Mathematics";
     difficulty := "beginner"; duration_hours := of_decimal false 10 0;
     lessons_count := of_decimal false 12 0; price := zero;
     rating := of_decimal false 45 (-1); enrollments := of_decimal false 3 0;
     instructor := "Aliza";
     rewards := {| completion_coins := of_decimal false 100 0;
                   per_lesson_coins := of_decimal false 5 0 |} |}.

Definition mounting_screen : Screen :=
  {| courses := JsArr []; mindGames := JsArr []; profile := JsNull;
     learningLevels := JsObj []; loading := true; refreshing := false;
     selectedCourse := Some sample_course; enrolling := false; events := [] |}.

(** A backend without a profile for the user: the other three requests
    are answered. *)
Definition no_profile_get (n : nat) (url : string) : Reply :=
  if String.eqb url "/education/profile" then Rejected (JsObj [])
  else Resolved (JsObj [ ("learning_levels", JsObj []); ("courses", JsArr []);
                         ("games", JsArr []) ]).

Definition failing_get (n : nat) (url : string) : Reply := Rejected (JsObj []).

Definition refusing_post (n : nat) (url : string) (body : JsValue) : Reply :=
  Rejected (JsObj [ ("response", JsObj [ ("data", JsObj [ ("detail", JsStr "Not enough coins") ]) ]) ]).

Definition accepting_post (n : nat) (url : string) (body : JsValue) : Reply :=
  Resolved (JsObj []).

Definition first_of (l : list JsValue) : JsValue := hd JsUndefined l.
End Learning.

(** The "Play Again" button of the game modal, over the cells of
    [Education]. *)
Module GameModal.
Import Js Education.
Local Open Scope screen_scope.

Section Handlers.
Variable random : nat -> JsNumber.number.
Variable server : string -> JsValue -> Reply.

(** [setGameResult(null); if (selectedGame) handlePlayGame(selectedGame)]. *)
Definition play_again (selectedGame : option MindGame) : M unit :=
  setGameResult None ;;;
  match selectedGame with
  | Some game => handlePlayGame random server game
  | None => ret tt
  end.
End Handlers.

(** The alerts in a trace. *)
Definition alerted (t : list Effect) : list JsValue :=
  flat_map (fun e => match e with Alert text => [text] | Post _ _ => [] end) t.

(** The result a reply gives, if it gives one. *)
Definition result_of (p : Reply) : option GameResult :=
  match p with
  | Resolved JsUndefined | Resolved JsNull => None
  | Resolved data => Some {| won := opt_get "won" data; coins := opt_get "coins_earned" data |}
  | Rejected _ => None
  end.
End GameModal.

(* --------------------------------------------------------------------- *)
(** ** The agency screen                                                  *)
(* --------------------------------------------------------------------- *)

Module Agency.
Import JsNumber Js Flow.
Local Open Scope flow_scope.

Inductive Event :=
| Get (url : string)
| Post (url : string) (body : JsValue)
| AlertBox (title : string) (message : JsValue)
| ClipboardSet (text : JsValue)
| ShareSheet (message : string)
| ConsoleError (label : string) (error : Thrown).

(** A settled promise of [api.get] or [api.post]; a fulfilled one carries
    [response.data]. *)
Inductive Reply :=
| Resolved (data : JsValue)
| Rejected (error : JsValue).

(** The [useState] cells of [AgencyScreen] and the effects performed,
    oldest first. *)
Record Screen := {
  agencyStatus : JsValue;
  refreshing : bool;
  applyModalVisible : bool;
  referralCode : string;
  applying : bool;
  events : list Event
}.

Definition perform (e : Event) : F Screen unit := modify (fun s =>
  {| agencyStatus := agencyStatus s; refreshing := refreshing s;
     applyModalVisible := applyModalVisible s; referralCode := referralCode s;
     applying := applying s; events := events s ++ [e] |}).

Definition setAgencyStatus (v : JsValue) : F Screen unit := modify (fun s =>
  {| agencyStatus := v; refreshing := refreshing s;
     applyModalVisible := applyModalVisible s; referralCode := referralCode s;
     applying := applying s; events := events s |}).

Definition setRefreshing (v : bool) : F Screen unit := modify (fun s =>
  {| agencyStatus := agencyStatus s; refreshing := v;
     applyModalVisible := applyModalVisible s; referralCode := referralCode s;
     applying := applying s; events := events s |}).

Definition setApplyModalVisible (v : bool) : F Screen unit := modify (fun s =>
  {| agencyStatus := agencyStatus s; refreshing := refreshing s;
     applyModalVisible := v; referralCode := referralCode s;
     applying := applying s; events := events s |}).

Definition setReferralCode (v : string) : F Screen unit := modify (fun s =>
  {| agencyStatus := agencyStatus s; refreshing := refreshing s;
     applyModalVisible := applyModalVisible s; referralCode := v;
     applying := applying s; events := events s |}).

Definition setApplying (v : bool) : F Screen unit := modify (fun s =>
  {| agencyStatus := agencyStatus s; refreshing := refreshing s;
     applyModalVisible := applyModalVisible s; referralCode := referralCode s;
     applying := v; events := events s |}).

Definition newline : string := String (Ascii.ascii_of_nat 10) EmptyString.

Section Handlers.
(** How the promises of the requests, of the clipboard and of the share
    sheet settle ([None]: fulfilled), by the number of effects so far. *)
Variable get_reply : nat -> string -> Reply.
Variable post_reply : nat -> string -> JsValue -> Reply.
Variable clipboard : nat -> JsValue -> option JsValue.
Variable share : nat -> string -> option JsValue.
(** The builtins [String.prototype.trim] and ToString. *)
Variable trim : string -> string.
Variable ToString : JsValue -> string.

Definition api_get (url : string) : F Screen JsValue :=
  s <- get ;;
  perform (Get url) ;;;
  match get_reply (length (events s)) url with
  | Resolved data => ret data
  | Rejected error => throw (Reason error)
  end.

Definition api_post (url : string) (body : JsValue) : F Screen JsValue :=
  s <- get ;;
  perform (Post url body) ;;;
  match post_reply (length (events s)) url body with
  | Resolved data => ret data
  | Rejected error => throw (Reason error)
  end.

Definition fetchData : F Screen unit :=
  try_catch
    (data <- api_get "/agency/status" ;;
     setAgencyStatus data)
    (fun error => perform (ConsoleError "Error fetching agency status:" error)).

Definition onRefresh : F Screen unit :=
  setRefreshing true ;;;
  fetchData ;;;
  setRefreshing false.

(** [copyReferralCode]: the alert follows a write that succeeded; a
    failed write rejects the promise of the handler. *)
Definition copyReferralCode : F Screen unit :=
  s <- get ;;
  let code := opt_get "referral_code" (agencyStatus s) in
  if truthy code then
    perform (ClipboardSet code) ;;;
    match clipboard (length (events s)) code with
    | None => perform (AlertBox "Copied!" (JsStr "Referral code copied to clipboard"))
    | Some error => throw (Reason error)
    end
  else ret tt.

Definition share_message (code : JsValue) : string :=
  "Join Mugaddas Network using my referral code: " +:+ ToString code +:+
  newline +:+ newline +:+ "Download now and earn rewards!".

Definition shareReferralCode : F Screen unit :=
  s <- get ;;
  let code := opt_get "referral_code" (agencyStatus s) in
  if truthy code then
    try_catch
      (perform (ShareSheet (share_message code)) ;;;
       match share (length (events s)) (share_message code) with
       | None => ret tt
       | Some error => throw (Reason error)
       end)
      (fun error => perform (ConsoleError "Error sharing:" error))
  else ret tt.

Definition referral_payload (code : string) : JsValue :=
  JsObj [ ("referral_code", JsStr code) ].

(** [applyReferralCode], run to its end. *)
Definition applyReferralCode : F Screen unit :=
  s <- get ;;
  if String.eqb (trim (referralCode s)) "" then
    perform (AlertBox "Error" (JsStr "Please enter a referral code"))
  else
    setApplying true ;;;
    finally
      (try_catch
         (_ <- api_post "/agency/apply-referral" (referral_payload (referralCode s)) ;;
          perform (AlertBox "Success" (JsStr "Referral code applied successfully!")) ;;;
          setApplyModalVisible false ;;;
          setReferralCode "" ;;;
          fetchData)
         (fun error =>
            detail <- detail_or "Failed to apply referral code" error ;;
            perform (AlertBox "Error" detail)))
      (setApplying false).
End Handlers.

(** The code the referral card shows: [agencyStatus?.referral_code || '---']. *)
Definition shown_code (status : JsValue) : JsValue :=
  or_else (opt_get "referral_code" status) (JsStr "---").

(** *** Observations *)

Definition gets (t : list Event) : list string :=
  flat_map (fun e => match e with Get url => [url] | _ => [] end) t.

Definition posts (t : list Event) : list (string * JsValue) :=
  flat_map (fun e => match e with Post url body => [(url, body)] | _ => [] end) t.

Definition alerts (t : list Event) : list (string * JsValue) :=
  flat_map (fun e => match e with AlertBox title m => [(title, m)] | _ => [] end) t.

Definition copied (t : list Event) : list JsValue :=
  flat_map (fun e => match e with ClipboardSet text => [text] | _ => [] end) t.

(** *** Sample states *)

Definition sample_status : JsValue :=
  JsObj [ ("user_id", JsStr "u1"); ("agency_level", JsNum (of_decimal false 1 0));
          ("referral_code", JsStr "MQ-7F3A") ].

Definition typing_screen (code : string) : Screen :=
  {| agencyStatus := sample_status; refreshing := false; applyModalVisible := true;
     referralCode := code; applying := false; events := [] |}.

Definition accepting_post (n : nat) (url : string) (body : JsValue) : Reply :=
  Resolved (JsObj []).

Definition refusing_post (n : nat) (url : string) (body : JsValue) : Reply :=
  Rejected (JsObj [ ("response", JsObj [ ("data", JsObj [ ("detail", JsStr "Invalid referral code") ]) ]) ]).

Definition steady_get (n : nat) (url : string) : Reply := Resolved sample_status.

(** A [trim] for the sample runs: it removes the spaces at the front; it
    is enough to tell a blank code from another. *)
Fixpoint drop_spaces (s : string) : string :=
  match s with
  | String " " rest => drop_spaces rest
  | _ => s
  end.
End Agency.

(* --------------------------------------------------------------------- *)
(** ** The feedback module: haptics and sounds                            *)
(* --------------------------------------------------------------------- *)

Module Feedback.
Import Js Flow.
Local Open Scope flow_scope.

Inductive Haptic :=
| ImpactLight | ImpactMedium | ImpactHeavy
| NotificationSuccess | NotificationWarning | NotificationError
| SelectionChanged.

(** The keys of [SOUNDS]. *)
Inductive SoundType := coinDrop | levelUp | success | reward | gameWin | gameLose | click.

Definition SOUNDS (t : SoundType) : string :=
  match t with
  | coinDrop => "https://assets.mixkit.co/active_storage/sfx/2003/2003-preview.mp3"
  | levelUp => "https://assets.mixkit.co/active_storage/sfx/1997/1997-preview.mp3"
  | success => "https://assets.mixkit.co/active_storage/sfx/2000/2000-preview.mp3"
  | reward => "https://assets.mixkit.co/active_storage/sfx/2018/2018-preview.mp3"
  | gameWin => "https://assets.mixkit.co/active_storage/sfx/1435/1435-preview.mp3"
  | gameLose => "https://assets.mixkit.co/active_storage/sfx/2001/2001-preview.mp3"
  | click => "https://assets.mixkit.co/active_storage/sfx/2568/2568-preview.mp3"
  end.

(** The calls into the libraries and the console; a sound is named by the
    number of the call that created it. *)
Inductive Event :=
| Vibrate (h : Haptic)
| Unload (sound : nat)
| Create (uri : string)
| ConsoleLog (label : string) (error : Thrown).

(** The module variable [soundObject] and the calls made, oldest first. *)
Record Device := {
  soundObject : option nat;
  events : list Event
}.

Definition perform (e : Event) : F Device unit := modify (fun d =>
  {| soundObject := soundObject d; events := events d ++ [e] |}).

Definition setSoundObject (v : option nat) : F Device unit := modify (fun d =>
  {| soundObject := v; events := events d |}).

Section Functions.
(** [Platform.OS], and how the promises of [unloadAsync] and of
    [createAsync] settle ([None]: fulfilled), by the number of calls so
    far. *)
Variable Platform_OS : string.
Variable unloadAsync : nat -> option JsValue.
Variable createAsync : nat -> option JsValue.

(** [playSound], run to its end. *)
Definition playSound (soundType : SoundType) : F Device unit :=
  try_catch
    (d <- get ;;
     match soundObject d with
     | Some old =>
         perform (Unload old) ;;;
         match unloadAsync (length (events d)) with
         | None => ret tt
         | Some error => throw (Reason error)
         end
     | None => ret tt
     end ;;;
     d' <- get ;;
     perform (Create (SOUNDS soundType)) ;;;
     match createAsync (length (events d')) with
     | None => setSoundObject (Some (length (events d')))
     | Some error => throw (Reason error)
     end)
    (fun error => perform (ConsoleLog "Sound play error:" error)).

(** The functions of [hapticFeedback]. *)
Definition haptic (h : Haptic) : F Device unit :=
  if negb (String.eqb Platform_OS "web") then perform (Vibrate h) else ret tt.

(** The functions of [sultanFeedback]. *)
Inductive Action :=
| transaction | levelUpAction | taskComplete | rewardClaimed | gameWon | gameLost
| buttonPress | vipUpgrade | withdrawal | error.

Definition sultanFeedback (a : Action) : F Device unit :=
  match a with
  | transaction => haptic NotificationSuccess ;;; playSound coinDrop
  | levelUpAction => haptic ImpactHeavy ;;; playSound levelUp
  | taskComplete => haptic NotificationSuccess ;;; playSound success
  | rewardClaimed => haptic ImpactMedium ;;; playSound reward
  | gameWon => haptic NotificationSuccess ;;; playSound gameWin
  | gameLost => haptic NotificationWarning ;;; playSound gameLose
  | buttonPress => haptic ImpactLight ;;; playSound click
  | vipUpgrade => haptic ImpactHeavy ;;; playSound levelUp
  | withdrawal => haptic ImpactMedium ;;; playSound success
  | error => haptic NotificationError
  end.

(** The actions of a list, each awaited before the next. *)
Fixpoint in_turn (actions : list Action) : F Device unit :=
  match actions with
  | [] => ret tt
  | a :: rest => sultanFeedback a ;;; in_turn rest
  end.
End Functions.

(** *** Observations *)

Definition vibrations (t : list Event) : list Haptic :=
  flat_map (fun e => match e with Vibrate h => [h] | _ => [] end) t.

Definition created (t : list Event) : list string :=
  flat_map (fun e => match e with Create uri => [uri] | _ => [] end) t.

Definition unloaded (t : list Event) : list nat :=
  flat_map (fun e => match e with Unload sound => [sound] | _ => [] end) t.
End Feedback.

(* ===================================================================== *)
(** * Part II: lemmas and theorems                                        *)
(* ===================================================================== *)

(** ** The number model on inputs with known answers *)

Module JsNumberExamples.
Import JsNumber.
Local Open Scope Z_scope.

(** The literals of the sources as binary64 values. *)
Example literal_0_02 : of_decimal false 2 (-2) = S754_finite false 5764607523034235 (-58).
Proof. vm_compute. reflexivity. Qed.

Example literal_0_60 : of_decimal false 60 (-2) = S754_finite false 5404319552844595 (-53).
Proof. vm_compute. reflexivity. Qed.

Example literal_100 : of_decimal false 100 0 = S754_finite false 7036874417766400 (-46).
Proof. vm_compute. reflexivity. Qed.

(** [parseFloat] stops at the first character that does not belong to a
    decimal literal, and gives NaN when there is none. *)
Example parseFloat_prefix : parseFloat "  -12.5e1xyz" = of_decimal true 125 0.
Proof. vm_compute. reflexivity. Qed.

Example parseFloat_dot : parseFloat "." = NaN.
Proof. reflexivity. Qed.

Example parseFloat_empty : parseFloat "" = NaN.
Proof. reflexivity. Qed.

Example parseFloat_no_exponent : parseFloat "1e" = of_Z 1.
Proof. vm_compute. reflexivity. Qed.

Example parseFloat_point_five : parseFloat ".5" = S754_finite false 4503599627370496 (-53).
Proof. vm_compute. reflexivity. Qed.

Example parseFloat_overflow : parseFloat "1e400" = S754_infinity false.
Proof. vm_compute. reflexivity. Qed.

Example parseFloat_smallest : parseFloat "5e-324" = S754_finite false 1 (-1074).
Proof. vm_compute. reflexivity. Qed.

(** [toFixed(2)] rounds the exact binary value: 1.005 is stored a little
    below 1.005, and 0.125 is a tie that goes up. *)
Example toFixed_1_005 : toFixed (parseFloat "1.005") 2 = "1.00"%string.
Proof. vm_compute. reflexivity. Qed.

Example toFixed_tie : toFixed (parseFloat "0.125") 2 = "0.13"%string.
Proof. vm_compute. reflexivity. Qed.

Example toFixed_negative_zero : toFixed (parseFloat "-0.001") 2 = "-0.00"%string.
Proof. vm_compute. reflexivity. Qed.

Example toFixed_NaN : toFixed (parseFloat "abc") 2 = "NaN"%string.
Proof. vm_compute. reflexivity. Qed.

Example toFixed_large : toFixed (parseFloat "1180591620717411303424") 2 = "1.1805916207174113e+21"%string.
Proof. vm_compute. reflexivity. Qed.

Example toFixed_1e21 : toFixed (parseFloat "999999999999999999999") 2 = "1e+21"%string.
Proof. vm_compute. reflexivity. Qed.

(** [Math.floor]. *)
Example floor_negative : to_Z (floor (parseFloat "-99.99")) = Some (-100).
Proof. vm_compute. reflexivity. Qed.

Example floor_fraction : floor (parseFloat "0.75") = zero.
Proof. vm_compute. reflexivity. Qed.

(** [0.1 * 3] is not [0.3]. *)
Example product_is_rounded :
  mul (parseFloat "0.1") (parseFloat "3") = S754_finite false 5404319552844596 (-54) /\
  parseFloat "0.3" = S754_finite false 5404319552844595 (-54).
Proof. split; vm_compute; reflexivity. Qed.
End JsNumberExamples.

(** ** Rounding to nearest-even, in integers *)

Module JsNumberFacts.
Import JsNumber Rounding.
Local Open Scope Z_scope.

(** *** Powers of two *)

Lemma pow2_pos (k : Z) : 0 <= k -> 0 < 2 ^ k.
Proof. intros. apply Z.pow_pos_nonneg; lia. Qed.

Lemma pow2_add (a b : Z) : 0 <= a -> 0 <= b -> 2 ^ (a + b) = 2 ^ a * 2 ^ b.
Proof. intros. apply Z.pow_add_r; lia. Qed.

Lemma pow2_le (a b : Z) : 0 <= a <= b -> 2 ^ a <= 2 ^ b.
Proof. intros. apply Z.pow_le_mono_r; lia. Qed.

Lemma pow2_lt (a b : Z) : 0 <= a < b -> 2 ^ a < 2 ^ b.
Proof. intros. apply Z.pow_lt_mono_r; lia. Qed.

Lemma pow2_succ (k : Z) : 0 <= k -> 2 ^ (k + 1) = 2 * 2 ^ k.
Proof. intros. rewrite pow2_add by lia. lia. Qed.

Lemma pow2_lt_inv (a b : Z) : 0 <= a -> 0 <= b -> 2 ^ a < 2 ^ b -> a < b.
Proof. intros Ha Hb H. apply (Z.pow_lt_mono_r_iff 2); lia. Qed.

(** *** The number of binary digits *)


Lemma digits_pos (p : positive) : 1 <= digits p.
Proof. unfold digits. lia. Qed.

Lemma digits_bounds (p : positive) :
  2 ^ (digits p - 1) <= Zpos p < 2 ^ digits p.
Proof.
  unfold digits. induction p as [p IH | p IH |]; cbn [digits2_pos].
  - rewrite Pos2Z.inj_succ.
    replace (Z.succ (Zpos (digits2_pos p)) - 1) with ((Zpos (digits2_pos p) - 1) + 1) by lia.
    replace (Z.succ (Zpos (digits2_pos p))) with (Zpos (digits2_pos p) + 1) by lia.
    rewrite !pow2_succ by lia. lia.
  - rewrite Pos2Z.inj_succ.
    replace (Z.succ (Zpos (digits2_pos p)) - 1) with ((Zpos (digits2_pos p) - 1) + 1) by lia.
    replace (Z.succ (Zpos (digits2_pos p))) with (Zpos (digits2_pos p) + 1) by lia.
    rewrite !pow2_succ by lia. lia.
  - cbn. lia.
Qed.

Lemma digits_unique (p : positive) (n : Z) :
  2 ^ (n - 1) <= Zpos p < 2 ^ n -> 1 <= n -> digits p = n.
Proof.
  intros [Hlo Hhi] Hn. pose proof (digits_bounds p) as [Dlo Dhi].
  pose proof (digits_pos p) as Hd.
  assert (digits p - 1 < n) by (apply pow2_lt_inv; lia).
  assert (n - 1 < digits p) by (apply pow2_lt_inv; lia).
  lia.
Qed.

(** *** Shifting right with a sticky record *)


Lemma shr_1_nonneg (m : Z) (r s : bool) :
  0 <= m ->
  shr_1 {| shr_m := m; shr_r := r; shr_s := s |} =
  {| shr_m := m / 2; shr_r := Z.odd m; shr_s := r || s |}.
Proof.
  intros Hm. destruct m as [| p | p]; [reflexivity | | lia].
  rewrite <- Z.div2_div. destruct p; reflexivity.
Qed.

Lemma iter_pos_nat {A : Type} (f : A -> A) (p : positive) (x : A) :
  SpecFloat.iter_pos f p x = Nat.iter (Pos.to_nat p) f x.
Proof.
  revert x. induction p as [p IH | p IH |]; intros x; cbn [SpecFloat.iter_pos].
  - rewrite !IH. rewrite Pos2Nat.inj_xI.
    replace (S (2 * Pos.to_nat p)) with (Pos.to_nat p + (Pos.to_nat p + 1))%nat by lia.
    rewrite !Nat.iter_add. cbn. reflexivity.
  - rewrite !IH. rewrite Pos2Nat.inj_xO.
    replace (2 * Pos.to_nat p)%nat with (Pos.to_nat p + Pos.to_nat p)%nat by lia.
    by rewrite Nat.iter_add.
  - reflexivity.
Qed.

Lemma sticky_step (m k : Z) :
  0 <= m -> 1 <= k ->
  Z.odd (m / 2 ^ (k - 1)) || negb (m mod 2 ^ (k - 1) =? 0) = negb (m mod 2 ^ k =? 0).
Proof.
  intros Hm Hk.
  assert (Hp : 0 < 2 ^ (k - 1)) by (apply pow2_pos; lia).
  replace (2 ^ k) with (2 ^ (k - 1) * 2)
    by (replace k with ((k - 1) + 1) at 2 by lia; rewrite pow2_succ by lia; lia).
  rewrite Z.rem_mul_r by lia.
  pose proof (Z.mod_pos_bound m (2 ^ (k - 1)) Hp) as Hb.
  rewrite Zmod_odd.
  destruct (Z.odd (m / 2 ^ (k - 1))); cbn.
  - symmetry. apply negb_true_iff, Z.eqb_neq. lia.
  - rewrite Z.mul_0_r, Z.add_0_r. reflexivity.
Qed.

Lemma iter_shr_1 (n : nat) (m : Z) :
  0 <= m ->
  Nat.iter (S n) shr_1 {| shr_m := m; shr_r := false; shr_s := false |} =
  shifted m (Z.of_nat (S n)).
Proof.
  intros Hm. induction n as [| n IH].
  - cbn [Nat.iter nat_rect]. rewrite shr_1_nonneg by lia. unfold shifted. cbn.
    rewrite Z.div_1_r, Z.mod_1_r. reflexivity.
  - change (Nat.iter (S (S n)) shr_1 ?x) with (shr_1 (Nat.iter (S n) shr_1 x)).
    rewrite IH. unfold shifted.
    assert (Hp : 0 < 2 ^ Z.of_nat (S n)) by (apply pow2_pos; lia).
    rewrite shr_1_nonneg by (apply Z.div_pos; lia).
    replace (Z.of_nat (S (S n)) - 1) with (Z.of_nat (S n)) by lia.
    f_equal.
    + rewrite Z.div_div by lia.
      replace (Z.of_nat (S (S n))) with (Z.of_nat (S n) + 1) by lia.
      rewrite pow2_succ by lia. f_equal. lia.
    + apply sticky_step; lia.
Qed.

Lemma shr_exact (m : Z) (e k : Z) :
  0 <= m -> 0 < k ->
  shr {| shr_m := m; shr_r := false; shr_s := false |} e k = (shifted m k, e + k).
Proof.
  intros Hm Hk. destruct k as [| p | p]; try lia. cbn [shr].
  rewrite iter_pos_nat.
  destruct (Pos2Nat.is_succ p) as [n Hn]. rewrite Hn, iter_shr_1 by lia.
  by rewrite <- Hn, positive_nat_Z.
Qed.

(** *** Rounding a shifted number *)


Lemma round_shifted (m k : Z) :
  0 <= m -> 1 <= k ->
  round_nearest_even (shr_m (shifted m k)) (loc_of_shr_record (shifted m k)) = rne m k.
Proof.
  intros Hm Hk. unfold shifted, rne. cbn [shr_m loc_of_shr_record].
  assert (Hh : 0 < 2 ^ (k - 1)) by (apply pow2_pos; lia).
  assert (H2 : 2 ^ k = 2 ^ (k - 1) * 2)
    by (replace k with ((k - 1) + 1) at 1 by lia; rewrite pow2_succ by lia; lia).
  assert (Hr : m mod 2 ^ k = m mod 2 ^ (k - 1) + 2 ^ (k - 1) * ((m / 2 ^ (k - 1)) mod 2))
    by (rewrite H2; apply Z.rem_mul_r; lia).
  pose proof (Z.mod_pos_bound m (2 ^ (k - 1)) Hh) as Hb.
  rewrite Zmod_odd in Hr.
  destruct (Z.odd (m / 2 ^ (k - 1))) eqn:Hodd.
  - destruct (Z.eqb_spec (m mod 2 ^ (k - 1)) 0) as [H0 | H0]; cbn.
    + destruct (Z.ltb_spec (m mod 2 ^ k) (2 ^ (k - 1))); [lia |].
      destruct (Z.eqb_spec (m mod 2 ^ k) (2 ^ (k - 1))); [reflexivity | lia].
    + destruct (Z.ltb_spec (m mod 2 ^ k) (2 ^ (k - 1))); [lia |].
      destruct (Z.eqb_spec (m mod 2 ^ k) (2 ^ (k - 1))); [lia | reflexivity].
  - destruct (Z.ltb_spec (m mod 2 ^ k) (2 ^ (k - 1))); [| lia].
    destruct (m mod 2 ^ (k - 1) =? 0); reflexivity.
Qed.

(** The rounded quotient is the quotient or the next integer, and it is
    within half a unit of the exact quotient. *)
Lemma rne_bounds (m k : Z) :
  0 <= m -> 1 <= k ->
  m / 2 ^ k <= rne m k <= m / 2 ^ k + 1 /\
  2 * m - 2 ^ k <= 2 * (rne m k * 2 ^ k) <= 2 * m + 2 ^ k.
Proof.
  intros Hm Hk. unfold rne.
  assert (Hh : 0 < 2 ^ (k - 1)) by (apply pow2_pos; lia).
  assert (H2 : 2 ^ k = 2 * 2 ^ (k - 1))
    by (replace k with ((k - 1) + 1) at 1 by lia; rewrite pow2_succ by lia; lia).
  assert (Hp : 0 < 2 ^ k) by lia.
  pose proof (Z.div_mod m (2 ^ k) ltac:(lia)) as Hdm.
  pose proof (Z.mod_pos_bound m (2 ^ k) Hp) as Hb.
  destruct (Z.ltb_spec (m mod 2 ^ k) (2 ^ (k - 1))); [nia |].
  destruct (Z.eqb_spec (m mod 2 ^ k) (2 ^ (k - 1))); [destruct (Z.even (m / 2 ^ k)) |]; nia.
Qed.

(** *** Rounding a product: the second step of [binary_round_aux] *)


Lemma fexp_ge_emin (x : Z) : emin prec emax <= fexp prec emax x.
Proof. unfold fexp. lia. Qed.

Lemma shr_fexp_exact (m e : Z) :
  0 <= m ->
  (let '(mrs, e') := shr_fexp prec emax m e loc_Exact in (shr_m mrs, e')) = renorm m e.
Proof.
  intros Hm. unfold shr_fexp, renorm. cbn [shr_record_of_loc].
  destruct (Z.ltb_spec 0 (fexp prec emax (Zdigits2 m + e) - e)) as [Hk | Hk].
  - rewrite shr_exact by lia. reflexivity.
  - destruct (fexp prec emax (Zdigits2 m + e) - e); try lia; reflexivity.
Qed.

Lemma binary_round_aux_exact (s : bool) (p : positive) (e : Z) :
  binary_round_aux prec emax s (Zpos p) e loc_Exact = build s (round_exact p e).
Proof.
  unfold binary_round_aux, round_exact.
  unfold shr_fexp at 1. cbn [shr_record_of_loc Zdigits2]. fold (digits p).
  destruct (Z.ltb_spec 0 (fexp prec emax (digits p + e) - e)) as [Hk | Hk].
  - rewrite shr_exact by lia.
    rewrite round_shifted by lia.
    assert (Hk1 : 1 <= fexp prec emax (digits p + e) - e) by lia.
    pose proof (rne_bounds (Zpos p) _ ltac:(lia) Hk1) as [[Hlo _] _].
    assert (H0 : 0 <= rne (Zpos p) (fexp prec emax (digits p + e) - e)).
    { etransitivity; [| exact Hlo]. apply Z.div_pos; [lia | apply pow2_pos; lia]. }
    pose proof (shr_fexp_exact _ (e + (fexp prec emax (digits p + e) - e)) H0) as Hs.
    destruct (shr_fexp prec emax _ _ loc_Exact) as [mrs e''].
    rewrite <- Hs. reflexivity.
  - assert (Hsh : shr {| shr_m := Zpos p; shr_r := false; shr_s := false |} e
                    (fexp prec emax (digits p + e) - e) =
                  ({| shr_m := Zpos p; shr_r := false; shr_s := false |}, e)).
    { destruct (fexp prec emax (digits p + e) - e); try lia; reflexivity. }
    rewrite Hsh. cbn [shr_m loc_of_shr_record round_nearest_even].
    unfold shr_fexp. cbn [shr_record_of_loc Zdigits2]. fold (digits p).
    rewrite Hsh. reflexivity.
Qed.

(** The product of two finite numbers. *)
Lemma mul_finite (sx sy : bool) (mx my : positive) (ex ey : Z) :
  mul (S754_finite sx mx ex) (S754_finite sy my ey) =
  build (xorb sx sy) (round_exact (mx * my) (ex + ey)).
Proof. unfold mul. cbn [SFmul]. apply binary_round_aux_exact. Qed.

(** *** Canonical mantissas *)

Lemma wf_finite s m e : wf (S754_finite s m e) = true <-> canonical m e.
Proof.
  unfold wf, valid_binary, bounded, canonical_mantissa, canonical. fold (digits m).
  rewrite andb_true_iff, Z.eqb_eq, Z.leb_le. reflexivity.
Qed.

Lemma below_one_mant (m : positive) (e : Z) :
  canonical m e -> e <= -53 -> Zpos m < 2 ^ (- e).
Proof.
  intros [Hc Hb] He. pose proof (digits_bounds m) as [_ Hhi]. pose proof (digits_pos m).
  unfold fexp, emin, prec, emax in Hc.
  eapply Z.lt_le_trans; [exact Hhi |]. apply pow2_le. lia.
Qed.

Lemma normal_mant (m : positive) (e : Z) :
  canonical m e -> -52 <= e -> 2 ^ 52 <= Zpos m < 2 ^ 53.
Proof.
  intros [Hc Hb] He. pose proof (digits_bounds m) as Hd.
  unfold fexp, emin, prec, emax in Hc.
  assert (digits m = 53) as Hd53 by lia. rewrite Hd53 in Hd. exact Hd.
Qed.

Lemma digits_le_of_lt (p : positive) (n : Z) :
  0 <= n -> Zpos p < 2 ^ n -> digits p <= n.
Proof.
  intros Hn Hp. pose proof (digits_bounds p) as [Hlo _]. pose proof (digits_pos p).
  assert (digits p - 1 < n) by (apply pow2_lt_inv; lia). lia.
Qed.

Lemma Zdigits2_le_of_lt (m n : Z) :
  0 <= m -> 0 <= n -> m < 2 ^ n -> Zdigits2 m <= n.
Proof.
  intros Hm Hn Hlt. destruct m as [| p | p]; cbn [Zdigits2]; [lia | | lia].
  by apply digits_le_of_lt.
Qed.

Lemma div_pow2_lt (m a k : Z) :
  0 <= m -> 0 < a -> 0 <= k -> m < a * 2 ^ k -> m / 2 ^ k < a.
Proof.
  intros Hm Ha Hk Hlt. apply Z.div_lt_upper_bound; [apply pow2_pos; lia | lia].
Qed.

Lemma round_exact_below (mr ml : positive) (er el : Z) :
  canonical mr er -> er <= -53 -> canonical ml el -> -52 <= el ->
  let me := round_exact (mr * ml) (er + el) in
  0 <= fst me /\ snd me <= el /\ fst me < Zpos ml * 2 ^ (el - snd me).
Proof.
  intros Hr Her Hl Hel.
  pose proof (below_one_mant mr er Hr Her) as Hmr.
  pose proof (normal_mant ml el Hl Hel) as Hml.
  destruct Hr as [Hcr Hbr]. destruct Hl as [Hcl Hbl].
  unfold round_exact. set (P := (mr * ml)%positive). set (e := er + el).
  set (d := digits P).
  assert (HP : Zpos P = Zpos mr * Zpos ml) by reflexivity.
  assert (Hner : 0 < 2 ^ (- er)) by (apply pow2_pos; lia).
  assert (HPlt : Zpos P < Zpos ml * 2 ^ (- er)) by nia.
  assert (Hd : d <= 53 - er).
  { apply digits_le_of_lt; [lia |].
    replace (53 - er) with (53 + - er) by lia. rewrite pow2_add by lia. nia. }
  pose proof (digits_bounds P) as HdP. fold d in HdP. pose proof (digits_pos P) as Hd1. fold d in Hd1.
  unfold fexp, emin, prec, emax in *.
  set (k := Z.max (d + e - 53) (3 - 1024 - 53) - e).
  assert (Hkdef : k = Z.max (d + e - 53) (3 - 1024 - 53) - e) by reflexivity.
  destruct (Z.ltb_spec 0 k) as [Hk | Hk]; cbn zeta.
  - (* rounded *)
    pose proof (rne_bounds (Zpos P) k ltac:(lia) ltac:(lia)) as [[Hq1 Hq2] [_ Hup]].
    set (m1 := rne (Zpos P) k) in *.
    assert (Hpk : 0 < 2 ^ k) by (apply pow2_pos; lia).
    assert (Hq0 : 0 <= Zpos P / 2 ^ k) by (apply Z.div_pos; lia).
    set (t := el - (e + k)).
    assert (Ht : 0 <= t) by lia.
    assert (Hsplit : 2 ^ (- er) = 2 ^ t * 2 ^ k).
    { rewrite <- pow2_add by lia. f_equal. lia. }
    assert (Hpt : 0 < 2 ^ t) by (apply pow2_pos; lia).
    assert (Hq : Zpos P / 2 ^ k < Zpos ml * 2 ^ t).
    { apply div_pow2_lt; [lia | nia | lia | nia]. }
    assert (Hm1 : m1 < Zpos ml * 2 ^ t).
    { destruct (Z.eq_dec m1 (Zpos ml * 2 ^ t)) as [Heq | Hne]; [| lia].
      exfalso.
      (* the gap below the limit is at least the mantissa of the limit *)
      assert (Hgap : Zpos ml <= Zpos ml * 2 ^ t * 2 ^ k - Zpos P) by nia.
      assert (H2k : 2 * Zpos ml <= 2 ^ k) by nia.
      destruct (Z.max_spec (d + e - 53) (3 - 1024 - 53)) as [[Hcmp Hmax] | [Hcmp Hmax]].
      + (* subnormal result *)
        assert (Hkd : d - k <= 52) by lia.
        assert (Hq52 : Zpos P / 2 ^ k < 2 ^ 52).
        { apply div_pow2_lt; try lia.
          destruct (Z.le_gt_cases 0 (d - k)).
          - eapply Z.lt_le_trans; [apply HdP |].
            replace d with ((d - k) + k) at 1 by lia. rewrite pow2_add by lia.
            apply Z.mul_le_mono_nonneg_r; [lia | apply pow2_le; lia].
          - eapply Z.lt_le_trans; [apply HdP |].
            transitivity (2 ^ k); [apply pow2_le; lia | nia]. }
        assert (2 ^ 1 <= 2 ^ t) by (apply pow2_le; lia). nia.
      + (* normal result *)
        assert (Hk53 : 53 <= k).
        { destruct (Z.lt_ge_cases k 53) as [Hlt | Hge]; [| exact Hge]. exfalso.
          assert (2 ^ k <= 2 ^ 52) by (apply pow2_le; lia). lia. }
        assert (Hmr53 : Zpos mr < 2 ^ 53).
        { eapply Z.lt_le_trans; [apply (digits_bounds mr) |].
          apply pow2_le. pose proof (digits_pos mr). lia. }
        assert (d <= 106).
        { apply digits_le_of_lt; [lia |]. change 106 with (53 + 53).
          rewrite pow2_add by lia. nia. }
        assert (d = 106) by lia.
        assert (Hk53' : k = 53) by lia.
        assert (Zpos ml = 2 ^ 52) by (rewrite Hk53' in H2k; lia).
        assert (Zpos P < 2 ^ 105) by nia.
        assert (2 ^ 105 <= Zpos P) by (replace 105 with (d - 1) by lia; apply HdP).
        lia. }
    unfold renorm. unfold fexp, emin, prec, emax.
    set (k2 := Z.max (Zdigits2 m1 + (e + k) - 53) (3 - 1024 - 53) - (e + k)).
    assert (Hk2def : k2 = Z.max (Zdigits2 m1 + (e + k) - 53) (3 - 1024 - 53) - (e + k))
      by reflexivity.
    assert (Hm0 : 0 <= m1) by lia.
    assert (Hd1m : Zdigits2 m1 <= 53 + t).
    { apply Zdigits2_le_of_lt; try lia. rewrite pow2_add by lia. nia. }
    destruct (Z.ltb_spec 0 k2) as [Hk2 | Hk2]; cbn [fst snd].
    + assert (Hpk2 : 0 < 2 ^ k2) by (apply pow2_pos; lia).
      split; [apply Z.div_pos; lia |]. split; [lia |].
      apply div_pow2_lt;
        [lia | apply Z.mul_pos_pos; [lia | apply pow2_pos; lia] | lia |].
      rewrite <- Z.mul_assoc, <- pow2_add by lia.
      replace (el - (e + k + k2) + k2) with t by lia. exact Hm1.
    + split; [lia |]. split; [lia |]. exact Hm1.
  - (* exact *)
    cbn [fst snd]. split; [lia |]. split; [lia |].
    replace (el - e) with (- er) by lia. lia.
Qed.

Lemma round_exact_spec (p : positive) (e : Z) :
  let k := fexp prec emax (digits p + e) - e in
  let me := round_exact p e in
  (k <= 0 -> me = (Zpos p, e)) /\
  (0 < k ->
   (fst me = rne (Zpos p) k /\ snd me = e + k /\ fst me < 2 ^ 53) \/
   (rne (Zpos p) k = 2 ^ 53 /\ fst me = 2 ^ 52 /\ snd me = e + k + 1)).
Proof.
  cbn zeta. unfold round_exact.
  assert (Hkdef : fexp prec emax (digits p + e) - e = Z.max (digits p + e - 53) (-1074) - e)
    by reflexivity.
  revert Hkdef. generalize (fexp prec emax (digits p + e) - e). intros k Hkdef.
  split; intros Hk.
  - destruct (Z.ltb_spec 0 k); [lia | reflexivity].
  - destruct (Z.ltb_spec 0 k); [| lia].
    pose proof (rne_bounds (Zpos p) k ltac:(lia) ltac:(lia)) as [[Hq1 Hq2] _].
    pose proof (digits_bounds p) as [_ Hhi].
    assert (Hpk : 0 < 2 ^ k) by (apply pow2_pos; lia).
    assert (Hq : Zpos p / 2 ^ k < 2 ^ 53).
    { apply div_pow2_lt; [lia | lia | lia |].
      rewrite <- pow2_add by lia.
      eapply Z.lt_le_trans; [exact Hhi |]. apply pow2_le.
      pose proof (digits_pos p). lia. }
    assert (Hq0 : 0 <= Zpos p / 2 ^ k) by (apply Z.div_pos; lia).
    revert Hq1 Hq2. generalize (rne (Zpos p) k). intros m1 Hq1 Hq2.
    unfold renorm.
    assert (Hk2def : fexp prec emax (Zdigits2 m1 + (e + k)) - (e + k) =
                     Z.max (Zdigits2 m1 + (e + k) - 53) (-1074) - (e + k)) by reflexivity.
    revert Hk2def. generalize (fexp prec emax (Zdigits2 m1 + (e + k)) - (e + k)).
    intros k2 Hk2def.
    destruct (Z.eq_dec m1 (2 ^ 53)) as [Heq | Hne].
    + right. rewrite Heq in Hk2def. change (Zdigits2 (2 ^ 53)) with 54 in Hk2def.
      assert (Hk21 : k2 = 1) by lia. clear Hk2def. subst k2.
      cbn [Z.ltb Z.compare fst snd].
      split; [exact Heq |]. split; [| reflexivity]. rewrite Heq. reflexivity.
    + left.
      assert (Hd1 : Zdigits2 m1 <= 53) by (apply Zdigits2_le_of_lt; lia).
      destruct (Z.ltb_spec 0 k2); [lia |]. cbn [fst snd]. repeat split. lia.
Qed.

Lemma round_exact_mant (p : positive) (e : Z) :
  0 <= fst (round_exact p e) < 2 ^ 53.
Proof.
  pose proof (round_exact_spec p e) as [Hexact Hround]. cbn zeta in *.
  assert (Hkdef : fexp prec emax (digits p + e) - e = Z.max (digits p + e - 53) (-1074) - e)
    by reflexivity.
  revert Hexact Hround Hkdef. generalize (fexp prec emax (digits p + e) - e).
  intros k Hexact Hround Hkdef.
  destruct (Z.le_gt_cases k 0) as [Hk | Hk].
  - rewrite Hexact by exact Hk. cbn [fst]. split; [lia |].
    eapply Z.lt_le_trans; [apply digits_bounds |]. apply pow2_le.
    pose proof (digits_pos p). lia.
  - pose proof (rne_bounds (Zpos p) k ltac:(lia) ltac:(lia)) as [[Hq1 _] _].
    assert (0 <= Zpos p / 2 ^ k) by (apply Z.div_pos; [lia | apply pow2_pos; lia]).
    destruct (Hround ltac:(lia)) as [(-> & _ & Hlt) | (_ & -> & _)]; lia.
Qed.

(** *** Comparisons with zero and one *)

Lemma one_eq : one = S754_finite false 4503599627370496 (-52).
Proof. vm_compute. reflexivity. Qed.

Lemma unit_interval_cases (r : number) :
  unit_interval r = true ->
  (exists s, r = S754_zero s) \/
  (exists m e, r = S754_finite false m e /\ canonical m e /\ e <= -53).
Proof.
  unfold unit_interval. rewrite !andb_true_iff. intros [[Hwf Hge] Hlt].
  unfold lt in Hlt. rewrite one_eq in Hlt. unfold ge, zero in Hge.
  destruct r as [s | s | | s m e].
  - left. by exists s.
  - destruct s; [discriminate Hge | discriminate Hlt].
  - discriminate Hge.
  - right. cbv [SFleb SFltb SFcompare] in Hge, Hlt.
    destruct s; [discriminate Hge |]. exists m, e. split; [reflexivity |].
    apply wf_finite in Hwf. split; [exact Hwf |].
    destruct (Z.compare_spec e (-52)) as [He | He | He]; [| lia | discriminate Hlt].
    exfalso. subst e.
    pose proof (normal_mant m (-52) Hwf ltac:(lia)) as [Hlo _].
    rewrite Pos.compare_cont_spec in Hlt. cbn [Pos.switch_Eq] in Hlt.
    destruct (Pos.compare_spec m 4503599627370496) as [Hc | Hc | Hc]; try discriminate Hlt.
    change (2 ^ 52) with (Zpos 4503599627370496) in Hlo.
    apply Pos2Z.pos_lt_pos in Hc. clear - Hlo Hc. lia.
Qed.

Lemma at_least_one_cases (x : number) :
  wf x = true -> is_finite x = true -> ge x one = true ->
  exists m e, x = S754_finite false m e /\ canonical m e /\ -52 <= e.
Proof.
  intros Hwf Hfin Hge. unfold ge in Hge. rewrite one_eq in Hge.
  destruct x as [s | s | | s m e]; try discriminate Hfin.
  - destruct s; discriminate Hge.
  - cbv [SFleb SFcompare] in Hge.
    destruct s; [discriminate Hge |]. exists m, e. split; [reflexivity |].
    apply wf_finite in Hwf. split; [exact Hwf |].
    destruct (Z.compare_spec (-52) e) as [He | He | He]; [lia | lia | discriminate Hge].
Qed.

(** *** Integers as numbers *)

Lemma iter_xO (p n : positive) : Zpos (Pos.iter xO p n) = Zpos p * 2 ^ Zpos n.
Proof.
  induction n as [| n IH] using Pos.peano_ind.
  - cbn. lia.
  - rewrite Pos.iter_succ, Pos2Z.inj_succ, Pos2Z.inj_xO, IH.
    unfold Z.succ. rewrite pow2_succ by lia. lia.
Qed.

Lemma shl_align_spec (m : positive) (e e' : Z) :
  e' <= e ->
  shl_align m e e' = (Z.to_pos (Zpos m * 2 ^ (e - e')), e').
Proof.
  intros He. unfold shl_align.
  destruct (e' - e) as [| d | d] eqn:Hd; try lia.
  - replace (e - e') with 0 by lia. replace e' with e by lia.
    f_equal. rewrite Z.pow_0_r, Z.mul_1_r. reflexivity.
  - replace (e - e') with (Zpos d) by lia. rewrite <- iter_xO. reflexivity.
Qed.

Lemma of_Z_pos (q : positive) :
  Zpos q < 2 ^ 53 ->
  of_Z (Zpos q) =
    S754_finite false (Z.to_pos (Zpos q * 2 ^ (53 - digits q))) (digits q - 53).
Proof.
  intros Hq. pose proof (digits_pos q) as Hd1.
  pose proof (digits_le_of_lt q 53 ltac:(lia) Hq) as Hd.
  pose proof (digits_bounds q) as [Hlo Hhi].
  unfold of_Z, binary_normalize, binary_round. fold (digits q).
  assert (Hf : fexp prec emax (digits q + 0) = digits q - 53).
  { unfold fexp, emin, prec, emax. lia. }
  rewrite Hf, shl_align_spec by lia.
  replace (0 - (digits q - 53)) with (53 - digits q) by lia.
  assert (Hs : 0 < 2 ^ (53 - digits q)) by (apply pow2_pos; lia).
  set (mz := Z.to_pos (Zpos q * 2 ^ (53 - digits q))).
  assert (Hmz : Zpos mz = Zpos q * 2 ^ (53 - digits q)) by (unfold mz; lia).
  assert (Hdz : digits mz = 53).
  { apply digits_unique; [| lia]. rewrite Hmz. split.
    - replace (53 - 1) with ((digits q - 1) + (53 - digits q)) by lia.
      rewrite pow2_add by lia. nia.
    - replace 53 with (digits q + (53 - digits q)) at 2 by lia.
      rewrite pow2_add by lia. nia. }
  rewrite binary_round_aux_exact. unfold round_exact. rewrite Hdz.
  assert (Hk : fexp prec emax (53 + (digits q - 53)) - (digits q - 53) = 0).
  { unfold fexp, emin, prec, emax. lia. }
  rewrite Hk. cbn [Z.ltb Z.compare]. unfold build. cbn [fst snd].
  destruct (Z.leb_spec (digits q - 53) (emax - prec)) as [_ | Hbad];
    [reflexivity | unfold emax, prec in Hbad; lia].
Qed.

Lemma to_Z_of_Z (n : Z) : 0 <= n < 2 ^ 53 -> to_Z (of_Z n) = Some n.
Proof.
  intros [Hn0 Hn]. destruct n as [| q | q]; [reflexivity | | lia].
  rewrite of_Z_pos by exact Hn.
  pose proof (digits_pos q) as Hd1.
  pose proof (digits_le_of_lt q 53 ltac:(lia) Hn) as Hd.
  assert (Hs : 0 < 2 ^ (53 - digits q)) by (apply pow2_pos; lia).
  unfold to_Z, mant.
  assert (Hmz : Zpos (Z.to_pos (Zpos q * 2 ^ (53 - digits q))) = Zpos q * 2 ^ (53 - digits q))
    by lia.
  rewrite Hmz.
  destruct (Z.leb_spec 0 (digits q - 53)) as [H0 | H0].
  - replace (digits q - 53) with 0 by lia. replace (53 - digits q) with 0 by lia.
    f_equal. rewrite !Z.pow_0_r. lia.
  - replace (- (digits q - 53)) with (53 - digits q) by lia.
    rewrite Z.mod_mul by lia. cbn [Z.eqb]. f_equal. apply Z.div_mul. lia.
Qed.

(** [Math.floor] of a positive number is the integer part of its value. *)
Lemma floor_to_Z (m : positive) (e : Z) :
  Zpos m < 2 ^ 53 ->
  to_Z (floor (S754_finite false m e)) =
    Some (if 0 <=? e then Zpos m * 2 ^ e else Zpos m / 2 ^ (- e)).
Proof.
  intros Hm. unfold floor.
  destruct (Z.leb_spec 0 e) as [He | He].
  - unfold to_Z, mant. destruct (Z.leb_spec 0 e); [reflexivity | lia].
  - assert (Hp : 0 < 2 ^ (- e)) by (apply pow2_pos; lia).
    fold (of_Z (Zpos m / 2 ^ (- e))). apply to_Z_of_Z. split.
    + apply Z.div_pos; lia.
    + eapply Z.le_lt_trans; [| exact Hm]. apply Z.div_le_upper_bound; nia.
Qed.

(** *** A draw times a limit *)

(** The product of a draw and a limit of at least one, rounded, is still
    below the limit; so is its integer part. *)
Lemma floor_mul_below (mr ml : positive) (er el : Z) :
  canonical mr er -> er <= -53 -> canonical ml el -> -52 <= el ->
  exists n,
    to_Z (floor (mul (S754_finite false mr er) (S754_finite false ml el))) = Some n /\
    0 <= n /\ below n (S754_finite false ml el).
Proof.
  intros Hr Her Hl Hel. rewrite mul_finite. cbn [xorb].
  pose proof (round_exact_below mr ml er el Hr Her Hl Hel) as (H0 & He2 & Hlt).
  pose proof (round_exact_mant (mr * ml) (er + el)) as [_ Hm53].
  destruct (round_exact (mr * ml) (er + el)) as [m2 e2]. cbn [fst snd] in *.
  pose proof (normal_mant ml el Hl Hel) as [Hml _].
  destruct Hl as [_ Hbl]. unfold emax, prec in Hbl.
  unfold below. cbn [mant expo].
  assert (Hpl : 0 < 2 ^ Z.max 0 el) by (apply pow2_pos; lia).
  destruct m2 as [| m2 | m2]; [| | lia].
  - exists 0. cbn. split; [reflexivity |]. split; [lia |]. nia.
  - unfold build. cbn [fst snd].
    destruct (Z.leb_spec e2 (emax - prec)) as [_ | Hbad]; [| unfold emax, prec in Hbad; lia].
    rewrite floor_to_Z by exact Hm53. eexists. split; [reflexivity |].
    assert (Hd : 0 < 2 ^ (el - e2)) by (apply pow2_pos; lia).
    destruct (Z.leb_spec 0 e2) as [Hpos | Hneg].
    + split; [apply Z.mul_nonneg_nonneg; [lia | apply Z.lt_le_incl, pow2_pos; lia] |].
      replace (Z.max 0 (- el)) with 0 by lia. replace (Z.max 0 el) with el by lia.
      rewrite Z.pow_0_r, Z.mul_1_r.
      assert (Hsp : 2 ^ el = 2 ^ (el - e2) * 2 ^ e2).
      { rewrite <- pow2_add by lia. f_equal; lia. }
      assert (0 < 2 ^ e2) by (apply pow2_pos; lia). nia.
    + assert (Hp2 : 0 < 2 ^ (- e2)) by (apply pow2_pos; lia).
      assert (Hq : 0 <= Zpos m2 / 2 ^ (- e2)) by (apply Z.div_pos; lia).
      split; [exact Hq |].
      pose proof (Z.mul_div_le (Zpos m2) (2 ^ (- e2)) Hp2) as Hfl.
      destruct (Z.le_gt_cases 0 el) as [Hel0 | Hel0].
      * replace (Z.max 0 (- el)) with 0 by lia. replace (Z.max 0 el) with el by lia.
        rewrite Z.pow_0_r, Z.mul_1_r.
        assert (Hsp : 2 ^ (el - e2) = 2 ^ el * 2 ^ (- e2)).
        { rewrite <- pow2_add by lia. f_equal; lia. }
        assert (0 < 2 ^ el) by (apply pow2_pos; lia). nia.
      * replace (Z.max 0 (- el)) with (- el) by lia. replace (Z.max 0 el) with 0 by lia.
        rewrite Z.pow_0_r, Z.mul_1_r.
        assert (Hsp : 2 ^ (- e2) = 2 ^ (- el) * 2 ^ (el - e2)).
        { rewrite <- pow2_add by lia. f_equal; lia. }
        assert (0 < 2 ^ (- el)) by (apply pow2_pos; lia). nia.
Qed.

(** An integer below an integral number is below the integer it denotes. *)
Lemma below_to_Z (n l : Z) (m : positive) (e : Z) :
  below n (S754_finite false m e) -> to_Z (S754_finite false m e) = Some l -> n < l.
Proof.
  unfold below, to_Z. cbn [mant expo]. intros Hb Hl.
  destruct (Z.leb_spec 0 e) as [He | He].
  - injection Hl as <-. replace (Z.max 0 (- e)) with 0 in Hb by lia.
    replace (Z.max 0 e) with e in Hb by lia. rewrite Z.pow_0_r in Hb. lia.
  - assert (Hp : 0 < 2 ^ (- e)) by (apply pow2_pos; lia).
    destruct (Z.eqb_spec (Zpos m mod 2 ^ (- e)) 0) as [Hmod | Hmod]; [| discriminate].
    injection Hl as <-.
    replace (Z.max 0 (- e)) with (- e) in Hb by lia.
    replace (Z.max 0 e) with 0 in Hb by lia. rewrite Z.pow_0_r in Hb.
    pose proof (Z.div_mod (Zpos m) (2 ^ (- e)) ltac:(lia)) as Hdm. nia.
Qed.
(** *** Reading back the digits of an integer *)

Lemma take_digits_uint (d : Decimal.uint) (acc cnt : Z) :
  take_digits (NilEmpty.string_of_uint d) acc cnt =
  (uint_value d acc, cnt + Z.of_nat (Decimal.nb_digits d), EmptyString).
Proof.
  revert acc cnt.
  induction d as [| d IH | d IH | d IH | d IH | d IH | d IH | d IH | d IH | d IH | d IH];
    intros acc cnt; cbn [NilEmpty.string_of_uint Decimal.nb_digits uint_value take_digits].
  1: { f_equal. f_equal. lia. }
  all: change (is_digit _) with true; cbn iota; rewrite IH; f_equal; f_equal; lia.
Qed.

Lemma of_uint_acc_value (d : Decimal.uint) (acc : positive) :
  Zpos (Pos.of_uint_acc d acc) = uint_value d (Zpos acc).
Proof.
  revert acc.
  induction d as [| d IH | d IH | d IH | d IH | d IH | d IH | d IH | d IH | d IH | d IH];
    intros acc; cbn [Pos.of_uint_acc uint_value].
  1: reflexivity.
  all: rewrite IH; f_equal; lia.
Qed.

Lemma of_uint_value (d : Decimal.uint) : Z.of_N (N.of_uint d) = uint_value d 0.
Proof.
  unfold N.of_uint.
  induction d as [| d IH | d IH | d IH | d IH | d IH | d IH | d IH | d IH | d IH | d IH];
    cbn [Pos.of_uint uint_value].
  1: reflexivity.
  1: exact IH.
  all: cbn [Z.of_N]; rewrite of_uint_acc_value; reflexivity.
Qed.

Lemma digits_of_uint (n : Z) :
  0 <= n ->
  digits_of n = NilEmpty.string_of_uint (N.to_uint (Z.to_N n)) /\
  uint_value (N.to_uint (Z.to_N n)) 0 = n /\
  N.to_uint (Z.to_N n) <> Decimal.Nil.
Proof.
  intros Hn. unfold digits_of.
  assert (Hnil : N.to_uint (Z.to_N n) <> Decimal.Nil).
  { destruct (Z.to_N n); [discriminate | apply Unsigned.to_uint_nonnil]. }
  split; [| split; [| exact Hnil]].
  - unfold NilZero.string_of_uint. destruct (N.to_uint (Z.to_N n)); congruence.
  - rewrite <- of_uint_value, DecimalN.Unsigned.of_to. lia.
Qed.

(** [parseFloat] on a string that starts with a digit: no white space, no
    sign and no [Infinity] to skip. *)
Lemma parseFloat_unsigned (c : ascii) (r : string) :
  is_digit c = true ->
  parseFloat (String c r) =
    let '(ip, ni, s2) := take_digits (String c r) 0 0 in
    let '(m, nf, s3) :=
      match s2 with
      | String "." r' => take_digits r' ip 0
      | _ => (ip, 0, s2)
      end in
    if ni + nf =? 0 then NaN else of_decimal false m (exponent_part s3 - nf).
Proof.
  intros Hc.
  destruct c as [[] [] [] [] [] [] [] []]; try discriminate Hc; reflexivity.
Qed.

Lemma of_decimal_integer (n : Z) : 0 <= n -> of_decimal false n 0 = of_Z n.
Proof.
  intros Hn. destruct n as [| p | p]; [reflexivity | | lia].
  unfold of_decimal, of_Z. cbn [Z.leb Z.compare].
  rewrite Z.pow_0_r, Z.mul_1_r. reflexivity.
Qed.

(** The digits of a natural number read back as that number. *)
Lemma parseFloat_digits_of (n : Z) :
  0 <= n ->
  parseFloat (digits_of n) = of_Z n /\ String.eqb (digits_of n) "" = false.
Proof.
  intros Hn. destruct (digits_of_uint n Hn) as (Hs & Hv & Hnil).
  pose proof (take_digits_uint (N.to_uint (Z.to_N n)) 0 0) as Htd.
  rewrite <- Hs, Hv in Htd.
  assert (Hlen : 0 < Z.of_nat (Decimal.nb_digits (N.to_uint (Z.to_N n)))).
  { destruct (N.to_uint (Z.to_N n)); [congruence | ..]; cbn [Decimal.nb_digits]; lia. }
  assert (Hhead : exists c r, digits_of n = String c r /\ is_digit c = true).
  { rewrite Hs. destruct (N.to_uint (Z.to_N n)); [congruence | ..];
      cbn [NilEmpty.string_of_uint]; eexists _, _; split; reflexivity. }
  destruct Hhead as (c & r & Hcr & Hc). split.
  - rewrite Hcr, parseFloat_unsigned by exact Hc. rewrite <- Hcr, Htd.
    destruct (Z.eqb_spec (0 + Z.of_nat (Decimal.nb_digits (N.to_uint (Z.to_N n))) + 0) 0);
      [lia |].
    cbn [exponent_part]. by apply of_decimal_integer.
  - rewrite Hcr. reflexivity.
Qed.

(** *** Two decimals of a product *)

Lemma nearest_scaled_exact (s : bool) (m : positive) (e n : Z) :
  e < 0 ->
  - 2 ^ (- e) <= 200 * Zpos m - 2 * n * 2 ^ (- e) < 2 ^ (- e) ->
  nearest_scaled (S754_finite s m e) 2 = n.
Proof.
  intros He Hn. unfold nearest_scaled.
  destruct (Z.leb_spec 0 e) as [Hbad | _]; [lia |].
  assert (HE : 0 < 2 ^ (- e)) by (apply pow2_pos; lia).
  assert (H2E : 2 ^ (1 - e) = 2 * 2 ^ (- e)).
  { replace (1 - e) with (- e + 1) by lia. apply pow2_succ. lia. }
  rewrite H2E. change (10 ^ 2) with 100.
  symmetry. apply Z.div_unique with (r := 200 * Zpos m + 2 ^ (- e) - 2 * n * 2 ^ (- e)); lia.
Qed.

Lemma scale_bounds (X E K : Z) :
  0 < K -> - (E * K) < X * K < E * K -> - E < X < E.
Proof.
  intros HK [Hlo Hhi]. split.
  - apply (Z.mul_lt_mono_pos_r K); [exact HK |]. lia.
  - apply (Z.mul_lt_mono_pos_r K); [exact HK | exact Hhi].
Qed.

(** A whole amount below [2^45] times a rate [mc * 2^ec] that is within
    [20 / 2^(-ec)] of [c] percent: the product, rounded, shows as exactly
    [c * a] hundredths. *)
Lemma percent_exact (a mc : positive) (ec c eps : Z) :
  Zpos a < 2 ^ 45 ->
  2 ^ 52 <= Zpos mc < 2 ^ 53 -> -58 <= ec <= -53 ->
  100 * Zpos mc = c * 2 ^ (- ec) + eps -> -20 <= eps <= 20 ->
  exists m2 e2,
    mul (of_Z (Zpos a)) (S754_finite false mc ec) = S754_finite false m2 e2 /\
    e2 < 0 /\
    nearest_scaled (S754_finite false m2 e2) 2 = c * Zpos a.
Proof.
  intros Ha Hmc Hec Hrate Heps.
  assert (Ha53 : Zpos a < 2 ^ 53) by (eapply Z.lt_le_trans; [exact Ha | apply pow2_le; lia]).
  rewrite of_Z_pos by exact Ha53.
  pose proof (digits_pos a) as Hda1.
  pose proof (digits_le_of_lt a 45 ltac:(lia) Ha) as Hda.
  pose proof (digits_bounds a) as [Halo Hahi].
  set (s := 53 - digits a) in *.
  assert (Hs : 8 <= s <= 52) by (unfold s; lia).
  assert (HS : 2 ^ 8 <= 2 ^ s) by (apply pow2_le; lia).
  set (ma := Z.to_pos (Zpos a * 2 ^ s)).
  assert (Hma : Zpos ma = Zpos a * 2 ^ s) by (unfold ma; lia).
  assert (Hma53 : 2 ^ 52 <= Zpos ma < 2 ^ 53).
  { rewrite Hma.
    assert (H52 : 2 ^ 52 = 2 ^ (digits a - 1) * 2 ^ s)
      by (rewrite <- pow2_add by lia; f_equal; unfold s; lia).
    assert (H53 : 2 ^ 53 = 2 ^ digits a * 2 ^ s)
      by (rewrite <- pow2_add by lia; f_equal; unfold s; lia).
    rewrite H52, H53. nia. }
  rewrite mul_finite. cbn [xorb].
  set (P := (ma * mc)%positive). set (e := digits a - 53 + ec).
  assert (HP : Zpos P = Zpos ma * Zpos mc) by reflexivity.
  assert (HPlo : 2 ^ 104 <= Zpos P) by (change (2 ^ 104) with (2 ^ 52 * 2 ^ 52); nia).
  assert (HPhi : Zpos P < 2 ^ 106) by (change (2 ^ 106) with (2 ^ 53 * 2 ^ 53); nia).
  pose proof (digits_bounds P) as [HdPlo HdPhi]. pose proof (digits_pos P) as HdP1.
  assert (Hd : 105 <= digits P <= 106).
  { split.
    - assert (104 < digits P) by (apply pow2_lt_inv; lia). lia.
    - assert (digits P - 1 < 106) by (apply pow2_lt_inv; lia). lia. }
  pose proof (round_exact_spec P e) as [_ Hround]. cbn zeta in Hround.
  assert (Hk : fexp prec emax (digits P + e) - e = digits P - 53).
  { unfold fexp, emin, prec, emax, e. lia. }
  rewrite Hk in Hround. specialize (Hround ltac:(lia)).
  set (k := digits P - 53) in *.
  assert (Hk5 : 52 <= k <= 53) by (unfold k; lia).
  pose proof (rne_bounds (Zpos P) k ltac:(lia) ltac:(lia)) as [[Hq1 _] [Hlo Hhi]].
  assert (HK : 0 < 2 ^ k) by (apply pow2_pos; lia).
  assert (HK53 : 2 ^ k <= 2 ^ 53) by (apply pow2_le; lia).
  assert (Hq : 2 ^ 52 <= Zpos P / 2 ^ k).
  { apply Z.div_le_lower_bound; [lia |].
    rewrite Z.mul_comm, <- pow2_add by lia.
    etransitivity; [| exact HdPlo]. apply pow2_le. unfold k. lia. }
  set (m1 := rne (Zpos P) k) in *.
  assert (HC : 2 ^ 53 <= 2 ^ (- ec)) by (apply pow2_le; lia).
  (* the distance between the rounded product and [c] percent of the amount *)
  assert (Hkey : - (2 ^ s * 2 ^ (- ec)) < 200 * (m1 * 2 ^ k) - 2 * (c * Zpos a) * (2 ^ s * 2 ^ (- ec))
                 < 2 ^ s * 2 ^ (- ec)).
  { assert (H200 : 200 * Zpos P = 2 * (c * Zpos a) * (2 ^ s * 2 ^ (- ec)) + 2 * Zpos ma * eps)
      by (rewrite HP, Hma; nia).
    assert (Heps1 : - (40 * 2 ^ 53) <= 2 * Zpos ma * eps <= 40 * 2 ^ 53) by nia.
    assert (Hbig : 140 * 2 ^ 53 < 2 ^ s * 2 ^ (- ec)).
    { assert (2 ^ 8 * 2 ^ 53 <= 2 ^ s * 2 ^ (- ec)) by (apply Z.mul_le_mono_nonneg; lia). lia. }
    lia. }
  assert (HSC : 2 ^ s * 2 ^ (- ec) = 2 ^ (- e)).
  { rewrite <- pow2_add by lia. f_equal. unfold e, s. lia. }
  rewrite HSC in Hkey.
  destruct Hround as [(H1 & H2 & H3) | (H1 & H2 & H3)];
    destruct (round_exact P e) as [m2 e2]; cbn [fst snd] in *; subst m2 e2.
  - (* the rounded mantissa fits *)
    unfold build. cbn [fst snd].
    destruct m1 as [| m1p | m1p] eqn:Hm1; [lia | | lia].
    destruct (Z.leb_spec (e + k) (emax - prec)) as [_ | Hbad];
      [| unfold emax, prec, e, k in Hbad; lia].
    exists m1p, (e + k). split; [reflexivity |]. split; [unfold e, k; lia |].
    apply nearest_scaled_exact; [unfold e, k; lia |].
    assert (HE : 0 < 2 ^ (- (e + k))) by (apply pow2_pos; unfold e, k; lia).
    assert (Hsp : 2 ^ (- e) = 2 ^ (- (e + k)) * 2 ^ k).
    { rewrite <- pow2_add by (unfold e, k; lia). f_equal; lia. }
    rewrite Hsp in Hkey.
    replace (200 * (Zpos m1p * 2 ^ k) - 2 * (c * Zpos a) * (2 ^ (- (e + k)) * 2 ^ k))
      with ((200 * Zpos m1p - 2 * (c * Zpos a) * 2 ^ (- (e + k))) * 2 ^ k) in Hkey by ring.
    apply scale_bounds in Hkey; [| exact HK]. lia.
  - (* the rounded mantissa is 2^53 and is halved *)
    unfold build. cbn [fst snd]. change (2 ^ 52) with (Zpos 4503599627370496).
    cbn iota.
    destruct (Z.leb_spec (e + k + 1) (emax - prec)) as [_ | Hbad];
      [| unfold emax, prec, e, k in Hbad; lia].
    exists 4503599627370496%positive, (e + k + 1).
    split; [reflexivity |]. split; [unfold e, k; lia |].
    apply nearest_scaled_exact; [unfold e, k; lia |].
    assert (HE : 0 < 2 ^ (- (e + k + 1))) by (apply pow2_pos; unfold e, k; lia).
    assert (Hsp : 2 ^ (- e) = 2 ^ (- (e + k + 1)) * (2 * 2 ^ k)).
    { rewrite <- pow2_succ, <- pow2_add by (unfold e, k; lia). f_equal; lia. }
    rewrite Hsp in Hkey. rewrite H1 in Hkey.
    change (2 ^ 53) with (2 * Zpos 4503599627370496) in Hkey.
    replace (200 * (2 * Zpos 4503599627370496 * 2 ^ k) -
             2 * (c * Zpos a) * (2 ^ (- (e + k + 1)) * (2 * 2 ^ k)))
      with ((200 * Zpos 4503599627370496 - 2 * (c * Zpos a) * 2 ^ (- (e + k + 1))) * (2 * 2 ^ k))
      in Hkey by ring.
    apply scale_bounds in Hkey; [| lia]. lia.
Qed.

(** Below [1e21], [toFixed] prints the nearest multiple of [10^-f]. *)
Lemma ten_to_21_eq : ten_to_21 = S754_finite false 7629394531250000 17.
Proof. vm_compute. reflexivity. Qed.

Lemma toFixed_small (m : positive) (e : Z) (f : nat) :
  e < 17 ->
  toFixed (S754_finite false m e) f =
  point_before_last f (nearest_scaled (S754_finite false m e) (Z.of_nat f)).
Proof.
  intros He. unfold toFixed. cbn [is_negative SFabs].
  unfold ge. rewrite ten_to_21_eq. cbv [SFleb SFcompare].
  destruct (Z.compare_spec 17 e) as [H | H | H]; [lia | lia | reflexivity].
Qed.

Lemma hundred_eq : Education.hundred = S754_finite false 7036874417766400 (-46).
Proof. vm_compute. reflexivity. Qed.

Lemma hundred_canonical : canonical 7036874417766400 (-46).
Proof. split; [vm_compute; reflexivity | vm_compute; discriminate]. Qed.
End JsNumberFacts.

(** ** The donation breakdown *)

Module BreakdownFacts.
Import JsNumber Rounding JsNumberFacts Js WebApp.
Local Open Scope Z_scope.

Lemma vip_rate_eq : vip_rate = S754_finite false 5764607523034235 (-58).
Proof. vm_compute. reflexivity. Qed.

Lemma equity_rate_eq : equity_rate = S754_finite false 5404319552844595 (-53).
Proof. vm_compute. reflexivity. Qed.

(** A whole amount read from its digits. *)
Lemma amount_or_zero_digits (a : Z) : 0 <= a -> amount_or_zero (digits_of a) = of_Z a.
Proof.
  intros Ha. destruct (parseFloat_digits_of a Ha) as [Hparse Hne].
  unfold amount_or_zero. by rewrite Hne.
Qed.

(** What the box shows for a whole amount and a rate as in [percent_exact]. *)
Lemma shown_share (a : Z) (mc : positive) (ec c eps : Z) :
  0 <= a < 2 ^ 45 ->
  2 ^ 52 <= Zpos mc < 2 ^ 53 -> -58 <= ec <= -53 ->
  100 * Zpos mc = c * 2 ^ (- ec) + eps -> -20 <= eps <= 20 ->
  toFixed (mul (of_Z a) (S754_finite false mc ec)) 2 = point_before_last 2 (c * a).
Proof.
  intros [Ha0 Ha] Hmc Hec Hrate Heps. destruct a as [| a | a]; [| | lia].
  - rewrite Z.mul_0_r. reflexivity.
  - destruct (percent_exact a mc ec c eps Ha Hmc Hec Hrate Heps) as (m2 & e2 & -> & He2 & Hn).
    rewrite toFixed_small by lia. change (Z.of_nat 2) with 2. by rewrite Hn.
Qed.

(** C1, as amended: the box shows a charity contribution of 5 rupees
    whatever is entered, a flat amount; and whenever the text entered reads
    as a whole amount [a] of rupees below [2^45], as the decimal digits of
    [a] do, it shows a VIP share of exactly 2 percent of [a] and a
    family-equity share of exactly 60 percent of [a]: [2 * a] and [60 * a]
    hundredths of a rupee, printed with two decimals. *)
Theorem breakdown_shares :
  (forall amount : string, charity (donation_breakdown amount) = rupee +:+ "5") /\
  (forall (amount : string) (a : Z),
     0 <= a < 2 ^ 45 -> amount_or_zero amount = of_Z a ->
     vip_income (donation_breakdown amount) = rupee +:+ point_before_last 2 (2 * a) /\
     family_equity (donation_breakdown amount) = rupee +:+ point_before_last 2 (60 * a)) /\
  (forall a : Z, 0 <= a -> amount_or_zero (digits_of a) = of_Z a).
Proof.
  split; [reflexivity |]. split; [| exact amount_or_zero_digits].
  intros amount a Ha Hamount. unfold donation_breakdown. cbn [vip_income family_equity].
  rewrite Hamount, vip_rate_eq, equity_rate_eq.
  rewrite (shown_share a 5764607523034235 (-58) 2 12 Ha) by (vm_compute; intuition congruence).
  rewrite (shown_share a 5404319552844595 (-53) 60 (-20) Ha) by (vm_compute; intuition congruence).
  split; reflexivity.
Qed.

Lemma breakdown_shares_witness :
  donation_breakdown "2500" =
    {| charity := rupee +:+ "5";
       vip_income := rupee +:+ "50.00";
       family_equity := rupee +:+ "1500.00" |}.
Proof.
  destruct breakdown_shares as (Hcharity & Hshares & Hdigits).
  destruct (Hshares "2500"%string 2500 ltac:(split; [discriminate | reflexivity])
              (Hdigits 2500 ltac:(discriminate))) as [Hvip Hequity].
  specialize (Hcharity "2500"%string).
  destruct (donation_breakdown "2500") as [c v f]. cbn [charity vip_income family_equity] in *.
  by rewrite Hcharity, Hvip, Hequity.
Defined.

(** C1 as stated fails.  The charity share is no percentage: the box shows
    5 rupees for a donation of 100 and for one of 200, and no percentage
    gives 5 of both.  The two other shares are rounded: for 1.1 rupees the
    VIP share shown is 0.02, and 2 percent of 1.1 is 0.022; for
    4503599627370497 rupees the family-equity share shown ends in .00, and
    60 percent of that amount ends in .20. *)
Lemma shares_are_not_all_percentages :
  (to_Z (shown_number (charity (donation_breakdown "100"))) = Some 5 /\
   to_Z (shown_number (charity (donation_breakdown "200"))) = Some 5 /\
   ~ (exists p : Q, 5 == p / 100 * 100 /\ 5 == p / 100 * 200)%Q) /\
  (vip_income (donation_breakdown "1.1") = rupee +:+ "0.02" /\
   ~ (2 # 100 == (2 # 100) * (11 # 10))%Q) /\
  (family_equity (donation_breakdown "4503599627370497") = rupee +:+ "2702159776422298.00" /\
   point_before_last 2 (60 * 4503599627370497) = "2702159776422298.20"%string).
Proof.
  split; [| split].
  - split; [vm_compute; reflexivity |]. split; [vm_compute; reflexivity |].
    intros (p & H100 & H200). lra.
  - split; [vm_compute; reflexivity |]. intros H. discriminate H.
  - split; vm_compute; reflexivity.
Qed.
End BreakdownFacts.

(** ** The mind-game request *)

Module EducationFacts.
Import JsNumber Rounding JsNumberFacts Js Education.
Local Open Scope Z_scope.

Lemma posted_app (t1 t2 : list Effect) : posted (t1 ++ t2) = posted t1 ++ posted t2.
Proof. unfold posted. apply flat_map_app. Qed.

(** [handlePlayGame] sends one request, built from the next two draws. *)
Lemma handlePlayGame_posted random server (game : MindGame) (s : Screen) :
  posted (trace (run (handlePlayGame random server game) s)) =
  posted (trace s) ++ [play_payload game (random (drawn s)) (random (S (drawn s)))].
Proof.
  cbv [run handlePlayGame bind setPlaying Math_random api_post perform ret
       fst snd playing gameResult drawn trace].
  destruct (server _ _) as [data | error]; [destruct data | destruct error];
    cbv [setGameResult snd trace]; rewrite ?posted_app;
    cbn [posted flat_map app]; by rewrite ?app_nil_r.
Qed.

(** The integer part of a draw times a limit of at least one. *)
Lemma floor_draw_below (r limit : number) :
  unit_interval r = true ->
  wf limit = true -> is_finite limit = true -> ge limit one = true ->
  exists n, to_Z (floor (mul r limit)) = Some n /\ 0 <= n /\ below n limit.
Proof.
  intros Hr Hwf Hfin Hge.
  destruct (at_least_one_cases limit Hwf Hfin Hge) as (ml & el & -> & Hl & Hel).
  destruct (unit_interval_cases r Hr) as [[s ->] | (mr & er & -> & Hcr & Her)].
  - exists 0. split; [reflexivity |]. split; [lia |].
    unfold below. cbn [mant expo].
    assert (0 < 2 ^ Z.max 0 el) by (apply pow2_pos; lia). nia.
  - by apply floor_mul_below.
Qed.

(** C9, as amended: for a game whose time limit is a finite number of at
    least one, and draws in the unit interval, the request carries an
    integer score between 0 and 99 and an integer time taken that is at
    least 0 and strictly below the time limit; when the limit is itself an
    integer, the time taken is at most the limit minus one. *)
Theorem play_request_in_range :
  forall random server (game : MindGame) (s : Screen),
    (forall i, unit_interval (random i) = true) ->
    wf (time_limit_seconds game) = true ->
    is_finite (time_limit_seconds game) = true ->
    ge (time_limit_seconds game) one = true ->
    exists score time_taken n_score n_time,
      posted (trace (run (handlePlayGame random server game) s)) =
        posted (trace s) ++
        [ JsObj [ ("game_id", JsStr (game_id game));
                  ("score", JsNum score);
                  ("time_taken", JsNum time_taken) ] ] /\
      to_Z score = Some n_score /\ 0 <= n_score <= 99 /\
      to_Z time_taken = Some n_time /\ 0 <= n_time /\
      below n_time (time_limit_seconds game) /\
      (forall l, to_Z (time_limit_seconds game) = Some l -> n_time <= l - 1).
Proof.
  intros random server game s Hrandom Hwf Hfin Hge.
  destruct (floor_draw_below (random (drawn s)) hundred (Hrandom _))
    as (n1 & Hn1 & Hn1pos & Hn1lt); [rewrite hundred_eq; reflexivity .. |].
  destruct (floor_draw_below (random (S (drawn s))) (time_limit_seconds game)
              (Hrandom _) Hwf Hfin Hge) as (n2 & Hn2 & Hn2pos & Hn2lt).
  exists (floor (mul (random (drawn s)) hundred)),
         (floor (mul (random (S (drawn s))) (time_limit_seconds game))), n1, n2.
  split; [apply handlePlayGame_posted |].
  split; [exact Hn1 |]. split.
  { split; [exact Hn1pos |]. rewrite hundred_eq in Hn1lt.
    pose proof (below_to_Z n1 100 _ _ Hn1lt eq_refl). lia. }
  split; [exact Hn2 |]. split; [exact Hn2pos |]. split; [exact Hn2lt |].
  intros l Hl.
  destruct (at_least_one_cases _ Hwf Hfin Hge) as (ml & el & Heq & _ & _).
  rewrite Heq in Hn2lt, Hl. pose proof (below_to_Z n2 l ml el Hn2lt Hl). lia.
Qed.

Lemma play_request_in_range_witness :
  exists score time_taken,
    posted (trace (run (handlePlayGame steady_random silent_server
                          (sample_game (of_decimal false 60 0))) idle_screen)) =
      [ JsObj [ ("game_id", JsStr "memory-1");
                ("score", JsNum score);
                ("time_taken", JsNum time_taken) ] ] /\
    to_Z score = Some 75 /\ to_Z time_taken = Some 45.
Proof.
  destruct (play_request_in_range steady_random silent_server
              (sample_game (of_decimal false 60 0)) idle_screen)
    as (score & time_taken & n1 & n2 & Hposted & _);
    [intros i; vm_compute; reflexivity | vm_compute; reflexivity ..|].
  exists score, time_taken. split; [exact Hposted |].
  cbn [posted trace idle_screen flat_map app] in Hposted.
  rewrite handlePlayGame_posted in Hposted. cbn [posted trace idle_screen flat_map app] in Hposted.
  injection Hposted as <- <-. split; vm_compute; reflexivity.
Defined.

(** C9 as stated fails for a limit that is not an integer: with a time
    limit of 1.5 seconds and a draw of 0.75 the time taken is
    [Math.floor(1.125)], that is 1, and [1 <= 1.5 - 1] is false, although
    the limit is at least one and the draw is in the unit interval. *)
Lemma time_taken_above_limit_minus_one :
  let limit := of_decimal false 15 (-1) in
  let game := sample_game limit in
  (forall i, unit_interval (steady_random i) = true) /\
  wf limit = true /\ is_finite limit = true /\ ge limit one = true /\
  posted (trace (run (handlePlayGame steady_random silent_server game) idle_screen)) =
    [ JsObj [ ("game_id", JsStr "memory-1");
              ("score", JsNum (of_Z 75));
              ("time_taken", JsNum (of_Z 1)) ] ] /\
  le (of_Z 1) (sub limit one) = false.
Proof.
  cbn zeta. split; [intros i |]; vm_compute; repeat split.
Qed.
End EducationFacts.


(** ** The donate page and the auth provider *)

Module WebAppFacts.
Import JsNumber Js WebApp.

Ltac unfold_handlers :=
  unfold run, handleSubmit, login, logout, api_post, setItem, removeItem,
    setUser, setLoading, setSubmitted, setSubmitting, bind, ret, get, modify,
    perform, with_storage, with_auth, with_donate in *;
  cbn [fst snd localStorage auth donate trace user loading] in *.

Lemma requests_app (t1 t2 : list Effect) :
  requests (t1 ++ t2) = requests t1 ++ requests t2.
Proof. unfold requests. apply flat_map_app. Qed.

(** What [handleSubmit] does without a user. *)
Lemma handleSubmit_signed_out server (w : World) :
  truthy (user (auth w)) = false ->
  run (handleSubmit server) w =
    {| localStorage := localStorage w; auth := auth w; donate := donate w;
       trace := trace w ++ [PreventDefault; NavigateTo "/login"] |}.
Proof.
  intros Hu. unfold_handlers. rewrite Hu. cbn.
  by rewrite <- app_assoc.
Qed.

(** What [handleSubmit] does with a user. *)
Lemma handleSubmit_signed_in server (w : World) :
  truthy (user (auth w)) = true ->
  let r := {| req_method := POST; req_url := "/donations";
              req_authorization := authorization (localStorage w);
              req_body := donation_payload (donate w) |} in
  run (handleSubmit server) w =
    {| localStorage := localStorage w;
       auth := auth w;
       donate := {| amount := amount (donate w);
                    donorName := donorName (donate w);
                    donorPhone := donorPhone (donate w);
                    message := message (donate w);
                    submitted := match server r with
                                 | Resolved _ => true
                                 | Rejected _ => submitted (donate w)
                                 end;
                    submitting := false |};
       trace := trace w ++ [PreventDefault; Http r] ++
                match server r with
                | Resolved _ => []
                | Rejected error => [ConsoleError "Error submitting donation:" error]
                end |}.
Proof.
  intros Hu r. unfold_handlers. rewrite Hu. cbn.
  fold r. destruct (server r); cbn; f_equal; by rewrite <- !app_assoc.
Qed.

(** Typing in the amount field changes the amount cell only, and with it
    the breakdown shown. *)
Lemma setAmount_breakdown (v : string) (w : World) :
  submitted (donate w) = false -> truthy (user (auth w)) = true ->
  shown_breakdown (DonatePage (run (setAmount v) w)) = Some (donation_breakdown v).
Proof.
  intros Hs Hu. unfold DonatePage, run, setAmount, modify, with_donate. cbn.
  by rewrite Hs, Hu.
Qed.

(** After [logout] a reload of the page restores no session: the mount
    effect finds no entry and only ends the loading. *)
Lemma no_session_after_logout JSON_parse (w : World) :
  let w' := run (restore_session JSON_parse) (run logout w) in
  user (auth w') = JsNull /\ loading (auth w') = false /\
  localStorage w' = delete "user" (delete "token" (localStorage w)).
Proof.
  cbn zeta. unfold restore_session. unfold_handlers.
  rewrite lookup_delete_ne by done. rewrite lookup_delete_eq. cbn. done.
Qed.

(** C7: without an authenticated user the protected behaviour is not
    reached.  Once loading is over the /dashboard route is a redirect to
    /login, and it is never the dashboard, loading or not; submitting the
    donate form only prevents the default and navigates to /login: no
    request is added to the trace, and the storage, the auth state and the
    donation state stay as they are. *)
Theorem signed_out_reaches_nothing_protected :
  forall server (w : World),
    truthy (user (auth w)) = false ->
    (loading (auth w) = false ->
       route (auth w) "/dashboard" = Some (Navigate "/login")) /\
    route (auth w) "/dashboard" <> Some (Show DashboardPage) /\
    let w' := run (handleSubmit server) w in
    trace w' = trace w ++ [PreventDefault; NavigateTo "/login"] /\
    requests (trace w') = requests (trace w) /\
    donate w' = donate w /\
    auth w' = auth w /\
    localStorage w' = localStorage w.
Proof.
  intros server w Hu. split; [| split].
  - intros Hl. unfold route, ProtectedRoute. cbn. by rewrite Hl, Hu.
  - unfold route, ProtectedRoute. cbn. rewrite Hu.
    destruct (loading (auth w)); cbn; congruence.
  - cbn zeta. rewrite handleSubmit_signed_out by exact Hu. cbn.
    repeat split. rewrite requests_app. cbn. by rewrite app_nil_r.
Qed.

(** The edits of the form change its cells and nothing else. *)
Lemma edits_run (es : list Edit) (w : World) :
  run (edits es) w =
    {| localStorage := localStorage w; auth := auth w;
       donate := fold_left (fun d e => typed e d) es (donate w);
       trace := trace w |}.
Proof.
  revert w. induction es as [| e rest IH]; intros w.
  - destruct w. reflexivity.
  - unfold run in *. cbn [edits]. unfold bind.
    destruct e; cbn [onChange]; unfold setAmount, setDonorName, setDonorPhone, setMessage, modify;
      rewrite IH; reflexivity.
Qed.

Lemma amount_after_fold (es : list Edit) (d : DonateState) :
  amount (fold_left (fun d e => typed e d) es d) = amount_after es (amount d).
Proof.
  revert d. induction es as [| e rest IH]; intros d; [reflexivity |].
  cbn [fold_left]. rewrite IH. destruct e; reflexivity.
Qed.

Lemma flags_after_fold (es : list Edit) (d : DonateState) :
  submitted (fold_left (fun d e => typed e d) es d) = submitted d /\
  submitting (fold_left (fun d e => typed e d) es d) = submitting d.
Proof.
  revert d. induction es as [| e rest IH]; intros d; [split; reflexivity |].
  cbn [fold_left]. destruct (IH (typed e d)) as [H1 H2]. rewrite H1, H2.
  destruct e; split; reflexivity.
Qed.

(** What [handleSubmit] does with a user when the form is edited while the
    request is pending. *)
Lemma handleSubmit_pending_signed_in server (pending : list Edit) (w : World) :
  truthy (user (auth w)) = true ->
  let r := {| req_method := POST; req_url := "/donations";
              req_authorization := authorization (localStorage w);
              req_body := donation_payload (donate w) |} in
  let d := fold_left (fun d e => typed e d) pending (donate w) in
  run (handleSubmit_pending server pending) w =
    {| localStorage := localStorage w;
       auth := auth w;
       donate := {| amount := amount d;
                    donorName := donorName d;
                    donorPhone := donorPhone d;
                    message := message d;
                    submitted := match server r with
                                 | Resolved _ => true
                                 | Rejected _ => submitted (donate w)
                                 end;
                    submitting := false |};
       trace := trace w ++ [PreventDefault; Http r] ++
                match server r with
                | Resolved _ => []
                | Rejected error => [ConsoleError "Error submitting donation:" error]
                end |}.
Proof.
  intros Hu r d.
  unfold run, handleSubmit_pending, submit_begin, bind at 1 2 3 4 5 6.
  unfold modify at 1, get, setSubmitting, modify at 1.
  cbn [fst snd auth perform with_donate]. rewrite Hu. cbn [negb].
  unfold modify, ret. cbn [fst snd].
  match goal with |- snd (bind (edits pending) _ ?w1) = _ =>
    pose proof (edits_run pending w1) as He; unfold run in He;
    unfold bind; destruct (edits pending w1) as [u w2]; cbn [snd] in He; subst w2
  end.
  cbn [perform with_donate localStorage auth donate trace].
  fold r.
  set (d0 := {| amount := amount (donate w); donorName := donorName (donate w);
                donorPhone := donorPhone (donate w); message := message (donate w);
                submitted := submitted (donate w); submitting := true |}).
  assert (Hd : forall es d1 d2,
             amount d1 = amount d2 -> donorName d1 = donorName d2 ->
             donorPhone d1 = donorPhone d2 -> message d1 = message d2 ->
             let f1 := fold_left (fun d e => typed e d) es d1 in
             let f2 := fold_left (fun d e => typed e d) es d2 in
             amount f1 = amount f2 /\ donorName f1 = donorName f2 /\
             donorPhone f1 = donorPhone f2 /\ message f1 = message f2).
  { induction es as [| e rest IH]; intros d1 d2 H1 H2 H3 H4; [cbn; tauto |].
    cbn [fold_left]. apply IH; destruct e; cbn; first [assumption | reflexivity]. }
  destruct (Hd pending d0 (donate w) eq_refl eq_refl eq_refl eq_refl) as (A1 & A2 & A3 & A4).
  destruct (flags_after_fold pending d0) as [F1 F2].
  fold d in A1, A2, A3, A4.
  unfold submit_resume, bind, setSubmitted, setSubmitting, modify, ret, with_donate, perform.
  destruct (server r); cbn [fst snd localStorage auth donate trace
                            amount donorName donorPhone message submitted submitting];
    rewrite ?A1, ?A2, ?A3, ?A4, ?F1; cbn [d0 submitted];
    f_equal; rewrite <- ?app_assoc; cbn [app]; rewrite ?app_nil_r; reflexivity.
Qed.

(** Without edits, [handleSubmit_pending] is [handleSubmit]. *)
Lemma handleSubmit_pending_nil server (w : World) :
  run (handleSubmit_pending server []) w = run (handleSubmit server) w.
Proof.
  destruct (truthy (user (auth w))) eqn:Hu.
  - rewrite handleSubmit_pending_signed_in, handleSubmit_signed_in by exact Hu.
    reflexivity.
  - rewrite handleSubmit_signed_out by exact Hu.
    unfold run, handleSubmit_pending, submit_begin, bind, modify, get, ret.
    cbn [fst snd auth perform]. rewrite Hu. cbn.
    unfold perform. cbn [localStorage auth donate trace].
    rewrite <- app_assoc. reflexivity.
Qed.

(** C4: with an authenticated user, submitting the form adds exactly one
    request to the trace, a POST to /donations whose amount field is
    [parseFloat] of the amount entered when the form was submitted.  When
    that request resolves the page shows the success card, which repeats
    the amount cell as it is then: the amount posted when the field was
    not edited while the request was pending, the last amount typed
    otherwise. *)
Theorem signed_in_submit_posts_once :
  forall server (pending : list Edit) (w : World),
    truthy (user (auth w)) = true ->
    let w' := run (handleSubmit_pending server pending) w in
    exists r,
      requests (trace w') = requests (trace w) ++ [r] /\
      req_method r = POST /\
      req_url r = "/donations" /\
      opt_get "amount" (req_body r) = JsNum (parseFloat (amount (donate w))) /\
      (forall response, server r = Resolved response ->
         DonatePage w' =
           SuccessCard
             ("Thank you for your generous donation of " +:+ rupee +:+
              amount_after pending (amount (donate w)))
             [ "💚 " +:+ rupee +:+ "5 will go directly to charity fund";
               "🎁 2% VIP gift income activated";
               "🔒 60% secured in family equity" ]) /\
      ((forall v, ~ In (TypeAmount v) pending) ->
         amount_after pending (amount (donate w)) = amount (donate w)) /\
      run (handleSubmit_pending server []) w = run (handleSubmit server) w.
Proof.
  intros server pending w Hu w'. subst w'.
  rewrite (handleSubmit_pending_signed_in server pending w Hu). cbn zeta.
  eexists. split; [| split; [| split; [| split; [| split; [| split]]]]].
  - cbn [trace]. rewrite requests_app. f_equal. cbn.
    destruct (server _); reflexivity.
  - reflexivity.
  - reflexivity.
  - reflexivity.
  - intros response Hr. unfold DonatePage. cbn [donate submitted amount]. rewrite Hr.
    rewrite amount_after_fold. reflexivity.
  - generalize (amount (donate w)). induction pending as [| e rest IH]; intros a Hno.
    + reflexivity.
    + destruct e; cbn [amount_after];
        try (apply IH; intros v' Hin; apply (Hno v'); right; exact Hin).
      exfalso. apply (Hno v). left. reflexivity.
  - apply handleSubmit_pending_nil.
Qed.

Lemma signed_out_reaches_nothing_protected_witness :
  route (auth fresh_tab) "/dashboard" = Some (Navigate "/login") /\
  run (handleSubmit failing_server) fresh_tab =
    perform (NavigateTo "/login") (perform PreventDefault fresh_tab).
Proof.
  destruct (signed_out_reaches_nothing_protected failing_server fresh_tab)
    as (Hroute & _ & Htrace & _); [reflexivity |].
  split; [apply Hroute; reflexivity | reflexivity].
Defined.

Lemma signed_in_submit_posts_once_witness :
  exists r,
    requests (trace (run (handleSubmit_pending accepting_server [TypeMessage "for the patients"])
                         (donor_tab "100"))) = [r] /\
    opt_get "amount" (req_body r) = JsNum (S754_finite false 7036874417766400 (-46)) /\
    DonatePage (run (handleSubmit_pending accepting_server [TypeMessage "for the patients"])
                    (donor_tab "100")) =
      SuccessCard "Thank you for your generous donation of ₹100"
        [ "💚 ₹5 will go directly to charity fund";
          "🎁 2% VIP gift income activated";
          "🔒 60% secured in family equity" ].
Proof.
  destruct (signed_in_submit_posts_once accepting_server [TypeMessage "for the patients"]
              (donor_tab "100"))
    as (r & Hreq & _ & _ & Hamount & Hcard & _); [reflexivity |].
  exists r. split; [exact Hreq | split; [exact Hamount |]].
  exact (Hcard (JsObj []) eq_refl).
Defined.

(** C4, the counterexample to the echo of the posted amount: the visitor
    submits 100 and types 200 into the amount field while the request is
    pending; the request carries 100 and the success card thanks for 200. *)
Lemma success_card_echoes_a_later_amount :
  exists r,
    requests (trace (run (handleSubmit_pending accepting_server [TypeAmount "200"])
                         (donor_tab "100"))) = [r] /\
    opt_get "amount" (req_body r) = JsNum (parseFloat "100") /\
    parseFloat "100" <> parseFloat "200" /\
    DonatePage (run (handleSubmit_pending accepting_server [TypeAmount "200"])
                    (donor_tab "100")) =
      SuccessCard "Thank you for your generous donation of ₹200"
        [ "💚 ₹5 will go directly to charity fund";
          "🎁 2% VIP gift income activated";
          "🔒 60% secured in family equity" ].
Proof.
  eexists. split; [reflexivity |]. split; [reflexivity |].
  split; [vm_compute; discriminate | reflexivity].
Defined.

(** C5: the breakdown shown is a function of the amount string alone.
    Two states of the page that hold the same amount and show the box show
    the same three values, whoever the user is and whatever the other
    cells and the storage hold; the values are [donation_breakdown] of the
    amount. *)
Theorem breakdown_depends_on_amount_only :
  forall (w1 w2 : World) (b1 b2 : Breakdown),
    amount (donate w1) = amount (donate w2) ->
    shown_breakdown (DonatePage w1) = Some b1 ->
    shown_breakdown (DonatePage w2) = Some b2 ->
    b1 = b2 /\ b1 = donation_breakdown (amount (donate w1)).
Proof.
  intros w1 w2 b1 b2 Ha H1 H2.
  unfold DonatePage, shown_breakdown in H1, H2.
  destruct (submitted (donate w1)); [discriminate |].
  destruct (submitted (donate w2)); [discriminate |].
  destruct (truthy (user (auth w1))); [| discriminate].
  destruct (truthy (user (auth w2))); [| discriminate].
  cbn in H1, H2. injection H1 as <-. injection H2 as <-.
  by rewrite Ha.
Qed.

Lemma breakdown_depends_on_amount_only_witness :
  shown_breakdown (DonatePage (donor_tab "250")) =
  shown_breakdown (DonatePage
    {| localStorage := ∅;
       auth := {| user := JsStr "someone else"; loading := true |};
       donate := {| amount := "250"; donorName := JsNull; donorPhone := JsNull;
                    message := "hello"; submitted := false; submitting := true |};
       trace := [PreventDefault] |}).
Proof.
  set (w2 := {| localStorage := ∅; auth := _; donate := _; trace := _ |}).
  destruct (breakdown_depends_on_amount_only (donor_tab "250") w2
              (donation_breakdown "250") (donation_breakdown "250"))
    as [_ _]; reflexivity.
Defined.

(** C8: logout after login.  Whatever the token and the user data, after
    [login] and then [logout] the storage has neither a token nor a user
    entry and the user of the provider is [null]; the other entries of the
    storage and the rest of the tab are as before [login], so on a
    signed-out tab the two calls together change nothing. *)
Theorem logout_undoes_login :
  forall ToString JSON_stringify (token userData : JsValue) (w : World),
    let w' := run (logout) (run (login ToString JSON_stringify token userData) w) in
    localStorage w' !! "token" = None /\
    localStorage w' !! "user" = None /\
    user (auth w') = JsNull /\
    (forall k, k <> "token" -> k <> "user" -> localStorage w' !! k = localStorage w !! k) /\
    (signed_out w -> w' = w).
Proof.
  intros ToString JSON_stringify token userData w w'. subst w'.
  unfold_handlers.
  split; [| split; [| split; [| split]]].
  - rewrite lookup_delete_ne by done. by rewrite lookup_delete_eq.
  - by rewrite lookup_delete_eq.
  - reflexivity.
  - intros k Ht Hu. by rewrite !lookup_delete_ne, !lookup_insert_ne.
  - intros (Hnull & Htok & Husr). destruct w as [st [u l] d t]. cbn in *.
    subst u. f_equal.
    apply map_eq. intros k.
    destruct (decide (k = "user")) as [-> | Hk1]; [by rewrite lookup_delete_eq |].
    rewrite lookup_delete_ne by done.
    destruct (decide (k = "token")) as [-> | Hk2]; [by rewrite lookup_delete_eq |].
    by rewrite lookup_delete_ne, !lookup_insert_ne.
Qed.

Lemma logout_undoes_login_witness :
  run logout
    (run (login (fun _ => "t0") (fun v => v) (JsStr "t0") sample_user) fresh_tab)
  = fresh_tab.
Proof.
  apply (logout_undoes_login (fun _ => "t0") (fun v => v) (JsStr "t0") sample_user fresh_tab).
  repeat split.
Defined.
End WebAppFacts.

(** ** Shared facts of the handlers with [try] and [catch] *)

Module FlowFacts.
Import Js Flow.

Lemma length_snoc {A} (l : list A) (x : A) : length (l ++ [x]) = S (length l).
Proof. rewrite length_app. simpl. lia. Qed.

(** [a || b] with a truthy [b] is truthy. *)
Lemma or_else_truthy (a b : JsValue) : truthy b = true -> truthy (or_else a b) = true.
Proof. intros Hb. unfold or_else. destruct (truthy a) eqn:E; [exact E | exact Hb]. Qed.
End FlowFacts.

(** ** The web client: login, registration, the landing page and the dashboard *)

Module SiteFacts.
Import Js WebApp Flow Site.
Import FlowFacts.

Ltac run_flow :=
  cbv [run outcome login_handleSubmit register_handleSubmit fetchStats dashboard_fetchData
       bind ret throw try_catch finally get modify read nullish detail_or
       send await await_all2 await_all3 lift navigate console_error
       setLoginError setLoginLoading setRegisterError setRegisterLoading
       setStats setPlatformFees setDashboardStats setDonations setFamilyEquity
       with_tab with_login_form with_register_form with_landing with_dashboard
       login setItem setUser WebApp.bind WebApp.modify WebApp.ret
       with_storage with_auth perform login_request register_request get_request
       has_body body_of
       tab login_form register_form landing dashboard console
       login_email login_password login_error login_loading
       register_name register_email register_phone register_password register_error register_loading
       stats platformFees dashboard_stats donations familyEquity
       localStorage auth donate trace user loading fst snd].

Ltac open_browser b :=
  destruct b as [[?ls [?u ?l] ?d ?t] ?lf ?rf ?la ?da ?co].

Lemma requests_snoc (t : list Effect) (e : Effect) :
  requests (t ++ [e]) = requests t ++ match e with Http r => [r] | _ => [] end.
Proof.
  unfold requests. rewrite flat_map_app. simpl. rewrite app_nil_r. reflexivity.
Qed.

Lemma navigations_snoc (t : list Effect) (e : Effect) :
  navigations (t ++ [e]) = navigations t ++ match e with NavigateTo p => [p] | _ => [] end.
Proof.
  unfold navigations. rewrite flat_map_app. simpl. rewrite app_nil_r. reflexivity.
Qed.

Lemma lookup_other_keys (m : gmap string string) (a b k : string) :
  k <> "token" -> k <> "user" ->
  (<["user" := b]> (<["token" := a]> m)) !! k = m !! k.
Proof.
  intros H1 H2. rewrite lookup_insert_ne by congruence.
  rewrite lookup_insert_ne by congruence. reflexivity.
Qed.

(** X1: whatever the reply, [handleSubmit] of [LoginPage] sends one request,
    the typed email and password to [/auth/login]; it ends with the
    button enabled again; and it writes no entry of the storage but
    [token] and [user]. *)
Theorem login_submit_in_every_case server ToString JSON_stringify (b : Browser) :
  let b' := run (login_handleSubmit server ToString JSON_stringify) b in
  requests (trace (tab b')) = requests (trace (tab b)) ++ [login_request b] /\
  req_body (login_request b) =
    JsObj [ ("email", JsStr (login_email (login_form b)));
            ("password", JsStr (login_password (login_form b))) ] /\
  login_loading (login_form b') = false /\
  (forall k, k <> "token" -> k <> "user" ->
     localStorage (tab b') !! k = localStorage (tab b) !! k).
Proof.
  open_browser b. destruct lf as [em pw er lo]. run_flow. rewrite length_snoc.
  destruct (server _ _) as [response | error].
  - destruct (opt_get "data" response) eqn:Hd;
      repeat rewrite requests_snoc; rewrite <- ?app_assoc;
      (split; [simpl; rewrite ?app_nil_r; reflexivity |]);
      (split; [reflexivity |]); (split; [reflexivity |]);
      intros k H1 H2; try reflexivity; apply lookup_other_keys; assumption.
  - destruct error; repeat rewrite requests_snoc; rewrite <- ?app_assoc;
      (split; [simpl; rewrite ?app_nil_r; reflexivity |]);
      (split; [reflexivity |]); (split; [reflexivity |]);
      intros k H1 H2; reflexivity.
Qed.

(** What [handleSubmit] of [LoginPage] does on a reply with a body. *)
Lemma login_success_session server ToString JSON_stringify
    (b : Browser) (response : JsValue) :
  server (S (length (trace (tab b)))) (login_request b) = Resolved response ->
  nullish (opt_get "data" response) = false ->
  let data := opt_get "data" response in
  let b' := run (login_handleSubmit server ToString JSON_stringify) b in
  localStorage (tab b') =
    <["user" := ToString (JSON_stringify (opt_get "user" data))]>
      (<["token" := ToString (opt_get "access_token" data)]> (localStorage (tab b))) /\
  auth (tab b') = {| user := opt_get "user" data; loading := loading (auth (tab b)) |} /\
  trace (tab b') =
    trace (tab b) ++ [PreventDefault; Http (login_request b); NavigateTo "/dashboard"] /\
  donate (tab b') = donate (tab b) /\
  login_error (login_form b') = JsStr "" /\
  outcome (login_handleSubmit server ToString JSON_stringify) b = Done tt.
Proof.
  open_browser b. destruct lf as [em pw er lo].
  cbv [login_request tab trace localStorage auth loading login_form login_email login_password].
  intros Hp Hd. run_flow. rewrite length_snoc. rewrite Hp.
  destruct (opt_get "data" response) eqn:E; try discriminate Hd;
    rewrite <- !app_assoc; simpl; repeat split.
Qed.

(** X2: a reply with a body signs the visitor in: token and user are stored,
    the user is set, the handler navigates to [/dashboard], and that route
    shows the dashboard when the body carries a user, the redirection to
    [/login] when it does not. *)
Theorem login_success_opens_dashboard server ToString JSON_stringify
    (b : Browser) (response : JsValue) :
  server (S (length (trace (tab b)))) (login_request b) = Resolved response ->
  nullish (opt_get "data" response) = false ->
  loading (auth (tab b)) = false ->
  let data := opt_get "data" response in
  let b' := run (login_handleSubmit server ToString JSON_stringify) b in
  outcome (login_handleSubmit server ToString JSON_stringify) b = Done tt /\
  localStorage (tab b') =
    <["user" := ToString (JSON_stringify (opt_get "user" data))]>
      (<["token" := ToString (opt_get "access_token" data)]> (localStorage (tab b))) /\
  user (auth (tab b')) = opt_get "user" data /\
  navigations (trace (tab b')) = navigations (trace (tab b)) ++ ["/dashboard"] /\
  login_error (login_form b') = JsStr "" /\
  route (auth (tab b')) "/dashboard" =
    Some (if truthy (opt_get "user" data) then Show DashboardPage else Navigate "/login").
Proof.
  intros Hp Hd Hl data b'.
  destruct (login_success_session server ToString JSON_stringify b response Hp Hd)
    as (Hst & Hau & Htr & _ & Her & Hout).
  fold data b' in Hst, Hau, Htr, Her.
  repeat split; try assumption.
  - rewrite Hau. reflexivity.
  - rewrite Htr. unfold navigations. rewrite flat_map_app. reflexivity.
  - rewrite Hau, Hl. unfold route, ProtectedRoute. simpl.
    destruct (truthy (opt_get "user" data)); reflexivity.
Qed.

Lemma login_success_opens_dashboard_witness :
  let b' := run (login_handleSubmit welcoming_server text_of (fun v => v)) fresh_browser in
  user (auth (tab b')) = sample_user /\
  route (auth (tab b')) "/dashboard" = Some (Show DashboardPage).
Proof.
  pose proof (login_success_opens_dashboard welcoming_server text_of (fun v => v)
                fresh_browser _ eq_refl eq_refl eq_refl) as H.
  cbv zeta in H. destruct H as (_ & _ & Hu & _ & _ & Hr).
  split; [exact Hu | exact Hr].
Defined.

(** X3: a rejected request leaves the visitor signed out: storage and user
    are as before, nothing navigates and the button is enabled again.  The
    error cell then holds the detail of the reply, or "Login failed" when
    there is none, a truthy value in both cases; when the request is
    rejected with [null] or [undefined] the [catch] itself throws, the
    cell stays empty and the handler rejects. *)
Theorem login_rejected_shows_message server ToString JSON_stringify
    (b : Browser) (error : JsValue) :
  server (S (length (trace (tab b)))) (login_request b) = Rejected error ->
  let b' := run (login_handleSubmit server ToString JSON_stringify) b in
  localStorage (tab b') = localStorage (tab b) /\
  auth (tab b') = auth (tab b) /\
  navigations (trace (tab b')) = navigations (trace (tab b)) /\
  login_loading (login_form b') = false /\
  if nullish error then
    login_error (login_form b') = JsStr "" /\
    outcome (login_handleSubmit server ToString JSON_stringify) b = Threw TypeError
  else
    login_error (login_form b') =
      or_else (opt_get "detail" (opt_get "data" (opt_get "response" error)))
              (JsStr "Login failed") /\
    truthy (login_error (login_form b')) = true /\
    outcome (login_handleSubmit server ToString JSON_stringify) b = Done tt.
Proof.
  open_browser b. destruct lf as [em pw er lo].
  cbv [login_request tab trace localStorage auth loading login_form login_email login_password].
  intros Hp. run_flow. rewrite length_snoc. rewrite Hp.
  destruct error; cbn [fst snd];
    rewrite ?navigations_snoc, ?app_nil_r; repeat split;
    apply or_else_truthy; reflexivity.
Qed.

Lemma login_rejected_shows_message_witness :
  localStorage (tab (run (login_handleSubmit refusing_server text_of (fun v => v))
                       fresh_browser)) = ∅ /\
  login_error (login_form (run (login_handleSubmit refusing_server text_of (fun v => v))
                             fresh_browser)) = JsStr "Invalid credentials".
Proof.
  pose proof (login_rejected_shows_message refusing_server text_of (fun v => v)
                fresh_browser _ eq_refl) as H.
  cbv zeta in H. destruct H as (Hs & _ & _ & _ & He).
  split; [exact Hs | exact (proj1 He)].
Defined.

(** X4: [handleSubmit] of [RegisterPage] sends the four typed fields to
    [/auth/register] in every case; it signs the visitor in and navigates
    to [/dashboard] exactly when the reply has a body, and otherwise leaves
    storage and user as they were and navigates nowhere. *)
Theorem register_signs_in_iff_body server ToString JSON_stringify (b : Browser) :
  let p := server (S (length (trace (tab b)))) (register_request b) in
  let b' := run (register_handleSubmit server ToString JSON_stringify) b in
  requests (trace (tab b')) = requests (trace (tab b)) ++ [register_request b] /\
  field_names (req_body (register_request b)) = ["name"; "email"; "phone"; "password"] /\
  register_loading (register_form b') = false /\
  if has_body p then
    localStorage (tab b') =
      <["user" := ToString (JSON_stringify (opt_get "user" (body_of p)))]>
        (<["token" := ToString (opt_get "access_token" (body_of p))]> (localStorage (tab b))) /\
    user (auth (tab b')) = opt_get "user" (body_of p) /\
    navigations (trace (tab b')) = navigations (trace (tab b)) ++ ["/dashboard"]
  else
    localStorage (tab b') = localStorage (tab b) /\
    auth (tab b') = auth (tab b) /\
    navigations (trace (tab b')) = navigations (trace (tab b)).
Proof.
  open_browser b. destruct rf as [na em ph pw er lo]. run_flow. rewrite length_snoc.
  destruct (server _ _) as [response | error].
  - destruct (opt_get "data" response) eqn:Hd;
      repeat rewrite requests_snoc; repeat rewrite navigations_snoc;
      rewrite <- ?app_assoc; simpl; rewrite ?app_nil_r; repeat split.
  - destruct error; repeat rewrite requests_snoc; repeat rewrite navigations_snoc;
      rewrite <- ?app_assoc; simpl; rewrite ?app_nil_r; repeat split.
Qed.

(** X5: [fetchStats] of the landing page sends its two requests in every
    case, and sets both cells or neither: when a request fails the page
    keeps what it showed and the failure is logged once. *)
Theorem fetchStats_all_or_nothing server earliest (b : Browser) :
  let n := length (trace (tab b)) in
  let b' := run (fetchStats server earliest) b in
  requests (trace (tab b')) =
    requests (trace (tab b)) ++ [get_request b "/stats/public"; get_request b "/platform-fees"] /\
  ((exists r1 r2,
      server n (get_request b "/stats/public") = Resolved r1 /\
      server (S n) (get_request b "/platform-fees") = Resolved r2 /\
      landing b' = {| stats := opt_get "data" r1; platformFees := opt_get "data" r2 |} /\
      console b' = console b)
   \/
   (exists e, landing b' = landing b /\
      console b' = console b ++ [("Error fetching stats:", Reason e)])).
Proof.
  open_browser b. run_flow. rewrite length_snoc.
  destruct (server (length t) _) as [r1 | e1] eqn:H1;
    destruct (server (S (length t)) _) as [r2 | e2] eqn:H2;
    repeat rewrite requests_snoc; rewrite <- ?app_assoc; simpl;
    (split; [reflexivity |]).
  - left. exists r1, r2. repeat split.
  - right. eexists. split; reflexivity.
  - right. eexists. split; reflexivity.
  - right. eexists. split; reflexivity.
Qed.

(** X6: [fetchData] of the dashboard sends its three requests in every case,
    and sets its three cells or none of them. *)
Theorem dashboard_fetch_all_or_nothing server earliest (b : Browser) :
  let n := length (trace (tab b)) in
  let b' := run (dashboard_fetchData server earliest) b in
  requests (trace (tab b')) =
    requests (trace (tab b)) ++
      [get_request b "/stats"; get_request b "/donations"; get_request b "/family-equity"] /\
  ((exists r1 r2 r3,
      server n (get_request b "/stats") = Resolved r1 /\
      server (S n) (get_request b "/donations") = Resolved r2 /\
      server (S (S n)) (get_request b "/family-equity") = Resolved r3 /\
      dashboard b' = {| dashboard_stats := opt_get "data" r1;
                        donations := opt_get "data" r2;
                        familyEquity := opt_get "data" r3 |} /\
      console b' = console b)
   \/
   (exists e, dashboard b' = dashboard b /\
      console b' = console b ++ [("Error fetching data:", Reason e)])).
Proof.
  open_browser b. run_flow. rewrite !length_snoc.
  destruct (server (length t) _) as [r1 | e1] eqn:H1;
    destruct (server (S (length t)) _) as [r2 | e2] eqn:H2;
    destruct (server (S (S (length t))) _) as [r3 | e3] eqn:H3;
    repeat rewrite requests_snoc; rewrite <- ?app_assoc; simpl;
    (split; [reflexivity |]);
    first [ left; exists r1, r2, r3; repeat split; fail
          | right; eexists; split; reflexivity ].
Qed.

(** X7: after a login that stored a token, the requests of the tab carry it:
    the donation a signed-in visitor then submits leaves with
    [Bearer <token>]. *)
Theorem requests_after_login_carry_token server ToString JSON_stringify
    (b : Browser) (response : JsValue) donations_server :
  server (S (length (trace (tab b)))) (login_request b) = Resolved response ->
  nullish (opt_get "data" response) = false ->
  truthy (opt_get "user" (opt_get "data" response)) = true ->
  ToString (opt_get "access_token" (opt_get "data" response)) <> "" ->
  let bearer := "Bearer " +:+ ToString (opt_get "access_token" (opt_get "data" response)) in
  let b' := run (login_handleSubmit server ToString JSON_stringify) b in
  authorization (localStorage (tab b')) = Some bearer /\
  requests (trace (WebApp.run (handleSubmit donations_server) (tab b'))) =
    requests (trace (tab b)) ++
      [ login_request b;
        {| req_method := POST; req_url := "/donations";
           req_authorization := Some bearer;
           req_body := donation_payload (donate (tab b)) |} ].
Proof.
  intros Hp Hd Hu Ht bearer b'.
  destruct (login_success_session server ToString JSON_stringify b response Hp Hd)
    as (Hst & Hau & Htr & Hdon & _).
  fold b' in Hst, Hau, Htr, Hdon.
  assert (Ha : authorization (localStorage (tab b')) = Some bearer).
  { rewrite Hst. unfold authorization.
    rewrite lookup_insert_ne by discriminate. rewrite lookup_insert_eq.
    destruct (String.eqb_spec (ToString (opt_get "access_token" (opt_get "data" response))) "");
      [contradiction | reflexivity]. }
  split; [exact Ha |].
  rewrite WebAppFacts.handleSubmit_signed_in by (rewrite Hau; exact Hu).
  cbn [trace]. rewrite Htr, Ha, Hdon.
  rewrite !WebAppFacts.requests_app. simpl.
  destruct (donations_server _); simpl; rewrite <- app_assoc; reflexivity.
Qed.

Lemma requests_after_login_carry_token_witness :
  authorization (localStorage (tab
    (run (login_handleSubmit welcoming_server text_of (fun v => v)) fresh_browser)))
  = Some "Bearer abc".
Proof.
  refine (proj1 (requests_after_login_carry_token welcoming_server text_of (fun v => v)
                   fresh_browser _ accepting_server eq_refl eq_refl eq_refl _)).
  discriminate.
Defined.

(** X8: a session survives a reload: when the stored strings are not empty
    and [JSON.parse] reads back what [JSON.stringify] wrote, the mount
    effect of a reloaded tab restores the user that [login] was given. *)
Theorem session_survives_reload ToString JSON_stringify JSON_parse
    (token userData : JsValue) (w : World) :
  ToString token <> "" ->
  ToString (JSON_stringify userData) <> "" ->
  JSON_parse (ToString (JSON_stringify userData)) = Some userData ->
  let w' := WebApp.run (restore_session JSON_parse)
              (reload (WebApp.run (login ToString JSON_stringify token userData) w)) in
  auth w' = {| user := userData; loading := false |} /\
  localStorage w' =
    <["user" := ToString (JSON_stringify userData)]>
      (<["token" := ToString token]> (localStorage w)).
Proof.
  intros Ht Hu Hparse.
  cbv [WebApp.run restore_session reload login setItem setUser setLoading
       WebApp.bind WebApp.modify WebApp.get WebApp.ret with_storage with_auth
       localStorage auth user loading fst snd].
  rewrite lookup_insert_ne by discriminate. rewrite lookup_insert_eq.
  rewrite lookup_insert_eq.
  destruct (String.eqb_spec (ToString token) ""); [contradiction |].
  destruct (String.eqb_spec (ToString (JSON_stringify userData)) ""); [contradiction |].
  simpl. rewrite Hparse. simpl. split; reflexivity.
Qed.

Lemma session_survives_reload_witness :
  auth (WebApp.run (restore_session (fun _ => Some sample_user))
          (reload (WebApp.run (login text_of (fun _ => JsStr "saved") (JsStr "abc") sample_user)
                     fresh_tab)))
  = {| user := sample_user; loading := false |}.
Proof.
  refine (proj1 (session_survives_reload text_of (fun _ => JsStr "saved")
                   (fun _ => Some sample_user) (JsStr "abc") sample_user fresh_tab _ _ eq_refl));
    discriminate.
Defined.

(** X9: the Logout button signs out for good: the bar then offers Login and
    Register, the requests of the tab carry no [Authorization] header, the
    dashboard route redirects to [/login], and a reload restores no
    user. *)
Theorem logout_button_signs_out JSON_parse (w : World) :
  let w' := WebApp.run (click LogoutButton) w in
  Navbar (auth w') = [Brand; LoginButton; RegisterButton] /\
  authorization (localStorage w') = None /\
  route {| user := user (auth w'); loading := false |} "/dashboard" = Some (Navigate "/login") /\
  auth (WebApp.run (restore_session JSON_parse) (reload w')) =
    {| user := JsNull; loading := false |}.
Proof.
  cbv [WebApp.run click logout removeItem setUser setLoading restore_session reload
       WebApp.bind WebApp.modify WebApp.get WebApp.ret with_storage with_auth
       Navbar authorization
       localStorage auth user loading fst snd].
  rewrite lookup_delete_ne by discriminate. rewrite lookup_delete_eq.
  repeat split.
Qed.
End SiteFacts.

(** ** The education screen: data, enrollment and the level badge *)

Module LearningFacts.
Import JsNumber Js Flow Learning.
Import FlowFacts.

Ltac run_learning :=
  cbv [run outcome fetchData onRefresh handleEnroll
       bind ret throw try_catch finally get modify read detail_or
       api_get api_post await await_all4 or_null perform rejected
       setCourses setMindGames setProfile setLearningLevels setLoading setRefreshing
       setSelectedCourse setEnrolling
       courses mindGames profile learningLevels loading refreshing selectedCourse
       enrolling events fst snd].

Ltac open_screen s :=
  destruct s as [?co ?mg ?pr ?ll ?lo ?re ?sc ?en ?ev].

Lemma gets_app (t1 t2 : list Event) : gets (t1 ++ t2) = gets t1 ++ gets t2.
Proof. apply flat_map_app. Qed.

Lemma posts_app (t1 t2 : list Event) : posts (t1 ++ t2) = posts t1 ++ posts t2.
Proof. apply flat_map_app. Qed.

Lemma alerts_app (t1 t2 : list Event) : alerts (t1 ++ t2) = alerts t1 ++ alerts t2.
Proof. apply flat_map_app. Qed.

Ltac tidy_events :=
  rewrite <- ?app_assoc; cbn [app];
  rewrite ?gets_app, ?posts_app, ?alerts_app; cbn [gets posts alerts flat_map app];
  rewrite ?app_nil_r.

(** What [fetchData] does to the cells it does not fetch, and the effects
    it adds. *)
Lemma fetchData_effects get_reply earliest (s : Screen) :
  let s' := run (fetchData get_reply earliest) s in
  outcome (fetchData get_reply earliest) s = Done tt /\
  loading s' = false /\
  selectedCourse s' = selectedCourse s /\
  enrolling s' = enrolling s /\
  refreshing s' = refreshing s /\
  exists log,
    events s' = events s ++ map Get fetch_urls ++ log /\
    (log = [] \/ exists e, log = [ConsoleError "Error fetching education data:" e]).
Proof.
  open_screen s. run_learning. rewrite !length_snoc.
  destruct (get_reply (length ev) _) as [d1 | e1];
    destruct (get_reply (S (length ev)) _) as [d2 | e2];
    destruct (get_reply (S (S (length ev))) _) as [d3 | e3];
    destruct (get_reply (S (S (S (length ev)))) _) as [d4 | e4];
    try (rewrite <- ?app_assoc; cbn [app map fetch_urls]; repeat split;
         eexists; split; [reflexivity | right; eexists; reflexivity]).
  all: destruct (nullish d1);
    try (rewrite <- ?app_assoc; cbn [app map fetch_urls]; repeat split;
         eexists; split; [reflexivity | right; eexists; reflexivity]).
  all: destruct (nullish d2);
    try (rewrite <- ?app_assoc; cbn [app map fetch_urls]; repeat split;
         eexists; split; [reflexivity | right; eexists; reflexivity]).
  all: destruct (nullish d3);
    try (rewrite <- ?app_assoc; cbn [app map fetch_urls]; repeat split;
         eexists; split; [reflexivity | right; eexists; reflexivity]).
  all: match goal with |- context [truthy ?v] => destruct (truthy v) | _ => idtac end;
    rewrite <- ?app_assoc; cbn [app map fetch_urls]; repeat split;
    exists []; (split; [reflexivity | left; reflexivity]).
Qed.

(** X10: [fetchData] never rejects and ends the loading in every case; the
    four requests leave whatever the replies are; nothing is posted, no
    alert is shown, and the cells of the modals are not touched. *)
Theorem fetchData_in_every_case get_reply earliest (s : Screen) :
  let s' := run (fetchData get_reply earliest) s in
  outcome (fetchData get_reply earliest) s = Done tt /\
  loading s' = false /\
  gets (events s') = gets (events s) ++ fetch_urls /\
  posts (events s') = posts (events s) /\
  alerts (events s') = alerts (events s) /\
  selectedCourse s' = selectedCourse s /\
  enrolling s' = enrolling s /\
  refreshing s' = refreshing s.
Proof.
  intros s'.
  destruct (fetchData_effects get_reply earliest s)
    as (Ho & Hl & Hs & He & Hr & log & Hev & Hlog).
  fold s' in Hl, Hs, He, Hr, Hev.
  rewrite Hev.
  repeat split; try assumption;
    destruct Hlog as [-> | [e ->]]; tidy_events; reflexivity.
Qed.

(** X11: a user without a profile still gets the courses: when the first three
    requests are answered with a body, the three cells are set from the
    replies whatever becomes of the profile request, the profile is
    replaced only by a truthy one, and nothing is logged. *)
Theorem missing_profile_is_tolerated get_reply earliest (s : Screen) (d1 d2 d3 : JsValue) :
  let n := length (events s) in
  get_reply n "/education/config" = Resolved d1 ->
  get_reply (S n) "/education/courses" = Resolved d2 ->
  get_reply (S (S n)) "/education/mind-games" = Resolved d3 ->
  nullish d1 = false -> nullish d2 = false -> nullish d3 = false ->
  let s' := run (fetchData get_reply earliest) s in
  learningLevels s' = opt_get "learning_levels" d1 /\
  courses s' = opt_get "courses" d2 /\
  mindGames s' = opt_get "games" d3 /\
  profile s' = match get_reply (S (S (S n))) "/education/profile" with
               | Resolved d4 => if truthy d4 then d4 else profile s
               | Rejected _ => profile s
               end /\
  events s' = events s ++ map Get fetch_urls.
Proof.
  open_screen s. cbv [events]. intros H1 H2 H3 N1 N2 N3.
  run_learning. rewrite !length_snoc. rewrite H1, H2, H3.
  destruct (get_reply (S (S (S (length ev)))) _) as [d4 | e4];
    rewrite N1, N2, N3; cbn [truthy];
    try destruct (truthy d4);
    rewrite <- ?app_assoc; repeat split.
Qed.

Lemma missing_profile_is_tolerated_witness :
  courses (run (fetchData no_profile_get first_of) mounting_screen) = JsArr [] /\
  profile (run (fetchData no_profile_get first_of) mounting_screen) = JsNull /\
  loading (run (fetchData no_profile_get first_of) mounting_screen) = false.
Proof.
  destruct (missing_profile_is_tolerated no_profile_get first_of mounting_screen
              _ _ _ eq_refl eq_refl eq_refl eq_refl eq_refl eq_refl)
    as (_ & Hc & _ & Hp & _).
  split; [exact Hc | split; [exact Hp | reflexivity]].
Defined.

(** X12: when one of the first three requests fails, [fetchData] keeps what
    the screen had: none of the four cells changes, also when the other
    requests were answered, and the failure is logged once. *)
Theorem failed_fetch_keeps_data get_reply earliest (s : Screen) :
  let n := length (events s) in
  rejected (get_reply n "/education/config")
  || rejected (get_reply (S n) "/education/courses")
  || rejected (get_reply (S (S n)) "/education/mind-games") = true ->
  let s' := run (fetchData get_reply earliest) s in
  learningLevels s' = learningLevels s /\
  courses s' = courses s /\
  mindGames s' = mindGames s /\
  profile s' = profile s /\
  exists e,
    events s' = events s ++ map Get fetch_urls ++
                [ConsoleError "Error fetching education data:" (Reason e)].
Proof.
  open_screen s. cbv [events learningLevels courses mindGames profile].
  run_learning. rewrite !length_snoc.
  destruct (get_reply (length ev) _) as [d1 | e1];
    destruct (get_reply (S (length ev)) _) as [d2 | e2];
    destruct (get_reply (S (S (length ev))) _) as [d3 | e3];
    cbn [orb]; intros H; try discriminate H;
    destruct (get_reply (S (S (S (length ev)))) _) as [d4 | e4];
    rewrite <- ?app_assoc; cbn [app map fetch_urls]; repeat split;
    eexists; reflexivity.
Qed.

Lemma failed_fetch_keeps_data_witness :
  courses (run (fetchData failing_get first_of) mounting_screen) = JsArr [] /\
  Datatypes.length (events (run (fetchData failing_get first_of) mounting_screen)) = 5%nat.
Proof.
  destruct (failed_fetch_keeps_data failing_get first_of mounting_screen eq_refl)
    as (_ & Hc & _ & _ & e & He).
  split; [exact Hc | rewrite He; reflexivity].
Defined.

(** X13: pull-to-refresh ends with the spinner off and the loading ended,
    whatever the replies, and leaves the data that [fetchData] alone
    would leave. *)
Theorem onRefresh_ends_refreshing get_reply earliest (s : Screen) :
  let s' := run (onRefresh get_reply earliest) s in
  let s1 := run (fetchData get_reply earliest) s in
  outcome (onRefresh get_reply earliest) s = Done tt /\
  refreshing s' = false /\
  loading s' = false /\
  learningLevels s' = learningLevels s1 /\
  courses s' = courses s1 /\
  mindGames s' = mindGames s1 /\
  profile s' = profile s1 /\
  events s' = events s1.
Proof.
  open_screen s. run_learning. rewrite !length_snoc.
  destruct (get_reply (length ev) _) as [d1 | e1];
    destruct (get_reply (S (length ev)) _) as [d2 | e2];
    destruct (get_reply (S (S (length ev))) _) as [d3 | e3];
    destruct (get_reply (S (S (S (length ev)))) _) as [d4 | e4];
    try (repeat split; fail).
  all: destruct (nullish d1); try (repeat split; fail).
  all: destruct (nullish d2); try (repeat split; fail).
  all: destruct (nullish d3); try (repeat split; fail).
  all: match goal with |- context [truthy ?v] => destruct (truthy v) | _ => idtac end;
    repeat split.
Qed.

Ltac run_enroll :=
  cbv [run outcome handleEnroll
       bind ret throw try_catch finally get modify read detail_or
       api_get api_post await perform
       setSelectedCourse setEnrolling
       courses mindGames profile learningLevels loading refreshing selectedCourse
       enrolling events fst snd].

(** X14: a refused enrollment changes nothing on the screen: the data is not
    fetched again, the course modal stays open on its course and the
    button is enabled again.  One alert shows the detail of the reply, or
    "Failed to enroll" when there is none; when the request is rejected
    with [null] or [undefined] the [catch] itself throws, no alert is
    shown and the handler rejects. *)
Theorem enrollment_refused_keeps_modal get_reply post_reply earliest
    (course : Course) (s : Screen) (error : JsValue) :
  post_reply (length (events s)) "/education/enroll" (enroll_payload course) = Rejected error ->
  let s' := run (handleEnroll get_reply post_reply earliest course) s in
  events s' = events s ++
    Post "/education/enroll" (enroll_payload course) ::
    (if nullish error then []
     else [Alert (or_else (opt_get "detail" (opt_get "data" (opt_get "response" error)))
                          (JsStr "Failed to enroll"))]) /\
  outcome (handleEnroll get_reply post_reply earliest course) s =
    (if nullish error then Threw TypeError else Done tt) /\
  selectedCourse s' = selectedCourse s /\
  enrolling s' = false /\
  (courses s', mindGames s', profile s', learningLevels s', loading s') =
  (courses s, mindGames s, profile s, learningLevels s, loading s).
Proof.
  open_screen s. cbv [events]. intros Hp.
  run_enroll. rewrite Hp.
  destruct (nullish error); cbn [fst snd]; rewrite <- ?app_assoc; repeat split.
Qed.

Lemma enrollment_refused_keeps_modal_witness :
  alerts (events (run (handleEnroll failing_get refusing_post first_of sample_course)
                    mounting_screen)) = [JsStr "Not enough coins"] /\
  selectedCourse (run (handleEnroll failing_get refusing_post first_of sample_course)
                    mounting_screen) = Some sample_course.
Proof.
  destruct (enrollment_refused_keeps_modal failing_get refusing_post first_of sample_course
              mounting_screen _ eq_refl) as (He & _ & Hs & _).
  split; [rewrite He; reflexivity | exact Hs].
Defined.

(** X15: an accepted enrollment is followed by the four requests of
    [fetchData]; then the modal closes and the success alert names the
    course, also when the refresh failed; the button is enabled again. *)
Theorem enrollment_accepted_refreshes get_reply post_reply earliest
    (course : Course) (s : Screen) (d : JsValue) :
  post_reply (length (events s)) "/education/enroll" (enroll_payload course) = Resolved d ->
  let s' := run (handleEnroll get_reply post_reply earliest course) s in
  outcome (handleEnroll get_reply post_reply earliest course) s = Done tt /\
  posts (events s') = posts (events s) ++ [("/education/enroll", enroll_payload course)] /\
  gets (events s') = gets (events s) ++ fetch_urls /\
  alerts (events s') = alerts (events s) ++
    [JsStr ("🎉 Successfully enrolled in " +:+ title course +:+ "!")] /\
  selectedCourse s' = None /\
  enrolling s' = false /\
  loading s' = false.
Proof.
  open_screen s. cbv [events]. intros Hp.
  run_enroll. rewrite Hp.
  match goal with |- context [fetchData get_reply earliest ?s1] =>
    pose proof (fetchData_effects get_reply earliest s1) as H;
    cbv [run outcome] in H;
    destruct (fetchData get_reply earliest s1) as [o s2] eqn:E
  end.
  cbn [fst snd] in H.
  destruct H as (Ho & Hl & Hs & He & Hr & log & Hev & Hlog).
  subst o. open_screen s2. cbn [events loading selectedCourse enrolling refreshing] in *.
  subst. cbn [fst snd events selectedCourse enrolling loading].
  rewrite <- ?app_assoc.
  repeat split; destruct Hlog as [-> | [e ->]]; tidy_events; reflexivity.
Qed.

Lemma enrollment_accepted_refreshes_witness :
  selectedCourse (run (handleEnroll failing_get accepting_post first_of sample_course)
                    mounting_screen) = None /\
  alerts (events (run (handleEnroll failing_get accepting_post first_of sample_course)
                    mounting_screen)) = [JsStr "🎉 Successfully enrolled in Algebra!"].
Proof.
  destruct (enrollment_accepted_refreshes failing_get accepting_post first_of sample_course
              mounting_screen _ eq_refl) as (_ & _ & _ & Ha & Hs & _).
  split; [exact Hs | exact Ha].
Defined.

(** X16: [getLevelBadge] always has a colour to give: it throws only when the
    table of levels is [null] or [undefined], what it returns is never
    falsy, and a level the table does not have gets the default green. *)
Theorem level_badge_falls_back (levels : JsValue) (level : string) :
  match getLevelBadge levels level with
  | Threw _ => nullish levels = true
  | Done colour => nullish levels = false /\ truthy colour = true
  end /\
  (forall fields, levels = JsObj fields -> lookup_field level fields = JsUndefined ->
     getLevelBadge levels level = Done (JsStr "#4CAF50")).
Proof.
  split.
  - destruct levels; cbn [getLevelBadge nullish]; try (split; reflexivity); try reflexivity;
      (split; [reflexivity | apply or_else_truthy; reflexivity]).
  - intros fields -> Hl. cbn. rewrite Hl. reflexivity.
Qed.
End LearningFacts.

(** ** The agency screen *)

Module AgencyFacts.
Import JsNumber Js Flow Agency.
Import FlowFacts.

Ltac run_agency :=
  cbv [run outcome fetchData onRefresh copyReferralCode shareReferralCode applyReferralCode
       bind ret throw try_catch finally get modify read detail_or
       api_get api_post perform shown_code
       setAgencyStatus setRefreshing setApplyModalVisible setReferralCode setApplying
       agencyStatus refreshing applyModalVisible referralCode applying events fst snd].

Ltac open_agency s :=
  destruct s as [?st ?re ?mo ?co ?ap ?ev].

(** X17: a blank code sends nothing: when the typed code trims to the empty
    string, [applyReferralCode] only shows the alert that asks for a code;
    no request leaves and no cell changes. *)
Theorem blank_code_sends_nothing get_reply post_reply trim (s : Screen) :
  trim (referralCode s) = "" ->
  run (applyReferralCode get_reply post_reply trim) s =
    {| agencyStatus := agencyStatus s; refreshing := refreshing s;
       applyModalVisible := applyModalVisible s; referralCode := referralCode s;
       applying := applying s;
       events := events s ++ [AlertBox "Error" (JsStr "Please enter a referral code")] |} /\
  posts (events (run (applyReferralCode get_reply post_reply trim) s)) = posts (events s).
Proof.
  open_agency s. cbv [referralCode]. intros Ht. run_agency. rewrite Ht. cbn.
  split; [reflexivity |].
  unfold posts. rewrite flat_map_app. cbn. apply app_nil_r.
Qed.

Lemma blank_code_sends_nothing_witness :
  posts (events (run (applyReferralCode steady_get accepting_post drop_spaces)
                   (typing_screen "   "))) = [] /\
  applyModalVisible (run (applyReferralCode steady_get accepting_post drop_spaces)
                       (typing_screen "   ")) = true.
Proof.
  destruct (blank_code_sends_nothing steady_get accepting_post drop_spaces
              (typing_screen "   ") eq_refl) as (Hr & Hp).
  split; [exact Hp | rewrite Hr; reflexivity].
Defined.

(** X18: a code that is not blank is posted once, as typed, spaces included,
    and the button is enabled again whatever the reply.  When the request
    is accepted the modal closes, the field is emptied, the alert
    "Success" is shown and the status is fetched again.  When it is
    refused the modal keeps the code, nothing is fetched and one alert
    "Error" shows the detail of the reply or the default text; when it is
    rejected with [null] or [undefined] the [catch] itself throws, no
    alert is shown and the handler rejects. *)
Theorem typed_code_is_posted_once get_reply post_reply trim (s : Screen) :
  trim (referralCode s) <> "" ->
  let p := post_reply (length (events s)) "/agency/apply-referral"
             (referral_payload (referralCode s)) in
  let s' := run (applyReferralCode get_reply post_reply trim) s in
  posts (events s') =
    posts (events s) ++ [("/agency/apply-referral", referral_payload (referralCode s))] /\
  applying s' = false /\
  match p with
  | Resolved _ =>
      outcome (applyReferralCode get_reply post_reply trim) s = Done tt /\
      applyModalVisible s' = false /\ referralCode s' = "" /\
      gets (events s') = gets (events s) ++ ["/agency/status"] /\
      alerts (events s') =
        alerts (events s) ++ [("Success", JsStr "Referral code applied successfully!")]
  | Rejected error =>
      outcome (applyReferralCode get_reply post_reply trim) s =
        (if nullish error then Threw TypeError else Done tt) /\
      applyModalVisible s' = applyModalVisible s /\ referralCode s' = referralCode s /\
      gets (events s') = gets (events s) /\
      agencyStatus s' = agencyStatus s /\
      alerts (events s') =
        alerts (events s) ++
        if nullish error then []
        else [("Error", or_else (opt_get "detail" (opt_get "data" (opt_get "response" error)))
                                (JsStr "Failed to apply referral code"))]
  end.
Proof.
  open_agency s. cbv [referralCode events applyModalVisible agencyStatus]. intros Ht.
  run_agency. destruct (String.eqb_spec (trim co) "") as [E | _]; [contradiction |].
  rewrite ?length_snoc.
  destruct (post_reply _ _ _) as [d | error].
  - destruct (get_reply _ _) as [d' | e'];
      unfold posts, gets, alerts; rewrite <- ?app_assoc; rewrite !flat_map_app; cbn;
      rewrite ?app_nil_r; repeat split.
  - destruct (nullish error);
      unfold posts, gets, alerts; rewrite <- ?app_assoc; rewrite !flat_map_app; cbn;
      rewrite ?app_nil_r; repeat split.
Qed.

Lemma typed_code_is_posted_once_witness :
  posts (events (run (applyReferralCode steady_get refusing_post drop_spaces)
                   (typing_screen " MQ-1 "))) =
    [("/agency/apply-referral", JsObj [("referral_code", JsStr " MQ-1 ")])] /\
  referralCode (run (applyReferralCode steady_get refusing_post drop_spaces)
                  (typing_screen " MQ-1 ")) = " MQ-1 ".
Proof.
  assert (Ht : drop_spaces (referralCode (typing_screen " MQ-1 ")) <> "") by discriminate.
  destruct (typed_code_is_posted_once steady_get refusing_post drop_spaces
              (typing_screen " MQ-1 ") Ht) as (Hp & _ & H).
  cbn in H. destruct H as (_ & _ & Hc & _).
  split; [exact Hp | exact Hc].
Defined.

(** X19: the copy button copies what the card shows, and acts only when the
    card shows a code of the status: without one the card shows the
    placeholder and nothing is written or announced.  The alert
    "Copied!" follows a write that succeeded; a failed write rejects the
    handler and shows nothing. *)
Theorem copy_matches_the_card clipboard (s : Screen) :
  let code := opt_get "referral_code" (agencyStatus s) in
  let s' := run (copyReferralCode clipboard) s in
  (outcome (copyReferralCode clipboard) s =
     if truthy code then
       match clipboard (length (events s)) code with
       | None => Done tt
       | Some error => Threw (Reason error)
       end
     else Done tt) /\
  (copied (events s') =
     copied (events s) ++ if truthy code then [shown_code (agencyStatus s)] else []) /\
  (truthy code = false ->
     shown_code (agencyStatus s) = JsStr "---" /\ s' = s) /\
  (alerts (events s') =
     alerts (events s) ++
     if truthy code then
       match clipboard (length (events s)) code with
       | None => [("Copied!", JsStr "Referral code copied to clipboard")]
       | Some _ => []
       end
     else []).
Proof.
  open_agency s. run_agency. unfold or_else.
  destruct (truthy (opt_get "referral_code" st)) eqn:Hc.
  - destruct (clipboard _ _);
      unfold copied, alerts; rewrite <- ?app_assoc; rewrite !flat_map_app; cbn;
      rewrite ?app_nil_r; repeat split; intros; discriminate.
  - rewrite !app_nil_r. repeat split.
Qed.

(** X20: the share button never rejects: it opens the share sheet only when
    the status has a code, with a message that carries the code, and a
    failure of the sheet is logged on the console. *)
Theorem share_never_rejects share ToString (s : Screen) :
  let code := opt_get "referral_code" (agencyStatus s) in
  let s' := run (shareReferralCode share ToString) s in
  outcome (shareReferralCode share ToString) s = Done tt /\
  agencyStatus s' = agencyStatus s /\
  if truthy code then
    exists log,
      events s' = events s ++ ShareSheet (share_message ToString code) :: log /\
      (log = [] \/ exists e, log = [ConsoleError "Error sharing:" (Reason e)])
  else s' = s.
Proof.
  open_agency s. run_agency.
  destruct (truthy (opt_get "referral_code" st)).
  - destruct (share _ _); rewrite <- ?app_assoc; cbn [app]; repeat split;
      eexists; (split; [reflexivity |]); [right; eexists; reflexivity | left; reflexivity].
  - repeat split.
Qed.

(** X21: a failed refresh keeps the status the screen had; pull-to-refresh
    ends with the spinner off whether the request failed or not. *)
Theorem agency_refresh_keeps_status_on_failure get_reply (s : Screen) :
  let s' := run (onRefresh get_reply) s in
  outcome (onRefresh get_reply) s = Done tt /\
  refreshing s' = false /\
  gets (events s') = gets (events s) ++ ["/agency/status"] /\
  agencyStatus s' =
    match get_reply (length (events s)) "/agency/status" with
    | Resolved data => data
    | Rejected _ => agencyStatus s
    end.
Proof.
  open_agency s. run_agency.
  destruct (get_reply _ _); unfold gets; rewrite <- ?app_assoc; rewrite !flat_map_app; cbn;
    rewrite ?app_nil_r; repeat split.
Qed.
End AgencyFacts.

(** ** The feedback module *)

Module FeedbackFacts.
Import Js Flow Feedback.

Ltac run_feedback :=
  cbv [run outcome playSound haptic
       bind ret throw try_catch finally get modify perform setSoundObject
       soundObject events fst snd].

Lemma vibrations_app (t1 t2 : list Event) :
  vibrations (t1 ++ t2) = vibrations t1 ++ vibrations t2.
Proof. apply flat_map_app. Qed.

Lemma created_app (t1 t2 : list Event) : created (t1 ++ t2) = created t1 ++ created t2.
Proof. apply flat_map_app. Qed.

Lemma unloaded_app (t1 t2 : list Event) : unloaded (t1 ++ t2) = unloaded t1 ++ unloaded t2.
Proof. apply flat_map_app. Qed.

Ltac tidy_calls :=
  rewrite <- ?app_assoc;
  rewrite ?vibrations_app, ?created_app, ?unloaded_app;
  cbn [vibrations created unloaded flat_map app]; rewrite ?app_nil_r.

(** What [playSound] leaves behind. *)
Lemma playSound_effects unloadAsync createAsync (t : SoundType) (d : Device) :
  let d' := run (playSound unloadAsync createAsync t) d in
  outcome (playSound unloadAsync createAsync t) d = Done tt /\
  vibrations (events d') = vibrations (events d) /\
  (created (events d') = created (events d) \/
   created (events d') = created (events d) ++ [SOUNDS t]).
Proof.
  destruct d as [so ev]. run_feedback.
  destruct so as [old |].
  - destruct (unloadAsync _); [tidy_calls; repeat split; left; reflexivity |].
    destruct (createAsync _); tidy_calls; repeat split; right; reflexivity.
  - destruct (createAsync _); tidy_calls; repeat split; right; reflexivity.
Qed.

(** What one action of [sultanFeedback] leaves behind. *)
Lemma sultanFeedback_effects os unloadAsync createAsync (a : Action) (d : Device) :
  let d' := run (sultanFeedback os unloadAsync createAsync a) d in
  outcome (sultanFeedback os unloadAsync createAsync a) d = Done tt /\
  (if String.eqb os "web" then vibrations (events d') = vibrations (events d)
   else exists h, vibrations (events d') = vibrations (events d) ++ [h]) /\
  (length (created (events d')) <= S (length (created (events d))))%nat.
Proof.
  assert (Hstep : forall h t,
    let c := bind (haptic os h) (fun _ => playSound unloadAsync createAsync t) in
    outcome c d = Done tt /\
    (if String.eqb os "web" then vibrations (events (run c d)) = vibrations (events d)
     else exists h, vibrations (events (run c d)) = vibrations (events d) ++ [h]) /\
    (length (created (events (run c d))) <= S (length (created (events d))))%nat).
  { intros h t c. subst c. unfold run, outcome, bind, haptic.
    destruct (String.eqb os "web"); cbn [negb].
    - cbn [ret]. 
      destruct (playSound_effects unloadAsync createAsync t d) as (Ho & Hv & Hc).
      unfold run, outcome in Ho, Hv, Hc.
      repeat split; [exact Ho | exact Hv |].
      destruct Hc as [-> | ->]; [lia | rewrite length_app; cbn; lia].
    - cbv [perform modify].
      match goal with |- context [playSound _ _ _ ?d1] =>
        destruct (playSound_effects unloadAsync createAsync t d1) as (Ho & Hv & Hc) end.
      unfold run, outcome in Ho, Hv, Hc. cbn [events] in Hv, Hc.
      repeat split; [exact Ho | exists h; rewrite Hv; tidy_calls; reflexivity |].
      rewrite created_app in Hc. cbn in Hc. rewrite app_nil_r in Hc.
      destruct Hc as [-> | ->]; [lia | rewrite length_app; cbn; lia]. }
  destruct a; try apply Hstep.
  cbv [sultanFeedback run outcome haptic].
  destruct (String.eqb os "web"); cbn [negb]; cbv [ret perform modify fst snd events].
  - repeat split. lia.
  - tidy_calls. repeat split; [eexists; reflexivity | lia].
Qed.

(** X22: on the web no action vibrates, on the other platforms every action
    vibrates once; no action rejects, whatever the audio library does,
    and a list of actions creates at most one sound per action. *)
Theorem web_never_vibrates os unloadAsync createAsync (actions : list Action) (d : Device) :
  let d' := run (in_turn os unloadAsync createAsync actions) d in
  outcome (in_turn os unloadAsync createAsync actions) d = Done tt /\
  (if String.eqb os "web" then vibrations (events d') = vibrations (events d)
   else length (vibrations (events d')) = (length (vibrations (events d)) + length actions)%nat) /\
  (length (created (events d')) <= length (created (events d)) + length actions)%nat.
Proof.
  revert d. induction actions as [| a rest IH]; intros d.
  - cbv [in_turn run outcome ret fst snd]. destruct (String.eqb os "web"); repeat split; cbn; lia.
  - cbn [in_turn]. unfold run, outcome, bind.
    destruct (sultanFeedback_effects os unloadAsync createAsync a d) as (Ho & Hv & Hc).
    unfold run, outcome in Ho, Hv, Hc.
    destruct (sultanFeedback os unloadAsync createAsync a d) as [o d1].
    cbn [fst snd] in Ho, Hv, Hc. subst o.
    destruct (IH d1) as (Ho' & Hv' & Hc'). unfold run, outcome in Ho', Hv', Hc'.
    split; [exact Ho' |].
    split.
    + destruct (String.eqb os "web").
      * rewrite Hv'. exact Hv.
      * destruct Hv as [h Hv]. rewrite Hv', Hv. rewrite length_app. cbn. lia.
    + cbn [length]. lia.
Qed.

(** X23: [playSound] plays one sound at a time: a sound that was playing is
    unloaded first, and the new one is created only when that unloading
    succeeded; the module then remembers the new sound when its creation
    succeeded and the old one otherwise.  A failure is logged, never
    thrown. *)
Theorem playSound_releases_previous unloadAsync createAsync (t : SoundType) (d : Device) :
  let n := length (events d) in
  let d' := run (playSound unloadAsync createAsync t) d in
  let released := match soundObject d with
                  | Some old => match unloadAsync n with None => true | Some _ => false end
                  | None => true
                  end in
  outcome (playSound unloadAsync createAsync t) d = Done tt /\
  unloaded (events d') =
    unloaded (events d) ++ match soundObject d with Some old => [old] | None => [] end /\
  created (events d') = created (events d) ++ (if released then [SOUNDS t] else []) /\
  (soundObject d' = soundObject d \/
   released = true /\ exists k, soundObject d' = Some k /\ createAsync k = None /\
     nth_error (events d') k = Some (Create (SOUNDS t))).
Proof.
  destruct d as [so ev]. run_feedback.
  destruct so as [old |].
  - destruct (unloadAsync _) eqn:Hu.
    + tidy_calls. repeat split. left; reflexivity.
    + rewrite length_app. cbn [length].
      destruct (createAsync _) eqn:Hc; tidy_calls; repeat split.
      * left; reflexivity.
      * right. split; [reflexivity |]. eexists. split; [reflexivity |].
        split; [exact Hc |].
        rewrite nth_error_app2 by lia.
        replace (length ev + 1 - length ev)%nat with 1%nat by lia. reflexivity.
  - destruct (createAsync _) eqn:Hc; tidy_calls; repeat split.
    + left; reflexivity.
    + right. split; [reflexivity |]. eexists. split; [reflexivity |].
      split; [exact Hc |].
      rewrite nth_error_app2 by lia. rewrite Nat.sub_diag. reflexivity.
Qed.
End FeedbackFacts.

(** ** The game modal of the education screen *)

Module GameModalFacts.
Import Js Education GameModal.

Ltac run_game :=
  cbv [run play_again handlePlayGame Math_random api_post setPlaying setGameResult perform
       bind ret result_of playing gameResult drawn trace fst snd].

Lemma posted_snoc (t : list Effect) (e : Effect) :
  posted (t ++ [e]) = posted t ++ match e with Post _ body => [body] | Alert _ => [] end.
Proof. unfold posted. rewrite flat_map_app. cbn. rewrite app_nil_r. reflexivity. Qed.

Lemma alerted_snoc (t : list Effect) (e : Effect) :
  alerted (t ++ [e]) = alerted t ++ match e with Alert text => [text] | Post _ _ => [] end.
Proof. unfold alerted. rewrite flat_map_app. cbn. rewrite app_nil_r. reflexivity. Qed.

(** X24: whatever the reply, [handlePlayGame] draws twice, posts once and ends
    with the button enabled again.  A fulfilled reply with a body stores
    its result and shows no alert; a fulfilled reply without a body shows
    the alert "Failed to play game"; a rejected request shows one alert,
    the detail of the reply or "Failed to play game", unless it is
    rejected with [null] or [undefined], where the [catch] throws and no
    alert is shown.  The result the screen had is kept in all but the
    first case. *)
Theorem handlePlayGame_in_every_case random server (game : MindGame) (s : Screen) :
  let body := play_payload game (random (drawn s)) (random (S (drawn s))) in
  let reply := server "/education/play-mind-game" body in
  let s' := run (handlePlayGame random server game) s in
  playing s' = false /\
  drawn s' = S (S (drawn s)) /\
  posted (trace s') = posted (trace s) ++ [body] /\
  match reply with
  | Resolved data =>
      if Flow.nullish data then
        gameResult s' = gameResult s /\
        alerted (trace s') = alerted (trace s) ++ [JsStr "Failed to play game"]
      else
        gameResult s' = Some {| won := opt_get "won" data;
                                coins := opt_get "coins_earned" data |} /\
        alerted (trace s') = alerted (trace s)
  | Rejected error =>
      gameResult s' = gameResult s /\
      alerted (trace s') =
        alerted (trace s) ++
        if Flow.nullish error then []
        else [or_else (opt_get "detail" (opt_get "data" (opt_get "response" error)))
                      (JsStr "Failed to play game")]
  end.
Proof.
  destruct s as [pl gr dr tr]. run_game.
  destruct (server _ _) as [data | error].
  - destruct data; cbn; rewrite ?posted_snoc, ?alerted_snoc; cbn;
      rewrite ?app_nil_r, <- ?app_assoc; repeat split.
  - destruct error; cbn; rewrite ?posted_snoc, ?alerted_snoc; cbn;
      rewrite ?app_nil_r, <- ?app_assoc; repeat split.
Qed.

(** X25: "Play Again" never shows the previous result again: after it the
    result is the one of the new reply, and none when the request failed
    or when no game is selected, in which case nothing is sent. *)
Theorem play_again_drops_old_result random server (selected : option MindGame) (s : Screen) :
  let s' := run (play_again random server selected) s in
  match selected with
  | Some game =>
      gameResult s' =
        result_of (server "/education/play-mind-game"
                     (play_payload game (random (drawn s)) (random (S (drawn s))))) /\
      playing s' = false
  | None =>
      gameResult s' = None /\ trace s' = trace s /\ playing s' = playing s
  end.
Proof.
  destruct s as [pl gr dr tr]. destruct selected as [game |]; run_game.
  - destruct (server _ _) as [data | error]; [destruct data | destruct error]; cbn;
      split; reflexivity.
  - repeat split.
Qed.
End GameModalFacts.

(** ** The donate page when the backend refuses *)

Module DonateFacts.
Import Js WebApp Site.

(** X26: a donation the backend refuses is reported on the console only: the
    visitor sees the form again as it was filled in, with the button
    enabled, and neither the success card nor a message; nothing
    navigates and the storage is untouched. *)
Theorem refused_donation_shows_the_form_again server (w : World) (error : JsValue) :
  truthy (user (auth w)) = true ->
  submitted (donate w) = false ->
  server {| req_method := POST; req_url := "/donations";
            req_authorization := authorization (localStorage w);
            req_body := donation_payload (donate w) |} = Rejected error ->
  let w' := run (handleSubmit server) w in
  DonatePage w' =
    DonateScreen false
      (Some {| amount_input := amount (donate w);
               donor_name_input := donorName (donate w);
               donor_phone_input := donorPhone (donate w);
               message_input := message (donate w);
               breakdown := donation_breakdown (amount (donate w));
               submit_disabled := false;
               submit_label := "Record Donation" |}) /\
  navigations (trace w') = navigations (trace w) /\
  localStorage w' = localStorage w /\
  exists before, trace w' = before ++ [ConsoleError "Error submitting donation:" error].
Proof.
  intros Hu Hs Hr w'. subst w'.
  rewrite WebAppFacts.handleSubmit_signed_in by exact Hu.
  cbv zeta. rewrite Hr.
  unfold DonatePage. cbn [donate auth submitted submitting amount donorName donorPhone
                          message trace localStorage].
  rewrite Hs, Hu. cbn [negb].
  repeat split.
  - unfold navigations. rewrite !flat_map_app. cbn. rewrite app_nil_r. reflexivity.
  - eexists. rewrite app_assoc. reflexivity.
Qed.

Lemma refused_donation_shows_the_form_again_witness :
  shown_breakdown (DonatePage (run (handleSubmit failing_server) (donor_tab "100"))) =
    Some (donation_breakdown "100") /\
  submitted (donate (run (handleSubmit failing_server) (donor_tab "100"))) = false.
Proof.
  destruct (refused_donation_shows_the_form_again failing_server (donor_tab "100") _
              eq_refl eq_refl eq_refl) as (Hp & _).
  split; [rewrite Hp; reflexivity | reflexivity].
Defined.
End DonateFacts.

(** ** The star rating of a course card *)

Module StarsFacts.
Import JsNumber Rounding JsNumberFacts Learning.
Local Open Scope Z_scope.

(** The order of two positive integers as numbers is their order as
    integers. *)
Lemma of_Z_le (a b : positive) :
  Zpos a < 2 ^ 53 -> Zpos b < 2 ^ 53 ->
  le (of_Z (Zpos a)) (of_Z (Zpos b)) = (Zpos a <=? Zpos b).
Proof.
  intros Ha Hb. rewrite !of_Z_pos by assumption.
  pose proof (digits_bounds a) as [Halo Hahi].
  pose proof (digits_bounds b) as [Hblo Hbhi].
  pose proof (digits_pos a) as Hda1. pose proof (digits_pos b) as Hdb1.
  pose proof (digits_le_of_lt a 53 ltac:(lia) Ha) as Hda.
  pose proof (digits_le_of_lt b 53 ltac:(lia) Hb) as Hdb.
  cbv [le SFleb SFcompare].
  destruct (Z.compare_spec (digits a - 53) (digits b - 53)) as [He | He | He].
  - assert (Hs : 0 < 2 ^ (53 - digits a)) by (apply pow2_pos; lia).
    replace (digits b) with (digits a) by lia.
    rewrite Pos.compare_cont_spec. cbn [Pos.switch_Eq].
    rewrite <- Z2Pos.inj_compare by nia.
    destruct (Z.leb_spec (Zpos a) (Zpos b)) as [Hab | Hab].
    + destruct (Z.compare_spec (Zpos a * 2 ^ (53 - digits a)) (Zpos b * 2 ^ (53 - digits a)));
        try reflexivity. nia.
    + destruct (Z.compare_spec (Zpos a * 2 ^ (53 - digits a)) (Zpos b * 2 ^ (53 - digits a)));
        try reflexivity; nia.
  - assert (Hp : 2 ^ digits a <= 2 ^ (digits b - 1)) by (apply pow2_le; lia).
    symmetry. apply Z.leb_le. lia.
  - assert (Hp : 2 ^ digits b <= 2 ^ (digits a - 1)) by (apply pow2_le; lia).
    symmetry. apply Z.leb_gt. lia.
Qed.

(** A star is filled when its number is at most the integer part of the
    rating. *)
Lemma star_filled (rating : number) (n k : Z) :
  wf rating = true -> ge rating zero = true ->
  to_Z (floor rating) = Some n -> 1 <= k <= 5 ->
  star_icon rating k = if k <=? n then "star" else "star-outline".
Proof.
  intros Hwf Hge Hn Hk. unfold star_icon.
  assert (Hk53 : k < 2 ^ 53) by (change (2 ^ 53) with 9007199254740992; lia).
  destruct k as [| k | k]; try lia.
  enough (H : le (of_Z (Zpos k)) (floor rating) = (Zpos k <=? n)) by (rewrite H; reflexivity).
  destruct rating as [s | s | | s m e].
  - cbn in Hn. injection Hn as <-. rewrite of_Z_pos by exact Hk53. reflexivity.
  - discriminate Hn.
  - discriminate Hge.
  - assert (s = false) as -> by (destruct s; [discriminate Hge | reflexivity]).
    apply wf_finite in Hwf.
    assert (Hm : Zpos m < 2 ^ 53).
    { destruct Hwf as [Hc _]. pose proof (digits_bounds m) as [_ Hhi].
      pose proof (digits_pos m). unfold fexp, emin, prec, emax in Hc.
      eapply Z.lt_le_trans; [exact Hhi |]. apply pow2_le. lia. }
    rewrite floor_to_Z in Hn by exact Hm. injection Hn as Hn.
    unfold floor. destruct (Z.leb_spec 0 e) as [He | He].
    + pose proof (normal_mant m e Hwf ltac:(lia)) as [Hlo _].
      assert (Hp : 1 <= 2 ^ e) by (pose proof (pow2_pos e He); lia).
      change (2 ^ 52) with 4503599627370496 in Hlo.
      assert (Hkn : Zpos k <= n) by nia.
      apply Z.leb_le in Hkn. rewrite Hkn.
      rewrite of_Z_pos by exact Hk53.
      pose proof (digits_le_of_lt k 3 ltac:(lia) ltac:(change (2 ^ 3) with 8; lia)) as Hd.
      cbv [le SFleb SFcompare].
      destruct (Z.compare_spec (digits k - 53) e) as [E | E | E]; try reflexivity; lia.
    + fold (of_Z (Zpos m / 2 ^ (- e))). rewrite Hn.
      assert (Hp : 0 < 2 ^ (- e)) by (apply pow2_pos; lia).
      assert (Hq : 0 <= n < 2 ^ 53).
      { subst n. split; [apply Z.div_pos; lia |].
        eapply Z.le_lt_trans; [| exact Hm]. apply Z.div_le_upper_bound; nia. }
      destruct n as [| q | q]; [| | lia].
      * rewrite of_Z_pos by exact Hk53. reflexivity.
      * apply of_Z_le; [exact Hk53 | lia].
Qed.

(** X27: the stars of a course card show the integer part of the rating: the
    filled stars come first, and there are as many as the integer part,
    five at most. *)
Theorem stars_show_integer_part (rating : number) (n : Z) :
  wf rating = true -> ge rating zero = true ->
  to_Z (floor rating) = Some n ->
  stars rating =
    repeat "star" (Z.to_nat (Z.min 5 n)) ++ repeat "star-outline" (5 - Z.to_nat (Z.min 5 n)).
Proof.
  intros Hwf Hge Hn. unfold stars. cbn [map].
  rewrite !(star_filled rating n) by (try assumption; lia).
  assert (Hcases : n <= 0 \/ n = 1 \/ n = 2 \/ n = 3 \/ n = 4 \/ 5 <= n) by lia.
  destruct Hcases as [H | [-> | [-> | [-> | [-> | H]]]]]; try reflexivity.
  - replace (Z.to_nat (Z.min 5 n)) with 0%nat by lia.
    repeat match goal with |- context [?k <=? n] =>
      destruct (Z.leb_spec k n); [lia |] end.
    reflexivity.
  - replace (Z.to_nat (Z.min 5 n)) with 5%nat by lia.
    repeat match goal with |- context [?k <=? n] =>
      destruct (Z.leb_spec k n); [| lia] end.
    reflexivity.
Qed.

Lemma stars_show_integer_part_witness :
  stars (of_decimal false 45 (-1)) = ["star"; "star"; "star"; "star"; "star-outline"].
Proof.
  apply (stars_show_integer_part (of_decimal false 45 (-1)) 4); reflexivity.
Defined.
End StarsFacts.

(** ** The web client as a whole: where the family-equity figure goes *)

Module ClientFacts.
Import Js WebApp Flow Site.
Import FlowFacts.



Ltac open_browser b :=
  destruct b as [[?ls [?u ?l] ?d ?t] ?lf ?rf ?la ?da ?co].














End ClientFacts.

(** ** The wallet backend *)

Module BackendFacts.
Import Backend.
Local Open Scope Z_scope.

(** C6: a deposit of [d] adds exactly [d] to the coins balance, appends
    exactly one transaction record, the deposit of [d], adds [d] to the VIP
    recharge total and leaves the bonus and stars balances as they are. *)
Theorem deposit_effect :
  forall (d : Z) (a : Account),
    let a' := deposit d a in
    coins_balance (wallet a') = coins_balance (wallet a) + d /\
    transactions a' = transactions a ++ [ {| tx_type := TxDeposit; tx_amount := d |} ] /\
    length (transactions a') = S (length (transactions a)) /\
    total_recharged (vip a') = total_recharged (vip a) + d /\
    bonus_balance (wallet a') = bonus_balance (wallet a) /\
    stars_balance (wallet a') = stars_balance (wallet a).
Proof.
  intros d a. cbn. repeat split.
  rewrite length_app. cbn. lia.
Qed.

(** The deposit of the test log: 500 coins on a balance of 1500. *)
Example deposit_of_the_test_log :
  let a := {| wallet := {| coins_balance := 1500; bonus_balance := 100; stars_balance := 0 |};
              transactions := [];
              vip := {| vip_level := 0; is_active := false; total_recharged := 0 |};
              notifications := [] |} in
  coins_balance (wallet (deposit 500 a)) = 2000 /\
  total_recharged (vip (deposit 500 a)) = 500 /\
  bonus_balance (wallet (deposit 500 a)) = 100.
Proof. repeat split. Qed.

(** The level found is the running best or a level of the list. *)
Lemma eligible_from_range (levels : list VipLevel) (i : nat) (total : Z) (best : nat) :
  (best <= i)%nat ->
  (eligible_from levels i total best <= i + length levels)%nat /\
  (best <= eligible_from levels i total best)%nat.
Proof.
  revert i best. induction levels as [| l rest IH]; intros i best Hb; cbn.
  - lia.
  - destruct (unlocked total l).
    + destruct (IH (S i) i ltac:(lia)) as [H1 H2]. lia.
    + destruct (IH (S i) best ltac:(lia)) as [H1 H2]. lia.
Qed.

(** A larger total and a larger running best give a larger level. *)
Lemma eligible_from_mono (levels : list VipLevel) (i : nat) (t1 t2 : Z) (b1 b2 : nat) :
  t1 <= t2 -> (b1 <= b2)%nat -> (b1 <= i)%nat ->
  (eligible_from levels i t1 b1 <= eligible_from levels i t2 b2)%nat.
Proof.
  revert i b1 b2. induction levels as [| l rest IH]; intros i b1 b2 Ht Hb Hi; cbn.
  - exact Hb.
  - unfold unlocked.
    destruct (Z.leb_spec (recharge_requirement l) t1);
      destruct (Z.leb_spec (recharge_requirement l) t2); try lia;
      apply IH; lia.
Qed.

(** Every unlocked level of the list is at or below the level found. *)
Lemma eligible_from_above (levels : list VipLevel) (i : nat) (total : Z) (best : nat)
      (j : nat) (l : VipLevel) :
  (best <= i)%nat ->
  levels !! j = Some l -> unlocked total l = true ->
  (i + j <= eligible_from levels i total best)%nat.
Proof.
  revert i best j. induction levels as [| l0 rest IH]; intros i best j Hb Hj Hu.
  - discriminate.
  - destruct j as [| j]; cbn in *.
    + injection Hj as ->. rewrite Hu.
      destruct (eligible_from_range rest (S i) total i ltac:(lia)) as [_ H]. lia.
    + destruct (unlocked total l0).
      * specialize (IH (S i) i j ltac:(lia) Hj Hu). lia.
      * specialize (IH (S i) best j ltac:(lia) Hj Hu). lia.
Qed.

(** The level found is the running best or an unlocked level. *)
Lemma eligible_from_unlocked (levels : list VipLevel) (i : nat) (total : Z) (best : nat) :
  eligible_from levels i total best = best \/
  exists j l, eligible_from levels i total best = (i + j)%nat /\
              levels !! j = Some l /\ unlocked total l = true.
Proof.
  revert i best. induction levels as [| l0 rest IH]; intros i best; cbn.
  - by left.
  - destruct (unlocked total l0) eqn:Hu.
    + right. destruct (IH (S i) i) as [-> | (j & l & -> & Hj & Hl)].
      * exists 0%nat, l0. repeat split; [lia | done].
      * exists (S j), l. repeat split; [lia | done | done].
    + destruct (IH (S i) best) as [-> | (j & l & -> & Hj & Hl)]; [by left |].
      right. exists (S j), l. repeat split; [lia | done | done].
Qed.

(** C2: eligibility is a threshold comparison on the recharge total.  A
    level is unlocked exactly when the total has reached its requirement;
    the eligible level is at or above every unlocked level of the table and
    is itself unlocked unless it is level 0; and it grows with the total. *)
Theorem eligible_level_by_threshold :
  forall (levels : list VipLevel) (total : Z),
    (forall l, unlocked total l = true <-> recharge_requirement l <= total) /\
    (forall j l, levels !! j = Some l -> unlocked total l = true ->
                 (j <= eligible_level levels total)%nat) /\
    (eligible_level levels total = 0%nat \/
     exists l, levels !! eligible_level levels total = Some l /\ unlocked total l = true) /\
    (forall total', total <= total' ->
                    (eligible_level levels total <= eligible_level levels total')%nat).
Proof.
  intros levels total. unfold eligible_level. repeat split.
  - unfold unlocked. intros H. by apply Z.leb_le.
  - unfold unlocked. intros H. by apply Z.leb_le.
  - intros j l Hj Hu.
    by apply (eligible_from_above levels 0 total 0 j l (Nat.le_refl 0)).
  - destruct (eligible_from_unlocked levels 0 total 0) as [-> | (j & l & -> & Hj & Hl)];
      [by left | right]. exists l. by split.
  - intros total' Ht. apply eligible_from_mono; lia.
Qed.
End BackendFacts.
